(** * The object-sync storage core

    A shallow embedding of the MongoDB backed store (package [storage]) and of
    the file data-URI payload backend (package [dataURI]) of the edge sync
    service, followed by the properties of chunked upload, delivery status,
    notifications and leader election that are proved about them.

    Conventions of the embedding
    - Go's [int64], [int32], [int] and [uint32] values are integers in [Z];
      where the code does arithmetic on them the wrap-around is written out
      ([wrap64], [uint32]).
    - [[]byte] is [list byte]; a [nil] slice read out of a map is [None].
    - An [io.Reader] is the list of bytes it still has to deliver.
    - Every method of [*MongoStorage] takes the store and returns the new
      store next to its Go results.  The store record holds the process-local
      [openFiles] map, the [fileHandle] objects that map points to, and the
      contents of the database the session talks to.
    - The database is reachable: an operation fails only with the errors the
      stored state determines ([ErrNotFound], duplicate key).
    - [time.Now()] is an argument of the operation that reads the clock. *)

From Stdlib Require Import ZArith.
From Stdlib.Strings Require Import Byte.
From stdpp Require Import gmap strings list fin_maps.

#[local] Open Scope Z_scope.

(** ** Machine integers *)

Definition wrap64 (z : Z) : Z := (z + 2 ^ 63) mod 2 ^ 64 - 2 ^ 63.
Definition uint32 (z : Z) : Z := z mod 2 ^ 32.
Definition maxInt64 : Z := 2 ^ 63 - 1.

(** [len] of a slice, as a Go [int]. *)
Definition len {A} (l : list A) : Z := Z.of_nat (length l).

(** ** io.Reader *)

Inductive ioError := EOF | ErrOther.

Abbreviation Reader := (list byte).

(** [n, err = r.Read(buf)] for a buffer of [size] bytes: the bytes placed in
    the buffer, their number and the error.  An exhausted reader answers
    [0, io.EOF]. *)
Definition Read (r : Reader) (size : Z) : list byte * Z * option ioError :=
  let got := take (Z.to_nat size) r in
  let buf := got ++ replicate (Z.to_nat size - length got) x00 in
  match r with
  | [] => if 0 <? size then (buf, 0, Some EOF) else (buf, 0, None)
  | _ => (buf, len got, None)
  end.

(** [ioutil.ReadAll(r)] *)
Definition ReadAll (r : Reader) : list byte * option ioError := (r, None).

(** ** Run-time panics *)

(** The result of a call that may panic, as [make] does for a negative
    length. *)
Inductive outcome (A : Type) :=
| Returns (a : A)
| Panics.
Arguments Returns {A} a.
Arguments Panics {A}.

(** [make([]byte, n)] *)
Definition make (n : Z) : outcome (list byte) :=
  if n <? 0 then Panics else Returns (replicate (Z.to_nat n) x00).

(** ** Package common *)

Module common.

(** Modelled from the spec: the status constants of package common, which is
    not under src/.  The spec names the constants and gives the literals
    "ready" and "consumed"; the other literals are only required to differ
    from one another. *)
Definition NotReadyToSend : string := "notReady".
Definition ReadyToSend : string := "ready".
Definition PartiallyReceived : string := "partiallyreceived".
Definition CompletelyReceived : string := "completelyReceived".
Definition ObjReceived : string := "objreceived".
Definition ObjDeleted : string := "objdeleted".

Definition Update : string := "update".
Definition UpdatePending : string := "updatePending".
Definition Updated : string := "updated".
Definition Received : string := "received".
Definition Consumed : string := "consumed".
Definition ConsumedPending : string := "consumedPending".
Definition Delete : string := "delete".
Definition DeletePending : string := "deletePending".
Definition Deleted : string := "deleted".
Definition DeletedPending : string := "deletedPending".
Definition Getdata : string := "getdata".
Definition Data : string := "data".
Definition ReceivedByDestination : string := "receivedByDestination".
Definition ConsumedByDestination : string := "consumedByDestination".
Definition Error : string := "error".

Definition Pending : string := "pending".
Definition Delivering : string := "delivering".
Definition Delivered : string := "delivered".

(** Modelled from the spec: the record types of package common (section 3 of
    the spec lists their attributes). *)
Record MetaData := {
  ObjectID : string;
  ObjectType : string;
  DestOrgID : string;
  DestID : string;
  DestType : string;
  ExpectedConsumers : Z;
  Inactive : bool;
  NoData : bool;
  MetaOnly : bool;
  AutoDelete : bool;
  ActivationTime : string;
  Expiration : string;
  ObjectSize : Z;
  InstanceID : Z;
  Deleted_ : bool
}.

Record Destination := {
  dDestOrgID : string;
  dDestType : string;
  dDestID : string;
  Communication : string
}.

Record StoreDestinationStatus := {
  Destination_ : Destination;
  Status : string;
  Message : string
}.

Record Notification := {
  nObjectID : string;
  nObjectType : string;
  nDestOrgID : string;
  nDestID : string;
  nDestType : string;
  nStatus : string;
  nInstanceID : Z;
  ResendTime : Z
}.

(** The part of [common.Configuration] the store reads. *)
Record Config := {
  LeadershipTimeout : Z;
  ResendInterval : Z
}.

#[global] Instance MetaData_eq_dec : EqDecision MetaData.
Proof. solve_decision. Defined.
#[global] Instance Destination_eq_dec : EqDecision Destination.
Proof. solve_decision. Defined.
#[global] Instance StoreDestinationStatus_eq_dec : EqDecision StoreDestinationStatus.
Proof. solve_decision. Defined.
#[global] Instance Notification_eq_dec : EqDecision Notification.
Proof. solve_decision. Defined.

End common.

(** ** Package storage: the MongoDB store *)

Module storage.
Import common.

(** [common.SyncServiceError] values the store returns: [&Error{...}] and
    [&Discarded{...}].  The message is kept without its formatted
    arguments. *)
Inductive SyncServiceError :=
| Error (message : string)
| Discarded (message : string).

(** An [*mgo.GridFile]: the id it is stored under and the bytes written to it
    (for a file opened for reading, the bytes of the blob). *)
Record GridFile := {
  Id : string;
  content : list byte
}.

Definition Size (f : GridFile) : Z := len (content f).

(** [n, err = f.Write(data)] *)
Definition Write (f : GridFile) (data : list byte) : GridFile * Z * option ioError :=
  ({| Id := Id f; content := content f ++ data |}, len data, None).

Record fileHandle := {
  file : GridFile;
  offset : Z;
  chunks : option (gmap Z (list byte))       (* [None] is the nil map *)
}.

(** [len(fileHandle.chunks)], zero for the nil map *)
Definition lenChunks (fh : fileHandle) : Z :=
  match chunks fh with
  | None => 0
  | Some m => Z.of_nat (size m)
  end.

(** [fileHandle.chunks[k]], nil for an absent key and for the nil map *)
Definition chunkAt (fh : fileHandle) (k : Z) : option (list byte) :=
  match chunks fh with
  | None => None
  | Some m => m !! k
  end.

#[global] Instance fileHandle_inhabited : Inhabited fileHandle :=
  populate {| file := {| Id := ""; content := [] |}; offset := 0; chunks := None |}.

Record object := {
  ID : string;
  MetaData_ : MetaData;
  Status_ : string;
  RemainingConsumers : Z;
  RemainingReceivers : Z;
  Destinations : list StoreDestinationStatus;
  LastUpdate : Z
}.

Record destinationObject := {
  doID : string;
  doDestination : Destination
}.

Record notificationObject := {
  noID : string;
  Notification_ : Notification
}.

Record leaderDocument := {
  ldID : Z;
  UUID : string;
  LastHeartbeatTS : Z;
  HeartbeatTimeout : Z;
  Version : Z
}.

Definition maxUpdateTries : nat := 5.

(** A [*fileHandle] *)
Abbreviation ptr := positive.

(** The store: the [openFiles] map of [MongoStorage], the [fileHandle]
    objects its pointers refer to, and the database behind the session: the
    GridFS bucket of published blobs, the collections keyed by [_id], and the
    server clock that [$currentDate] reads. *)
Record MongoStorage := {
  openFiles : gmap string ptr;
  handles : gmap ptr fileHandle;
  gridfs : gmap string (list byte);
  objects : gmap string object;
  destinations : gmap string destinationObject;
  notifications : gmap string notificationObject;
  leader : gmap Z leaderDocument;
  serverTime : Z
}.

Definition with_openFiles (m : gmap string ptr) (s : MongoStorage) : MongoStorage :=
  {| openFiles := m; handles := handles s; gridfs := gridfs s; objects := objects s;
     destinations := destinations s; notifications := notifications s;
     leader := leader s; serverTime := serverTime s |}.

Definition with_handles (m : gmap ptr fileHandle) (s : MongoStorage) : MongoStorage :=
  {| openFiles := openFiles s; handles := m; gridfs := gridfs s; objects := objects s;
     destinations := destinations s; notifications := notifications s;
     leader := leader s; serverTime := serverTime s |}.

Definition with_gridfs (m : gmap string (list byte)) (s : MongoStorage) : MongoStorage :=
  {| openFiles := openFiles s; handles := handles s; gridfs := m; objects := objects s;
     destinations := destinations s; notifications := notifications s;
     leader := leader s; serverTime := serverTime s |}.

Definition with_objects (m : gmap string object) (s : MongoStorage) : MongoStorage :=
  {| openFiles := openFiles s; handles := handles s; gridfs := gridfs s; objects := m;
     destinations := destinations s; notifications := notifications s;
     leader := leader s; serverTime := serverTime s |}.

Definition with_leader (m : gmap Z leaderDocument) (s : MongoStorage) : MongoStorage :=
  {| openFiles := openFiles s; handles := handles s; gridfs := gridfs s; objects := objects s;
     destinations := destinations s; notifications := notifications s;
     leader := m; serverTime := serverTime s |}.

Definition with_serverTime (t : Z) (s : MongoStorage) : MongoStorage :=
  {| openFiles := openFiles s; handles := handles s; gridfs := gridfs s; objects := objects s;
     destinations := destinations s; notifications := notifications s;
     leader := leader s; serverTime := t |}.

(** *** Helpers of the store that are not under src/ *)

(** Modelled from the spec: [createObjectCollectionID], the composite key
    [orgID ":" objectType ":" objectID] of section 3. *)
Definition createObjectCollectionID (orgID objectType objectID : string) : string :=
  orgID +:+ ":" +:+ objectType +:+ ":" +:+ objectID.

(** Modelled from the spec: [getObjectCollectionID], the same key taken from
    the meta data. *)
Definition getObjectCollectionID (metaData : MetaData) : string :=
  createObjectCollectionID (DestOrgID metaData) (ObjectType metaData) (ObjectID metaData).

(** Modelled from the spec: [getFileHandle], [putFileHandle] and
    [deleteFileHandle], the pointer-level lookup, insert and delete on
    [openFiles] under the map lock (section 5). *)
Definition getFileHandle (id : string) (store : MongoStorage) : option ptr :=
  openFiles store !! id.

Definition putFileHandle (id : string) (fh : ptr) (store : MongoStorage) : MongoStorage :=
  with_openFiles (<[id := fh]> (openFiles store)) store.

Definition deleteFileHandle (id : string) (store : MongoStorage) : MongoStorage :=
  with_openFiles (delete id (openFiles store)) store.

(** Modelled from the spec: [removeFile] deletes the payload stored under the
    key; a missing blob is not an error (section 4.1, Delete). *)
Definition removeFile (id : string) (store : MongoStorage) : MongoStorage :=
  with_gridfs (delete id (gridfs store)) store.

(** Modelled from the spec: [createFile] creates a fresh staging handle with
    [handle.offset = 0] and no out-of-order map (section 4.3).  The handle is
    a new object: its pointer is not yet in use. *)
Definition createFile (id : string) (store : MongoStorage) : ptr * MongoStorage :=
  let p := fresh (dom (handles store)) in
  let fh := {| file := {| Id := id; content := [] |}; offset := 0; chunks := None |} in
  (p, with_handles (<[p := fh]> (handles store)) store).

(** Modelled from the spec: [file.Close()] on a staging file publishes the
    blob under the file's id (section 4.1, atomic publish on close). *)
Definition Close (f : GridFile) (store : MongoStorage) : option ioError * MongoStorage :=
  (None, with_gridfs (<[Id f := content f]> (gridfs store)) store).

(** Modelled from the spec: [openFile] opens the published blob for reading
    and answers [mgo.ErrNotFound] when there is none. *)
Definition openFile (id : string) (store : MongoStorage) : option fileHandle :=
  match gridfs store !! id with
  | Some b => Some {| file := {| Id := id; content := b |}; offset := 0; chunks := None |}
  | None => None
  end.

(** The object a [*fileHandle] points to, and assignment through it. *)
Definition deref (p : ptr) (store : MongoStorage) : fileHandle := handles store !!! p.

Definition assign (p : ptr) (fh : fileHandle) (store : MongoStorage) : MongoStorage :=
  with_handles (<[p := fh]> (handles store)) store.

(** *** AppendObjectData *)

(** The [for] loop of the sequential branch: write [data], advance the
    offset, then continue with the buffered chunk found at the new offset,
    if any.  Every round after the first removes one entry of the map, so
    [fuel] above the size of the map is never used up. *)
Fixpoint writeLoop (fuel : nat) (fh : fileHandle) (data : list byte)
  : option SyncServiceError * fileHandle :=
  match fuel with
  | O => (None, fh)
  | S fuel =>
    let '(f, n, err) := Write (file fh) data in
    let fh := {| file := f; offset := offset fh; chunks := chunks fh |} in
    match err with
    | Some _ => (Some (Error "Failed to write the data to the file."), fh)
    | None =>
      if negb (n =? len data)
      then (Some (Error "Failed to write all the data to the file."), fh)
      else
        let fh := {| file := file fh; offset := wrap64 (offset fh + n); chunks := chunks fh |} in
        match chunks fh with
        | None => (None, fh)
        | Some m =>
          match m !! offset fh with
          | None => (None, fh)
          | Some data =>
            writeLoop fuel
              {| file := file fh; offset := offset fh; chunks := Some (delete (offset fh) m) |}
              data
          end
        end
    end
  end.

(** Reading the chunk: [dataLength] bytes in one [Read] when [dataLength] is
    positive, otherwise all the reader has; a failed or short read is an
    error. *)
Definition readChunk (dataReader : Reader) (dataLength : Z) : SyncServiceError + list byte :=
  let '(data, n, err) :=
    if 0 <? dataLength then Read dataReader dataLength
    else let '(data, err) := ReadAll dataReader in (data, len data, err) in
  match err with
  | Some _ => inl (Error "Failed to read the data from the dataReader.")
  | None =>
    if negb (uint32 n =? dataLength) && (0 <? dataLength)
    then inl (Error "Failed to read all the data from the dataReader.")
    else inr data
  end.

(** The branch for a chunk that is not at the handle's offset: the chunk
    goes into the out-of-order map of the handle [fileHandle] points to,
    unless that map has more than 100 entries. *)
Definition bufferChunk (fileHandle : ptr) (offset_ : Z) (data : list byte)
    (store : MongoStorage) : option SyncServiceError * MongoStorage :=
  let fh := deref fileHandle store in
  let fh :=
    match chunks fh with
    | None => {| file := file fh; offset := offset fh; chunks := Some ∅ |}
    | Some _ => fh
    end in
  let store := assign fileHandle fh store in
  if 100 <? lenChunks fh
  then (Some (Discarded "Discard data chunk since there are too many out-of-order chunks"),
        store)
  else
    let fh :=
      {| file := file fh; offset := offset fh;
         chunks := Some (<[offset_ := data]> (default ∅ (chunks fh))) |} in
    (None, assign fileHandle fh store).

(** The end of the call: on the last chunk the handle is evicted and its
    file closed, otherwise the handle is put into [openFiles]. *)
Definition finishChunk (id : string) (fileHandle : ptr) (isLastChunk : bool)
    (store : MongoStorage) : option SyncServiceError * MongoStorage :=
  if isLastChunk
  then
    let store := deleteFileHandle id store in
    let '(err, store) := Close (file (deref fileHandle store)) store in
    match err with
    | Some _ => (Some (Error "Failed to close the file."), store)
    | None => (None, store)
    end
  else (None, putFileHandle id fileHandle store).

Definition AppendObjectData (orgID objectType objectID : string) (dataReader : Reader)
    (dataLength : Z) (offset_ : Z) (total : Z) (isFirstChunk isLastChunk : bool)
    (store : MongoStorage) : option SyncServiceError * MongoStorage :=
  let id := createObjectCollectionID orgID objectType objectID in
  let '(fileHandle, store) :=
    if isFirstChunk
    then let '(fh, store) := createFile id (removeFile id store) in (Some fh, store)
    else (getFileHandle id store, store) in
  match fileHandle with
  | None => (Some (Error "Failed to append the data, the file doesn't exist."), store)
  | Some fileHandle =>
    match readChunk dataReader dataLength with
    | inl e => (Some e, store)
    | inr data =>
      let '(err, store) :=
        if offset_ =? offset (deref fileHandle store)
        then
          let fh := deref fileHandle store in
          let '(err, fh) := writeLoop (S (Z.to_nat (lenChunks fh))) fh data in
          (err, assign fileHandle fh store)
        else bufferChunk fileHandle offset_ data store in
      match err with
      | Some e => (Some e, store)
      | None => finishChunk id fileHandle isLastChunk store
      end
    end
  end.

(** *** The collections *)

Inductive mgoError := ErrNotFound | ErrDup.

(** Modelled from the spec: [fetchOne] by [_id]; [NotFound] when absent
    (section 4.2). *)
Definition fetchOne {K D} `{Countable K} (coll : gmap K D) (id : K) : mgoError + D :=
  match coll !! id with
  | Some d => inr d
  | None => inl ErrNotFound
  end.

(** Modelled from the spec: [update], the conditional update of the document
    with the given [_id] that also satisfies the rest of the filter;
    [NotFound] if the filter does not match (section 4.2). *)
Definition update {K D} `{Countable K} (coll : gmap K D) (id : K) (filter : D → bool)
    (mutation : D → D) : mgoError + gmap K D :=
  match coll !! id with
  | Some d => if filter d then inr (<[id := mutation d]> coll) else inl ErrNotFound
  | None => inl ErrNotFound
  end.

(** Modelled from the spec: [upsert], insert if no document matches the
    filter, else replace (section 4.2).  An insert under an [_id] that is
    taken is a duplicate key. *)
Definition upsert {K D} `{Countable K} (coll : gmap K D) (id : K) (filter : D → bool)
    (doc : D) : mgoError + gmap K D :=
  match coll !! id with
  | Some d => if filter d then inr (<[id := doc]> coll) else inl ErrDup
  | None => inr (<[id := doc]> coll)
  end.

(** Modelled from the spec: [insert]; a taken [_id] is a duplicate key. *)
Definition insert_ {K D} `{Countable K} (coll : gmap K D) (id : K) (doc : D)
    : mgoError + gmap K D :=
  match coll !! id with
  | Some _ => inl ErrDup
  | None => inr (<[id := doc]> coll)
  end.

(** Modelled from the spec: the value [$currentDate] stores, a server-side
    timestamp that increases with every update (section 3, lastUpdate). *)
Definition currentDate (store : MongoStorage) : Z := serverTime store + 1.

(** An update of the objects collection, and of the leader collection. *)
Definition updateObjects (id : string) (filter : object → bool) (mutation : Z → object → object)
    (store : MongoStorage) : option mgoError * MongoStorage :=
  match update (objects store) id filter (mutation (currentDate store)) with
  | inr m => (None, with_serverTime (currentDate store) (with_objects m store))
  | inl e => (Some e, store)
  end.

Definition updateLeader (id : Z) (filter : leaderDocument → bool)
    (mutation : Z → leaderDocument → leaderDocument)
    (store : MongoStorage) : option mgoError * MongoStorage :=
  match update (leader store) id filter (mutation (currentDate store)) with
  | inr m => (None, with_serverTime (currentDate store) (with_leader m store))
  | inl e => (Some e, store)
  end.

(** Field assignments of [$set] and [$currentDate]. *)
Definition setExpiration (e : string) (m : MetaData) : MetaData :=
  {| ObjectID := ObjectID m; ObjectType := ObjectType m; DestOrgID := DestOrgID m;
     DestID := DestID m; DestType := DestType m; ExpectedConsumers := ExpectedConsumers m;
     Inactive := Inactive m; NoData := NoData m; MetaOnly := MetaOnly m;
     AutoDelete := AutoDelete m; ActivationTime := ActivationTime m; Expiration := e;
     ObjectSize := ObjectSize m; InstanceID := InstanceID m; Deleted_ := Deleted_ m |}.

Definition setObjectSize (z : Z) (m : MetaData) : MetaData :=
  {| ObjectID := ObjectID m; ObjectType := ObjectType m; DestOrgID := DestOrgID m;
     DestID := DestID m; DestType := DestType m; ExpectedConsumers := ExpectedConsumers m;
     Inactive := Inactive m; NoData := NoData m; MetaOnly := MetaOnly m;
     AutoDelete := AutoDelete m; ActivationTime := ActivationTime m; Expiration := Expiration m;
     ObjectSize := z; InstanceID := InstanceID m; Deleted_ := Deleted_ m |}.

Definition setInstanceID (z : Z) (m : MetaData) : MetaData :=
  {| ObjectID := ObjectID m; ObjectType := ObjectType m; DestOrgID := DestOrgID m;
     DestID := DestID m; DestType := DestType m; ExpectedConsumers := ExpectedConsumers m;
     Inactive := Inactive m; NoData := NoData m; MetaOnly := MetaOnly m;
     AutoDelete := AutoDelete m; ActivationTime := ActivationTime m; Expiration := Expiration m;
     ObjectSize := ObjectSize m; InstanceID := z; Deleted_ := Deleted_ m |}.

Definition setMetaData (m : MetaData) (o : object) : object :=
  {| ID := ID o; MetaData_ := m; Status_ := Status_ o;
     RemainingConsumers := RemainingConsumers o; RemainingReceivers := RemainingReceivers o;
     Destinations := Destinations o; LastUpdate := LastUpdate o |}.

Definition setStatus (s : string) (o : object) : object :=
  {| ID := ID o; MetaData_ := MetaData_ o; Status_ := s;
     RemainingConsumers := RemainingConsumers o; RemainingReceivers := RemainingReceivers o;
     Destinations := Destinations o; LastUpdate := LastUpdate o |}.

Definition setRemainingConsumers (z : Z) (o : object) : object :=
  {| ID := ID o; MetaData_ := MetaData_ o; Status_ := Status_ o;
     RemainingConsumers := z; RemainingReceivers := RemainingReceivers o;
     Destinations := Destinations o; LastUpdate := LastUpdate o |}.

Definition setDestinations (ds : list StoreDestinationStatus) (o : object) : object :=
  {| ID := ID o; MetaData_ := MetaData_ o; Status_ := Status_ o;
     RemainingConsumers := RemainingConsumers o; RemainingReceivers := RemainingReceivers o;
     Destinations := ds; LastUpdate := LastUpdate o |}.

Definition setLastUpdate (t : Z) (o : object) : object :=
  {| ID := ID o; MetaData_ := MetaData_ o; Status_ := Status_ o;
     RemainingConsumers := RemainingConsumers o; RemainingReceivers := RemainingReceivers o;
     Destinations := Destinations o; LastUpdate := t |}.

(** *** Delivery status *)

Section WithClock.

(** [t.Format(time.RFC3339)] for a time given in nanoseconds since the
    epoch; the rendering depends on the local time zone of the process. *)
Variable RFC3339 : Z → string.

(** [time.Hour], in nanoseconds *)
Definition Hour : Z := 3600 * 10 ^ 9.

(** The [range] loop over [result.Destinations]: the updated list, [found]
    and [allConsumed]. *)
Fixpoint updateDestinations (status message destType destID : string)
    (found allConsumed : bool) (ds : list StoreDestinationStatus)
  : list StoreDestinationStatus * bool * bool :=
  match ds with
  | [] => ([], found, allConsumed)
  | d :: ds =>
    if negb found && bool_decide (dDestType (Destination_ d) = destType)
       && bool_decide (dDestID (Destination_ d) = destID)
    then
      let d :=
        if negb (bool_decide (message = "")) || bool_decide (Status d = common.Error)
        then {| Destination_ := Destination_ d; Status := Status d; Message := message |}
        else d in
      let d :=
        if negb (bool_decide (status = ""))
        then {| Destination_ := Destination_ d; Status := status; Message := Message d |}
        else d in
      let '(ds, found, allConsumed) :=
        updateDestinations status message destType destID true allConsumed ds in
      (d :: ds, found, allConsumed)
    else
      let allConsumed :=
        if negb (bool_decide (Status d = Consumed)) then false else allConsumed in
      let '(ds, found, allConsumed) :=
        updateDestinations status message destType destID found allConsumed ds in
      (d :: ds, found, allConsumed)
  end.

(** The retry loop of [UpdateObjectDeliveryStatus], [tries] rounds left. *)
Fixpoint updateObjectDeliveryStatusLoop (tries : nat) (status message id destType destID : string)
    (now : Z) (store : MongoStorage) : option SyncServiceError * MongoStorage :=
  match tries with
  | O => (Some (Error "Failed to update object's destinations."), store)
  | S tries =>
    match fetchOne (objects store) id with
    | inl _ => (Some (Error "Failed to retrieve object."), store)
    | inr result =>
      let '(dests, found, allConsumed) :=
        updateDestinations status message destType destID false true (Destinations result) in
      if negb found then (Some (Error "Failed to find destination."), store)
      else
        let query :=
          if AutoDelete (MetaData_ result) && bool_decide (status = Consumed) && allConsumed
             && bool_decide (Expiration (MetaData_ result) = "")
          then
            let expirationTime := RFC3339 (now + Hour) in
            fun t o => setLastUpdate t
                         (setMetaData (setExpiration expirationTime (MetaData_ o))
                            (setDestinations dests o))
          else fun t o => setLastUpdate t (setDestinations dests o) in
        match updateObjects id (fun o => LastUpdate o =? LastUpdate result) query store with
        | (Some ErrNotFound, store) =>
          updateObjectDeliveryStatusLoop tries status message id destType destID now store
        | (Some _, store) => (Some (Error "Failed to update object's destinations."), store)
        | (None, store) => (None, store)
        end
    end
  end.

Definition UpdateObjectDeliveryStatus (status message orgID objectType objectID destType
    destID : string) (now : Z) (store : MongoStorage) : option SyncServiceError * MongoStorage :=
  if bool_decide (status = "") && bool_decide (message = "") then (None, store)
  else
    let id := createObjectCollectionID orgID objectType objectID in
    updateObjectDeliveryStatusLoop maxUpdateTries status message id destType destID now store.

End WithClock.

(** *** StoreObject and the consumer counters *)

(** Modelled from the spec: [storeDataInFile] stores the payload under the
    key, replacing what was there (section 4.1, Store). *)
Definition storeDataInFile (id : string) (data : list byte) (store : MongoStorage)
    : option SyncServiceError * MongoStorage :=
  (None, with_gridfs (<[id := data]> (gridfs store)) store).

(** Modelled from the spec: [createDestinations], the destinations of the
    object's organization, filtered by the meta data's destination type and
    destination id where these are not empty, each with status Pending
    (section 4.3, Destination computation). *)
Definition createDestinations (metaData : MetaData) (store : MongoStorage)
    : list StoreDestinationStatus :=
  let matching (d : destinationObject) :=
    bool_decide (dDestOrgID (doDestination d) = DestOrgID metaData)
    && (bool_decide (DestType metaData = "")
        || bool_decide (dDestType (doDestination d) = DestType metaData))
    && (bool_decide (DestID metaData = "")
        || bool_decide (dDestID (doDestination d) = DestID metaData)) in
  (λ d, {| Destination_ := doDestination d; Status := Pending; Message := "" |})
    <$> filter (λ d, matching d = true) (map_to_list (destinations store)).*2.

Definition StoreObject (metaData : MetaData) (data : option (list byte)) (status : string)
    (now : Z) (store : MongoStorage) : option SyncServiceError * MongoStorage :=
  let id := getObjectCollectionID metaData in
  let '(err, store) :=
    match data with
    | Some data => storeDataInFile id data store
    | None =>
      if negb (MetaOnly metaData) || NoData metaData
      then (None, removeFile id store) else (None, store)
    end in
  match err with
  | Some e => (Some e, store)
  | None =>
    let '(metaData, dests) :=
      if bool_decide (status = NotReadyToSend) || bool_decide (status = ReadyToSend)
      then
        let metaData := setInstanceID now metaData in
        (metaData, createDestinations metaData store)
      else (metaData, []) in
    let newObject :=
      {| ID := id; MetaData_ := metaData; Status_ := status;
         RemainingConsumers := ExpectedConsumers metaData;
         RemainingReceivers := ExpectedConsumers metaData;
         Destinations := dests; LastUpdate := 0 |} in
    match upsert (objects store) id
            (fun o => bool_decide (DestOrgID (MetaData_ o) = DestOrgID metaData)) newObject with
    | inl _ => (Some (Error "Failed to store an object."), store)
    | inr m => (None, with_objects m store)
    end
  end.

Definition ResetObjectRemainingConsumers (orgID objectType objectID : string)
    (store : MongoStorage) : option SyncServiceError * MongoStorage :=
  let id := createObjectCollectionID orgID objectType objectID in
  match fetchOne (objects store) id with
  | inl _ => (Some (Error "Failed to retrieve object."), store)
  | inr result =>
    match updateObjects id (fun _ => true)
            (fun t o => setLastUpdate t
                          (setRemainingConsumers (ExpectedConsumers (MetaData_ result)) o))
            store with
    | (Some _, store) => (Some (Error "Failed to reset object's remaining comsumers."), store)
    | (None, store) => (None, store)
    end
  end.

(** *** The payload of an object *)

Definition UpdateObjectStatus (orgID objectType objectID status : string)
    (store : MongoStorage) : option SyncServiceError * MongoStorage :=
  let id := createObjectCollectionID orgID objectType objectID in
  match updateObjects id (fun _ => true) (fun t o => setLastUpdate t (setStatus status o))
          store with
  | (Some _, store) => (Some (Error "Failed to update object's status."), store)
  | (None, store) => (None, store)
  end.

(** Modelled from the spec: [copyDataToFile] with both chunk flags set, the
    single-shot path: the old payload is removed, all the bytes of the reader
    are written and the blob is published; the number of bytes written is
    returned (sections 4.1 and 4.3). *)
Definition copyDataToFile (id : string) (dataReader : Reader) (store : MongoStorage)
    : Z * option SyncServiceError * MongoStorage :=
  (len dataReader, None, with_gridfs (<[id := dataReader]> (gridfs store)) store).

Definition StoreObjectData (orgID objectType objectID : string) (dataReader : Reader)
    (now : Z) (store : MongoStorage) : bool * option SyncServiceError * MongoStorage :=
  let id := createObjectCollectionID orgID objectType objectID in
  match fetchOne (objects store) id with
  | inl _ => (false, None, store)
  | inr result =>
    let '(err, store) :=
      if bool_decide (Status_ result = NotReadyToSend)
      then (None, snd (UpdateObjectStatus orgID objectType objectID ReadyToSend store))
      else if bool_decide (Status_ result = ReadyToSend)
      then
        match updateObjects id (fun _ => true)
                (fun t o => setLastUpdate t (setMetaData (setInstanceID now (MetaData_ o)) o))
                store with
        | (Some _, store) => (Some (Error "Failed to set instance id."), store)
        | (None, store) => (None, store)
        end
      else (None, store) in
    match err with
    | Some e => (false, Some e, store)
    | None =>
      let '(size, err, store) := copyDataToFile id dataReader store in
      match err with
      | Some e => (false, Some e, store)
      | None =>
        match updateObjects id (fun _ => true)
                (fun _ o => setMetaData (setObjectSize size (MetaData_ o)) o) store with
        | (Some _, store) => (false, Some (Error "Failed to update object's size."), store)
        | (None, store) => (true, None, store)
        end
      end
    end
  end.

(** [file.Seek(offset, 0)] on a file opened for reading: past the end of the
    file is an error. *)
Definition Seek (f : GridFile) (offset_ : Z) : option ioError :=
  if (Size f <? offset_) || (offset_ <? 0) then Some ErrOther else None.

(** [n, err = file.Read(b)] at position [pos], for a buffer of [size]
    bytes. *)
Definition ReadFile (f : GridFile) (pos size : Z) : list byte * Z * option ioError :=
  Read (drop (Z.to_nat pos) (content f)) size.

Definition ReadObjectData (orgID objectType objectID : string) (size : Z) (offset_ : Z)
    (store : MongoStorage)
  : outcome (option (list byte) * bool * Z * option SyncServiceError) :=
  let id := createObjectCollectionID orgID objectType objectID in
  match openFile id store with
  | None => Returns (None, true, 0, Some (Error "Failed to open file to read the data."))
  | Some fileHandle =>
    let offset64 := offset_ in
    if Size (file fileHandle) <=? offset64
    then
      match make 0 with
      | Panics => Panics
      | Returns b => Returns (Some b, true, 0, None)
      end
    else
      match Seek (file fileHandle) offset64 with
      | Some _ => Returns (None, true, 0, Some (Error "Failed to read the data."))
      | None =>
        let s := size in
        let s := if Size (file fileHandle) - offset64 <? s
                 then Size (file fileHandle) - offset64 else s in
        match make s with
        | Panics => Panics
        | Returns _ =>
          let '(b, n, err) := ReadFile (file fileHandle) offset64 s in
          match err with
          | Some _ => Returns (None, true, 0, Some (Error "Failed to read the data."))
          | None =>
            let eof := Size (file fileHandle) - offset64 =? n in
            Returns (Some b, eof, n, None)
          end
        end
      end
  end.

(** *** Notifications *)

(** The filters [RetrieveNotifications] builds, as far as [bson.M] is used
    there: a field equal to a value, a field at most a value ([$lte]), a
    disjunction ([$or]), and the conjunction of the entries of one
    [bson.M]. *)
Inductive value :=
| VString (s : string)
| VInt (z : Z).

#[global] Instance value_eq_dec : EqDecision value.
Proof. solve_decision. Defined.

#[local] Set Warnings "-register-all".
Inductive query :=
| Is (field : string) (v : value)
| Lte (field : string) (v : value)
| Or (qs : list query)
| M (qs : list query).

(** Modelled from the spec: the bson field names of a notification document
    are those the filters of this file use. *)
Definition notificationField (d : notificationObject) (field : string) : option value :=
  let n := Notification_ d in
  if bool_decide (field = "_id") then Some (VString (noID d))
  else if bool_decide (field = "notification.status") then Some (VString (nStatus n))
  else if bool_decide (field = "notification.resend-time") then Some (VInt (ResendTime n))
  else if bool_decide (field = "notification.destination-org-id")
       then Some (VString (nDestOrgID n))
  else if bool_decide (field = "notification.destination-id") then Some (VString (nDestID n))
  else if bool_decide (field = "notification.destination-type")
       then Some (VString (nDestType n))
  else if bool_decide (field = "notification.object-type") then Some (VString (nObjectType n))
  else if bool_decide (field = "notification.object-id") then Some (VString (nObjectID n))
  else None.

Fixpoint matches (doc : string → option value) (q : query) : bool :=
  match q with
  | Is field v => bool_decide (doc field = Some v)
  | Lte field v =>
    match doc field, v with
    | Some (VInt a), VInt b => a <=? b
    | _, _ => false
    end
  | Or qs => existsb (matches doc) qs
  | M qs => forallb (matches doc) qs
  end.

(** Modelled from the spec: [fetchAll], the documents of the collection that
    satisfy the filter (section 4.2). *)
Definition fetchAll (q : query) (store : MongoStorage) : list notificationObject :=
  filter (λ d, matches (notificationField d) q = true) (map_to_list (notifications store)).*2.

Definition RetrieveNotifications (orgID destType destID : string) (retrieveReceived : bool)
    (nowUnix : Z) (store : MongoStorage) : list Notification * option SyncServiceError :=
  let query :=
    if bool_decide (destType = "") && bool_decide (destID = "")
    then
      let currentTime := nowUnix in
      M [Or [M [Is "notification.status" (VString Getdata)];
             M [Lte "notification.resend-time" (VInt currentTime);
                Or [M [Is "notification.status" (VString Update)];
                    M [Is "notification.status" (VString Received)];
                    M [Is "notification.status" (VString Consumed)];
                    M [Is "notification.status" (VString Data)];
                    M [Is "notification.status" (VString Delete)];
                    M [Is "notification.status" (VString Deleted)]]]]]
    else if retrieveReceived
    then
      M [Or [M [Is "notification.status" (VString Update)];
             M [Is "notification.status" (VString Received)];
             M [Is "notification.status" (VString Consumed)];
             M [Is "notification.status" (VString Getdata)];
             M [Is "notification.status" (VString Data)];
             M [Is "notification.status" (VString ReceivedByDestination)];
             M [Is "notification.status" (VString Delete)];
             M [Is "notification.status" (VString Deleted)]];
         Is "notification.destination-org-id" (VString orgID);
         Is "notification.destination-id" (VString destID);
         Is "notification.destination-type" (VString destType)]
    else
      M [Or [M [Is "notification.status" (VString Update)];
             M [Is "notification.status" (VString Received)];
             M [Is "notification.status" (VString Consumed)];
             M [Is "notification.status" (VString Getdata)];
             M [Is "notification.status" (VString Delete)];
             M [Is "notification.status" (VString Deleted)]];
         Is "notification.destination-org-id" (VString orgID);
         Is "notification.destination-id" (VString destID);
         Is "notification.destination-type" (VString destType)] in
  let result := fetchAll query store in
  (Notification_ <$> result, None).

(** *** Leader election *)

Definition InsertInitialLeader (cfg : Config) (leaderID : string) (store : MongoStorage)
    : bool * option SyncServiceError * MongoStorage :=
  let doc := {| ldID := 1; UUID := leaderID; LastHeartbeatTS := 0;
                HeartbeatTimeout := LeadershipTimeout cfg; Version := 1 |} in
  match insert_ (leader store) 1 doc with
  | inl ErrDup => (false, None, store)
  | inl _ =>
    (false, Some (Error "Failed to insert document into syncLeaderElection collection."), store)
  | inr m => (true, None, with_leader m store)
  end.

Definition UpdateLeader (cfg : Config) (leaderID : string) (version : Z) (store : MongoStorage)
    : bool * option SyncServiceError * MongoStorage :=
  match updateLeader 1 (fun d => Version d =? version)
          (fun t d => {| ldID := ldID d; UUID := leaderID; LastHeartbeatTS := t;
                         HeartbeatTimeout := LeadershipTimeout cfg;
                         Version := wrap64 (version + 1) |})
          store with
  | (Some ErrNotFound, store) => (false, None, store)
  | (Some _, store) =>
    (false, Some (Error "Failed to update the document in the syncLeaderElection collection."),
     store)
  | (None, store) => (true, None, store)
  end.

(** *** Filters over the other collections *)

Definition with_destinations (m : gmap string destinationObject) (s : MongoStorage)
    : MongoStorage :=
  {| openFiles := openFiles s; handles := handles s; gridfs := gridfs s; objects := objects s;
     destinations := m; notifications := notifications s;
     leader := leader s; serverTime := serverTime s |}.

Definition with_notifications (m : gmap string notificationObject) (s : MongoStorage)
    : MongoStorage :=
  {| openFiles := openFiles s; handles := handles s; gridfs := gridfs s; objects := objects s;
     destinations := destinations s; notifications := m;
     leader := leader s; serverTime := serverTime s |}.

(** Modelled from the spec: the bson field names of an object document and
    of a destination document, as far as the filters of this file use
    them. *)
Definition objectField (o : object) (field : string) : option value :=
  if bool_decide (field = "status") then Some (VString (Status_ o))
  else if bool_decide (field = "metadata.destination-org-id")
       then Some (VString (DestOrgID (MetaData_ o)))
  else if bool_decide (field = "metadata.object-type")
       then Some (VString (ObjectType (MetaData_ o)))
  else None.

Definition destinationField (d : destinationObject) (field : string) : option value :=
  let dest := doDestination d in
  if bool_decide (field = "destination.destination-org-id")
  then Some (VString (dDestOrgID dest))
  else if bool_decide (field = "destination.destination-type")
       then Some (VString (dDestType dest))
  else if bool_decide (field = "destination.destination-id") then Some (VString (dDestID dest))
  else None.

(** The fields of a stored document: [_id] is the key it is stored under. *)
Definition docField {D} (field : D → string → option value) (kd : string * D)
    (f : string) : option value :=
  if bool_decide (f = "_id") then Some (VString kd.1) else field kd.2 f.

(** Modelled from the spec: [fetchAll] on any collection (section 4.2). *)
Definition fetchAllOf {D} (field : D → string → option value) (q : query)
    (coll : gmap string D) : list D :=
  (filter (λ kd, matches (docField field kd) q = true) (map_to_list coll)).*2.

(** Modelled from the spec: [removeAll], the idempotent delete of the
    documents that satisfy the filter (section 4.2); it reports no error
    when nothing is deleted. *)
Definition removeAll {D} (field : D → string → option value) (q : query)
    (coll : gmap string D) : gmap string D :=
  filter (λ kd, matches (docField field kd) q = false) coll.

(** Modelled from the spec: the destination key [orgID ":" destType ":"
    destID] and the notification key [ObjKey ":" destType ":" destID] of
    section 3. *)
Definition createDestinationCollectionID (orgID destType destID : string) : string :=
  orgID +:+ ":" +:+ destType +:+ ":" +:+ destID.

Definition getDestinationCollectionID (destination : Destination) : string :=
  createDestinationCollectionID (dDestOrgID destination) (dDestType destination)
    (dDestID destination).

Definition createNotificationCollectionID (orgID objectType objectID destType destID : string)
    : string :=
  orgID +:+ ":" +:+ objectType +:+ ":" +:+ objectID +:+ ":" +:+ destType +:+ ":" +:+ destID.

Definition getNotificationCollectionID (notification : Notification) : string :=
  createNotificationCollectionID (nDestOrgID notification) (nObjectType notification)
    (nObjectID notification) (nDestType notification) (nDestID notification).

(** Errors that leave the store as another type than [*Error] or
    [*Discarded]: [&NotFound{...}], and an error of the database driver
    handed on as it is. *)
Inductive storeError :=
| SyncError (e : SyncServiceError)
| NotFound (message : string)
| DriverError (e : mgoError).

(** *** Reading an object *)

Definition GetObjectDestinations (metaData : MetaData) (store : MongoStorage)
    : option (list Destination) * option SyncServiceError :=
  let id := getObjectCollectionID metaData in
  match fetchOne (objects store) id with
  | inl ErrNotFound => (None, None)
  | inl _ => (None, Some (Error "Failed to retrieve object's destinations."))
  | inr result => (Some (Destination_ <$> Destinations result), None)
  end.

Definition GetObjectDestinationsList (orgID objectType objectID : string)
    (store : MongoStorage) : option (list StoreDestinationStatus) * option SyncServiceError :=
  let id := createObjectCollectionID orgID objectType objectID in
  match fetchOne (objects store) id with
  | inl ErrNotFound => (None, None)
  | inl _ => (None, Some (Error "Failed to retrieve object's destinations."))
  | inr result => (Some (Destinations result), None)
  end.

Definition RetrieveObjectStatus (orgID objectType objectID : string) (store : MongoStorage)
    : string * option SyncServiceError :=
  let id := createObjectCollectionID orgID objectType objectID in
  match fetchOne (objects store) id with
  | inl ErrNotFound => ("", None)
  | inl _ => ("", Some (Error "Failed to retrieve object's status."))
  | inr result => (Status_ result, None)
  end.

Definition RetrieveObjectRemainingConsumers (orgID objectType objectID : string)
    (store : MongoStorage) : Z * option SyncServiceError :=
  let id := createObjectCollectionID orgID objectType objectID in
  match fetchOne (objects store) id with
  | inl _ => (0, Some (Error "Failed to retrieve object's remaining comsumers."))
  | inr result => (RemainingConsumers result, None)
  end.

Definition RetrieveObject (orgID objectType objectID : string) (store : MongoStorage)
    : option MetaData * option SyncServiceError :=
  let id := createObjectCollectionID orgID objectType objectID in
  match fetchOne (objects store) id with
  | inl ErrNotFound => (None, None)
  | inl _ => (None, Some (Error "Failed to fetch the object."))
  | inr result => (Some (MetaData_ result), None)
  end.

Definition RetrieveObjectAndStatus (orgID objectType objectID : string)
    (store : MongoStorage) : option MetaData * string * option SyncServiceError :=
  let id := createObjectCollectionID orgID objectType objectID in
  match fetchOne (objects store) id with
  | inl ErrNotFound => (None, "", None)
  | inl _ => (None, "", Some (Error "Failed to fetch the object."))
  | inr result => (Some (MetaData_ result), Status_ result, None)
  end.

Definition RetrieveUpdatedObjects (orgID objectType : string) (received : bool)
    (store : MongoStorage) : option (list MetaData) * option SyncServiceError :=
  let query :=
    if received
    then
      M [Or [M [Is "status" (VString CompletelyReceived)];
             M [Is "status" (VString ObjReceived)];
             M [Is "status" (VString ObjDeleted)]];
         Is "metadata.destination-org-id" (VString orgID);
         Is "metadata.object-type" (VString objectType)]
    else
      M [Or [M [Is "status" (VString CompletelyReceived)];
             M [Is "status" (VString ObjDeleted)]];
         Is "metadata.destination-org-id" (VString orgID);
         Is "metadata.object-type" (VString objectType)] in
  let result := fetchAllOf objectField query (objects store) in
  (Some (MetaData_ <$> result), None).

(** *** The destinations and counters of an object *)

(** The retry loop of [UpdateObjectDelivering], [tries] rounds left. *)
Fixpoint updateObjectDeliveringLoop (tries : nat) (id : string) (store : MongoStorage)
    : option SyncServiceError * MongoStorage :=
  match tries with
  | O => (Some (Error "Failed to update object's destinations."), store)
  | S tries =>
    match fetchOne (objects store) id with
    | inl _ => (Some (Error "Failed to retrieve object."), store)
    | inr result =>
      let dests :=
        (λ d, {| Destination_ := Destination_ d; Status := Delivering; Message := Message d |})
          <$> Destinations result in
      match updateObjects id (fun o => LastUpdate o =? LastUpdate result)
              (fun t o => setLastUpdate t (setDestinations dests o)) store with
      | (Some ErrNotFound, store) => updateObjectDeliveringLoop tries id store
      | (Some _, store) => (Some (Error "Failed to update object's destinations."), store)
      | (None, store) => (None, store)
      end
    end
  end.

Definition UpdateObjectDelivering (orgID objectType objectID : string) (store : MongoStorage)
    : option SyncServiceError * MongoStorage :=
  let id := createObjectCollectionID orgID objectType objectID in
  updateObjectDeliveringLoop maxUpdateTries id store.

Definition setRemainingReceivers (z : Z) (o : object) : object :=
  {| ID := ID o; MetaData_ := MetaData_ o; Status_ := Status_ o;
     RemainingConsumers := RemainingConsumers o; RemainingReceivers := z;
     Destinations := Destinations o; LastUpdate := LastUpdate o |}.

(** [$inc] adds in the database, where the counter is a bson integer: the
    sum is the exact one as long as it is an [int64]. *)
Definition DecrementAndReturnRemainingConsumers (orgID objectType objectID : string)
    (store : MongoStorage) : Z * option SyncServiceError * MongoStorage :=
  let id := createObjectCollectionID orgID objectType objectID in
  match updateObjects id (fun _ => true)
          (fun t o => setLastUpdate t (setRemainingConsumers (RemainingConsumers o + -1) o))
          store with
  | (Some _, store) =>
    (0, Some (Error "Failed to decrement object's remaining consumers."), store)
  | (None, store) =>
    match fetchOne (objects store) id with
    | inl _ => (0, Some (Error "Failed to retrieve object's remaining consumers."), store)
    | inr result => (RemainingConsumers result, None, store)
    end
  end.

Definition DecrementAndReturnRemainingReceivers (orgID objectType objectID : string)
    (store : MongoStorage) : Z * option SyncServiceError * MongoStorage :=
  let id := createObjectCollectionID orgID objectType objectID in
  match updateObjects id (fun _ => true)
          (fun t o => setLastUpdate t (setRemainingReceivers (RemainingReceivers o + -1) o))
          store with
  | (Some _, store) =>
    (0, Some (Error "Failed to decrement object's remaining receivers."), store)
  | (None, store) =>
    match fetchOne (objects store) id with
    | inl _ => (0, Some (Error "Failed to retrieve object's remaining receivers."), store)
    | inr result => (RemainingReceivers result, None, store)
    end
  end.

(** *** Readers of the payload *)

(** An [io.Reader] as [CloseDataReader] tells them apart: a GridFS file, or
    a reader of another type. *)
Inductive dataReader :=
| GridFileReader (f : GridFile)
| OtherReader (r : Reader).

(** The handle [openFile] returns is a new object; the store keeps it in
    [openFiles] until the reader is closed. *)
Definition RetrieveObjectData (orgID objectType objectID : string) (store : MongoStorage)
    : option dataReader * option SyncServiceError * MongoStorage :=
  let id := createObjectCollectionID orgID objectType objectID in
  match openFile id store with
  | None => (None, None, store)
  | Some fh =>
    let fileHandle := fresh (dom (handles store)) in
    let store := with_handles (<[fileHandle := fh]> (handles store)) store in
    let store := putFileHandle id fileHandle store in
    (Some (GridFileReader (file (deref fileHandle store))), None, store)
  end.

(** [v.Close()] on a file that was opened for reading writes nothing, and
    the readers the store hands out are such files. *)
Definition CloseDataReader (dataReader : dataReader) (store : MongoStorage)
    : option SyncServiceError * MongoStorage :=
  match dataReader with
  | GridFileReader v =>
    let err := None in
    let id := Id v in
    let store :=
      match getFileHandle id store with
      | Some _ => deleteFileHandle id store
      | None => store
      end in
    (err, store)
  | OtherReader _ => (None, store)
  end.

(** *** Status, deletion and activation *)

Definition UpdateObjectSourceDataURI (orgID objectType objectID sourceDataURI : string)
    (store : MongoStorage) : option SyncServiceError * MongoStorage :=
  (None, store).

Definition setDeleted (b : bool) (m : MetaData) : MetaData :=
  {| ObjectID := ObjectID m; ObjectType := ObjectType m; DestOrgID := DestOrgID m;
     DestID := DestID m; DestType := DestType m; ExpectedConsumers := ExpectedConsumers m;
     Inactive := Inactive m; NoData := NoData m; MetaOnly := MetaOnly m;
     AutoDelete := AutoDelete m; ActivationTime := ActivationTime m; Expiration := Expiration m;
     ObjectSize := ObjectSize m; InstanceID := InstanceID m; Deleted_ := b |}.

Definition setInactive (b : bool) (m : MetaData) : MetaData :=
  {| ObjectID := ObjectID m; ObjectType := ObjectType m; DestOrgID := DestOrgID m;
     DestID := DestID m; DestType := DestType m; ExpectedConsumers := ExpectedConsumers m;
     Inactive := b; NoData := NoData m; MetaOnly := MetaOnly m;
     AutoDelete := AutoDelete m; ActivationTime := ActivationTime m; Expiration := Expiration m;
     ObjectSize := ObjectSize m; InstanceID := InstanceID m; Deleted_ := Deleted_ m |}.

Definition MarkObjectDeleted (orgID objectType objectID : string) (store : MongoStorage)
    : option SyncServiceError * MongoStorage :=
  let id := createObjectCollectionID orgID objectType objectID in
  match updateObjects id (fun _ => true)
          (fun t o => setLastUpdate t
                        (setMetaData (setDeleted true (MetaData_ o)) (setStatus ObjDeleted o)))
          store with
  | (Some _, store) => (Some (Error "Failed to mark object as deleted."), store)
  | (None, store) => (None, store)
  end.

Definition ActivateObject (orgID objectType objectID : string) (store : MongoStorage)
    : option SyncServiceError * MongoStorage :=
  let id := createObjectCollectionID orgID objectType objectID in
  match updateObjects id (fun _ => true)
          (fun t o => setLastUpdate t (setMetaData (setInactive false (MetaData_ o)) o))
          store with
  | (Some _, store) => (Some (Error "Failed to mark object as active."), store)
  | (None, store) => (None, store)
  end.

(** A failure of [removeFile] is only logged here. *)
Definition DeleteStoredObject (orgID objectType objectID : string) (store : MongoStorage)
    : option SyncServiceError * MongoStorage :=
  let id := createObjectCollectionID orgID objectType objectID in
  let store := removeFile id store in
  let store :=
    with_objects (removeAll objectField (M [Is "_id" (VString id)]) (objects store)) store in
  (None, store).

Definition DeleteStoredData (orgID objectType objectID : string) (store : MongoStorage)
    : option SyncServiceError * MongoStorage :=
  let id := createObjectCollectionID orgID objectType objectID in
  (None, removeFile id store).

(** *** Destinations *)

Definition RetrieveDestinations (orgID destType : string) (store : MongoStorage)
    : option (list Destination) * option SyncServiceError :=
  let result :=
    if bool_decide (orgID = "")
    then
      if bool_decide (destType = "")
      then fetchAllOf destinationField (M []) (destinations store)
      else fetchAllOf destinationField
             (M [Is "destination.destination-type" (VString destType)]) (destinations store)
    else
      if bool_decide (destType = "")
      then fetchAllOf destinationField
             (M [Is "destination.destination-org-id" (VString orgID)]) (destinations store)
      else fetchAllOf destinationField
             (M [Is "destination.destination-org-id" (VString orgID);
                 Is "destination.destination-type" (VString destType)]) (destinations store) in
  (Some (doDestination <$> result), None).

Definition DestinationExists (orgID destType destID : string) (store : MongoStorage)
    : bool * option storeError :=
  let id := createDestinationCollectionID orgID destType destID in
  match fetchOne (destinations store) id with
  | inl ErrNotFound => (false, None)
  | inl err => (false, Some (DriverError err))
  | inr _ => (true, None)
  end.

Definition StoreDestination (destination : Destination) (store : MongoStorage)
    : option SyncServiceError * MongoStorage :=
  let id := getDestinationCollectionID destination in
  let newObject := {| doID := id; doDestination := destination |} in
  match upsert (destinations store) id
          (fun d => bool_decide (dDestOrgID (doDestination d) = dDestOrgID destination))
          newObject with
  | inl _ => (Some (Error "Failed to store a destination."), store)
  | inr m => (None, with_destinations m store)
  end.

Definition DeleteDestination (orgID destType destID : string) (store : MongoStorage)
    : option SyncServiceError * MongoStorage :=
  let id := createDestinationCollectionID orgID destType destID in
  (None,
   with_destinations (removeAll destinationField (M [Is "_id" (VString id)])
                        (destinations store)) store).

Definition RetrieveDestinationProtocol (orgID destType destID : string)
    (store : MongoStorage) : string * option SyncServiceError :=
  let id := createDestinationCollectionID orgID destType destID in
  match fetchOne (destinations store) id with
  | inl _ => ("", Some (Error "Failed to fetch the destination."))
  | inr result => (Communication (doDestination result), None)
  end.

Definition RetrieveDestination (orgID destType destID : string) (store : MongoStorage)
    : option Destination * option SyncServiceError :=
  let id := createDestinationCollectionID orgID destType destID in
  match fetchOne (destinations store) id with
  | inl _ => (None, Some (Error "Failed to fetch the destination."))
  | inr result => (Some (doDestination result), None)
  end.

(** *** RetrieveObjects *)

(** How one pass over the fetched objects ends: all of them handled, an
    update that found its object changed ([continue OUTER]), or an update
    that failed. *)
Inductive passResult :=
| PassDone (metaDatas : list MetaData)
| PassRetry
| PassError.

(** The [range] loop of [RetrieveObjects] over the objects that are left of
    the fetched list. *)
Fixpoint retrieveObjectsPass (orgID destType destID : string) (result : list object)
    (metaDatas : list MetaData) (store : MongoStorage) : passResult * MongoStorage :=
  match result with
  | [] => (PassDone metaDatas, store)
  | r :: result =>
    if (bool_decide (DestType (MetaData_ r) = "")
        || bool_decide (DestType (MetaData_ r) = destType))
       && (bool_decide (DestID (MetaData_ r) = "")
           || bool_decide (DestID (MetaData_ r) = destID))
    then
      let status := Pending in
      let '(metaDatas, status) :=
        if bool_decide (Status_ r = ReadyToSend) && negb (Inactive (MetaData_ r))
        then (metaDatas ++ [MetaData_ r], Delivering)
        else (metaDatas, status) in
      match RetrieveDestination orgID destType destID store with
      | (Some dest, None) =>
        let dests :=
          Destinations r ++ [{| Destination_ := dest; Status := status; Message := "" |}] in
        let id :=
          createObjectCollectionID orgID (ObjectType (MetaData_ r)) (ObjectID (MetaData_ r)) in
        match updateObjects id (fun o => LastUpdate o =? LastUpdate r)
                (fun t o => setLastUpdate t (setDestinations dests o)) store with
        | (Some ErrNotFound, store) => (PassRetry, store)
        | (Some _, store) => (PassError, store)
        | (None, store) => retrieveObjectsPass orgID destType destID result metaDatas store
        end
      | _ => retrieveObjectsPass orgID destType destID result metaDatas store
      end
    else retrieveObjectsPass orgID destType destID result metaDatas store
  end.

Fixpoint retrieveObjectsLoop (tries : nat) (orgID destType destID : string)
    (store : MongoStorage) : option (list MetaData) * option SyncServiceError * MongoStorage :=
  match tries with
  | O => (None, Some (Error "Failed to update object's destinations."), store)
  | S tries =>
    let query :=
      M [Is "metadata.destination-org-id" (VString orgID);
         Or [M [Is "status" (VString ReadyToSend)];
             M [Is "status" (VString NotReadyToSend)]]] in
    let result := fetchAllOf objectField query (objects store) in
    match retrieveObjectsPass orgID destType destID result [] store with
    | (PassDone metaDatas, store) => (Some metaDatas, None, store)
    | (PassRetry, store) => retrieveObjectsLoop tries orgID destType destID store
    | (PassError, store) =>
      (None, Some (Error "Failed to update object's destinations."), store)
    end
  end.

Definition RetrieveObjects (orgID destType destID : string) (store : MongoStorage)
    : option (list MetaData) * option SyncServiceError * MongoStorage :=
  retrieveObjectsLoop maxUpdateTries orgID destType destID store.

(** *** More on notifications *)

(** [common.ObjectStatus] *)
Record ObjectStatus := {
  osOrgID : string;
  osObjectType : string;
  osObjectID : string;
  osStatus : string
}.

(** The [switch] of [GetObjectsForDestination]: the status reported for a
    notification status, [status] being the value left by the round
    before. *)
Definition objectStatusOf (notificationStatus status : string) : string :=
  if bool_decide (notificationStatus = Update) then Delivering
  else if bool_decide (notificationStatus = UpdatePending) then Delivering
  else if bool_decide (notificationStatus = Updated) then Delivering
  else if bool_decide (notificationStatus = ReceivedByDestination) then Delivered
  else if bool_decide (notificationStatus = ConsumedByDestination) then Consumed
  else if bool_decide (notificationStatus = common.Error) then common.Error
  else status.

Definition GetObjectsForDestination (orgID destType destID : string) (store : MongoStorage)
    : list ObjectStatus * option SyncServiceError :=
  let query :=
    M [Or [M [Is "notification.status" (VString Update)];
           M [Is "notification.status" (VString UpdatePending)];
           M [Is "notification.status" (VString Updated)];
           M [Is "notification.status" (VString ReceivedByDestination)];
           M [Is "notification.status" (VString ConsumedByDestination)];
           M [Is "notification.status" (VString common.Error)]];
       Is "notification.destination-org-id" (VString orgID);
       Is "notification.destination-id" (VString destID);
       Is "notification.destination-type" (VString destType)] in
  let notificationRecords := fetchAll query store in
  let '(_, objectStatuses) :=
    foldl (λ '(status, objectStatuses) n,
             let status := objectStatusOf (nStatus (Notification_ n)) status in
             let objectStatus :=
               {| osOrgID := orgID; osObjectType := nObjectType (Notification_ n);
                  osObjectID := nObjectID (Notification_ n); osStatus := status |} in
             (status, objectStatuses ++ [objectStatus]))
          ("", []) notificationRecords in
  (objectStatuses, None).

Definition setResendTime (t : Z) (n : Notification) : Notification :=
  {| nObjectID := nObjectID n; nObjectType := nObjectType n; nDestOrgID := nDestOrgID n;
     nDestID := nDestID n; nDestType := nDestType n; nStatus := nStatus n;
     nInstanceID := nInstanceID n; ResendTime := t |}.

(** The resend time is [time.Now().Unix() + int64(ResendInterval*6)]; the
    product is taken as the configuration gives it, the sum is an
    [int64]. *)
Definition UpdateNotificationRecord (cfg : Config) (notification : Notification)
    (nowUnix : Z) (store : MongoStorage) : option SyncServiceError * MongoStorage :=
  let id := getNotificationCollectionID notification in
  let notification :=
    if ResendTime notification =? 0
    then
      let resendTime := wrap64 (nowUnix + ResendInterval cfg * 6) in
      setResendTime resendTime notification
    else notification in
  let n := {| noID := id; Notification_ := notification |} in
  match upsert (notifications store) id
          (fun d => bool_decide (nDestOrgID (Notification_ d) = nDestOrgID notification)
                    && bool_decide (nDestID (Notification_ d) = nDestID notification)
                    && bool_decide (nDestType (Notification_ d) = nDestType notification))
          n with
  | inl _ => (Some (Error "Failed to update notification record."), store)
  | inr m => (None, with_notifications m store)
  end.

Definition UpdateNotificationResendTime (cfg : Config) (notification : Notification)
    (nowUnix : Z) (store : MongoStorage) : option SyncServiceError * MongoStorage :=
  let id := getNotificationCollectionID notification in
  let resendTime := wrap64 (nowUnix + ResendInterval cfg * 6) in
  match update (notifications store) id (fun _ => true)
          (fun d => {| noID := noID d;
                       Notification_ := setResendTime resendTime (Notification_ d) |}) with
  | inl _ => (Some (Error "Failed to update notification resend time."), store)
  | inr m => (None, with_notifications m store)
  end.

Definition RetrieveNotificationRecord (orgID objectType objectID destType destID : string)
    (store : MongoStorage) : option Notification * option SyncServiceError :=
  let id := createNotificationCollectionID orgID objectType objectID destType destID in
  match fetchOne (notifications store) id with
  | inl _ => (None, Some (Error "Failed to fetch the notification."))
  | inr result => (Some (Notification_ result), None)
  end.

Definition DeleteNotificationRecords (orgID objectType objectID destType destID : string)
    (store : MongoStorage) : option SyncServiceError * MongoStorage :=
  let m :=
    if negb (bool_decide (objectType = "")) && negb (bool_decide (objectID = ""))
    then
      if negb (bool_decide (destType = "")) && negb (bool_decide (destID = ""))
      then
        let id := createNotificationCollectionID orgID objectType objectID destType destID in
        removeAll notificationField (M [Is "_id" (VString id)]) (notifications store)
      else
        removeAll notificationField
          (M [Is "notification.destination-org-id" (VString orgID);
              Is "notification.object-type" (VString objectType);
              Is "notification.object-id" (VString objectID)]) (notifications store)
    else
      removeAll notificationField
        (M [Is "notification.destination-org-id" (VString orgID);
            Is "notification.destination-type" (VString destType);
            Is "notification.destination-id" (VString destID)]) (notifications store) in
  (None, with_notifications m store).

Definition RetrievePendingNotifications (orgID destType destID : string)
    (store : MongoStorage) : list Notification * option SyncServiceError :=
  let query :=
    if bool_decide (destType = "") && bool_decide (destID = "")
    then
      M [Or [M [Is "notification.status" (VString UpdatePending)];
             M [Is "notification.status" (VString ConsumedPending)];
             M [Is "notification.status" (VString DeletePending)];
             M [Is "notification.status" (VString DeletedPending)]];
         Is "notification.destination-org-id" (VString orgID)]
    else
      M [Or [M [Is "notification.status" (VString UpdatePending)];
             M [Is "notification.status" (VString ConsumedPending)];
             M [Is "notification.status" (VString DeletePending)];
             M [Is "notification.status" (VString DeletedPending)]];
         Is "notification.destination-org-id" (VString orgID);
         Is "notification.destination-id" (VString destID);
         Is "notification.destination-type" (VString destType)] in
  let result := fetchAll query store in
  (Notification_ <$> result, None).

(** *** More on leader election *)

Definition LeaderPeriodicUpdate (leaderID : string) (store : MongoStorage)
    : bool * option SyncServiceError * MongoStorage :=
  match updateLeader 1 (fun d => bool_decide (UUID d = leaderID))
          (fun t d => {| ldID := ldID d; UUID := UUID d; LastHeartbeatTS := t;
                         HeartbeatTimeout := HeartbeatTimeout d; Version := Version d |})
          store with
  | (Some ErrNotFound, store) => (false, None, store)
  | (Some _, store) =>
    (false, Some (Error "Failed to update the document in the syncLeaderElection collection."),
     store)
  | (None, store) => (true, None, store)
  end.

(** [ts.Time()] of a [bson.MongoTimestamp], whose upper 32 bits are the
    seconds since the epoch: the time in nanoseconds. *)
Definition Time (ts : Z) : Z := Z.shiftr (ts mod 2 ^ 64) 32 * 10 ^ 9.

(** [bson.NewMongoTimestamp(t, c)] for a time [t] in nanoseconds: the
    seconds in the upper 32 bits, the counter in the lower, and an error for
    a time whose seconds are not a [uint32]. *)
Definition NewMongoTimestamp (t : Z) (c : Z) : option Z :=
  let u := t / 10 ^ 9 in
  if (u <? 0) || (2 ^ 32 - 1 <? u) then None
  else Some (Z.lor (Z.shiftl u 32) c).

Definition RetrieveLeader (now : Z) (store : MongoStorage)
    : string * Z * Z * Z * option SyncServiceError :=
  match fetchOne (leader store) 1 with
  | inl _ =>
    ("", 0, now, 0,
     Some (Error "Failed to fetch the document in the syncLeaderElection collection."))
  | inr doc => (UUID doc, HeartbeatTimeout doc, Time (LastHeartbeatTS doc), Version doc, None)
  end.

Definition ResignLeadership (leaderID : string) (store : MongoStorage)
    : option SyncServiceError * MongoStorage :=
  match NewMongoTimestamp 0 1 with
  | None => (Some (Error "invalid value for time"), store)
  | Some timestamp =>
    match update (leader store) 1 (fun d => bool_decide (UUID d = leaderID))
            (fun d => {| ldID := ldID d; UUID := UUID d; LastHeartbeatTS := timestamp;
                         HeartbeatTimeout := HeartbeatTimeout d; Version := Version d |}) with
    | inl ErrNotFound => (None, store)
    | inl _ =>
      (Some (Error "Failed to update the document in the syncLeaderElection collection."),
       store)
    | inr m => (None, with_leader m store)
    end
  end.

End storage.

(** ** Package dataURI: payloads in files *)

Module dataURI.

Inductive SyncServiceError :=
| Error (message : string)
| IOError (message : string)
| OpenError (message : string).        (* [common.CreateError(err, ...)] *)

(** A parsed [*url.URL], as far as this package reads it. *)
Record URL := {
  Scheme : string;
  Path : string
}.

(** [strings.EqualFold] on ASCII letters *)
Definition lower (c : Ascii.ascii) : Ascii.ascii :=
  let n := Ascii.nat_of_ascii c in
  if (65 <=? n)%nat && (n <=? 90)%nat then Ascii.ascii_of_nat (n + 32) else c.

Fixpoint lowerString (s : string) : string :=
  match s with
  | String.EmptyString => String.EmptyString
  | String.String c s => String.String (lower c) (lowerString s)
  end.

Definition EqualFold (s t : string) : bool :=
  bool_decide (lowerString s = lowerString t).

(** [n, err = file.ReadAt(b, off)] of [*os.File] for a buffer of [size]
    bytes: the buffer, the number of bytes read, and [io.EOF] when fewer
    than [size] bytes were left. *)
Definition ReadAt (contents : list byte) (size off : Z) : list byte * Z * option ioError :=
  if off <? 0 then (replicate (Z.to_nat size) x00, 0, Some ErrOther)
  else
    let got := take (Z.to_nat size) (drop (Z.to_nat off) contents) in
    (got ++ replicate (Z.to_nat size - length got) x00, len got,
     if len got <? size then Some EOF else None).

Section WithParse.

(** [url.Parse], [None] for a parse error. *)
Variable url_Parse : string → option URL.

(** The files of the host, by path. *)
Definition GetDataChunk (uri : string) (size : Z) (offset : Z) (disk : gmap string (list byte))
  : outcome (option (list byte) * bool * Z * option SyncServiceError) :=
  match url_Parse uri with
  | None => Returns (None, false, 0, Some (Error "Invalid data URI"))
  | Some dataURI =>
    if negb (EqualFold (Scheme dataURI) "file")
    then Returns (None, false, 0, Some (Error "Invalid data URI"))
    else
      match disk !! Path dataURI with
      | None => Returns (None, true, 0, Some (OpenError "Failed to open file to read data."))
      | Some contents =>
        let eof := false in
        match make size with
        | Panics => Panics
        | Returns _ =>
          let '(result, n, err) := ReadAt contents size offset in
          if n =? size
          then
            match err with
            | Some _ => Returns (None, true, 0, Some (IOError "Failed to read data."))
            | None =>
              let eof := if len contents =? wrap64 (offset + size) then true else eof in
              Returns (Some result, eof, n, None)
            end
          else
            match err with
            | Some EOF => Returns (Some result, true, n, None)
            | _ => Returns (None, true, 0, Some (IOError "Failed to read data."))
            end
        end
      end
  end.

End WithParse.

(** *** Writing, reading and deleting files *)

Section WithFiles.

Variable url_Parse : string → option URL.

(** The files of the host are a map from paths to contents; the directories
    of the paths exist and the files can be opened, renamed and removed, so
    that [os.OpenFile] with [O_CREATE], [os.Rename] of an existing file and
    [os.Remove] of an existing file do not fail. *)

(** [file.Seek(offset, io.SeekStart)] followed by [io.Copy(file,
    dataReader)] on a file opened with [O_WRONLY|O_CREATE], which does not
    truncate: the bytes of the reader replace those of the file from the
    offset on, bytes of the file beyond them stay, and a gap between the end
    of the file and the offset is filled with zero bytes.  A reader without
    bytes writes nothing.  A seek to a negative offset fails and leaves the
    position at 0; its error is not looked at. *)
Definition writeAt (contents : list byte) (offset : Z) (data : list byte) : list byte :=
  let pos := Z.to_nat (if offset <? 0 then 0 else offset) in
  match data with
  | [] => contents
  | _ =>
    take pos contents ++ replicate (pos - length contents) x00 ++ data
    ++ drop (pos + length data) contents
  end.

(** [os.Rename(oldpath, newpath)]: the file replaces what is at the new
    path; a missing file is an error. *)
Definition Rename (oldpath newpath : string) (disk : gmap string (list byte))
    : option ioError * gmap string (list byte) :=
  match disk !! oldpath with
  | Some contents => (None, <[newpath := contents]> (delete oldpath disk))
  | None => (Some ErrOther, disk)
  end.

Definition AppendData (uri : string) (dataReader : Reader) (dataLength : Z) (offset : Z)
    (total : Z) (isFirstChunk isLastChunk : bool) (disk : gmap string (list byte))
  : option SyncServiceError * gmap string (list byte) :=
  match url_Parse uri with
  | None => (Some (Error "Invalid data URI"), disk)
  | Some dataURI =>
    if negb (EqualFold (Scheme dataURI) "file")
    then (Some (Error "Invalid data URI"), disk)
    else
      let filePath := Path dataURI +:+ ".tmp" in
      let file := default [] (disk !! filePath) in
      let written := len dataReader in
      let disk := <[filePath := writeAt file offset dataReader]> disk in
      if negb (written =? dataLength)
      then (Some (IOError "Failed to write all the data to file."), disk)
      else
        if isLastChunk
        then
          match Rename filePath (Path dataURI) disk with
          | (Some _, disk) => (Some (IOError "Failed to rename data file."), disk)
          | (None, disk) => (None, disk)
          end
        else (None, disk)
  end.

Definition StoreData (uri : string) (dataReader : Reader) (dataLength : Z)
    (disk : gmap string (list byte))
  : Z * option SyncServiceError * gmap string (list byte) :=
  match url_Parse uri with
  | None => (0, Some (Error "Invalid data URI"), disk)
  | Some dataURI =>
    if negb (EqualFold (Scheme dataURI) "file")
    then (0, Some (Error "Invalid data URI"), disk)
    else
      let filePath := Path dataURI +:+ ".tmp" in
      let file := default [] (disk !! filePath) in
      let written := len dataReader in
      let disk := <[filePath := writeAt file 0 dataReader]> disk in
      if negb (written =? dataLength) && negb (dataLength =? 0)
      then (0, Some (IOError "Failed to write all the data to file."), disk)
      else
        match Rename filePath (Path dataURI) disk with
        | (Some _, disk) => (0, Some (IOError "Failed to rename data file."), disk)
        | (None, disk) => (written, None, disk)
        end
  end.

(** The reader [GetData] returns is the open file. *)
Definition GetData (uri : string) (disk : gmap string (list byte))
    : option Reader * option SyncServiceError :=
  match url_Parse uri with
  | None => (None, Some (Error "Invalid data URI"))
  | Some dataURI =>
    if negb (EqualFold (Scheme dataURI) "file")
    then (None, Some (Error "Invalid data URI"))
    else
      match disk !! Path dataURI with
      | None => (None, Some (OpenError "Failed to open file to read data."))
      | Some file => (Some file, None)
      end
  end.

Definition DeleteStoredData (uri : string) (disk : gmap string (list byte))
    : option SyncServiceError * gmap string (list byte) :=
  match url_Parse uri with
  | None => (Some (Error "Invalid data URI"), disk)
  | Some dataURI =>
    if negb (EqualFold (Scheme dataURI) "file")
    then (Some (Error "Invalid data URI"), disk)
    else (None, delete (Path dataURI) disk)
  end.

End WithFiles.

End dataURI.

(** ** Package storage, continued: webhooks, messaging groups and
    organizations *)

Module collections.
Import common storage.

Record webhookObject := {
  whID : string;
  Hooks : list string;
  whLastUpdate : Z
}.

Record messagingGroupObject := {
  mgID : string;
  GroupName : string;
  mgLastUpdate : Z
}.

(** The store together with the webhooks and messaging-groups collections
    of its database. *)
Record Database := {
  mongo : MongoStorage;
  webhooks : gmap string webhookObject;
  messagingGroups : gmap string messagingGroupObject
}.

Definition with_mongo (s : MongoStorage) (db : Database) : Database :=
  {| mongo := s; webhooks := webhooks db; messagingGroups := messagingGroups db |}.

Definition with_webhooks (m : gmap string webhookObject) (db : Database) : Database :=
  {| mongo := mongo db; webhooks := m; messagingGroups := messagingGroups db |}.

Definition with_messagingGroups (m : gmap string messagingGroupObject) (db : Database)
    : Database :=
  {| mongo := mongo db; webhooks := webhooks db; messagingGroups := m |}.

(** An update of the webhooks collection with [$set] of the hooks and
    [$currentDate] of [last-update]. *)
Definition updateHooks (id : string) (lastUpdate : Z) (hooks : list string) (db : Database)
    : option mgoError * Database :=
  match update (webhooks db) id (fun d => whLastUpdate d =? lastUpdate)
          (fun d => {| whID := whID d; Hooks := hooks;
                       whLastUpdate := currentDate (mongo db) |}) with
  | inr m =>
    (None, with_mongo (with_serverTime (currentDate (mongo db)) (mongo db))
             (with_webhooks m db))
  | inl e => (Some e, db)
  end.

(** The retry loop of [AddWebhook], [tries] rounds left; [result] is the
    struct the rounds share. *)
Fixpoint addWebhookLoop (tries : nat) (id url : string) (result : webhookObject)
    (db : Database) : option SyncServiceError * Database :=
  match tries with
  | O => (Some (Error "Failed to add a webhook."), db)
  | S tries =>
    match fetchOne (webhooks db) id with
    | inl ErrNotFound =>
      let result := {| whID := id; Hooks := [] ++ [url];
                       whLastUpdate := whLastUpdate result |} in
      match insert_ (webhooks db) id result with
      | inl ErrDup => addWebhookLoop tries id url result db
      | inl _ => (Some (Error "Failed to insert a webhook."), db)
      | inr m => (None, with_webhooks m db)
      end
    | inl _ => (Some (Error "Failed to add a webhook."), db)
    | inr result =>
      if existsb (λ hook, bool_decide (url = hook)) (Hooks result)
      then (None, db)
      else
        let result := {| whID := whID result; Hooks := Hooks result ++ [url];
                         whLastUpdate := whLastUpdate result |} in
        match updateHooks id (whLastUpdate result) (Hooks result) db with
        | (Some ErrNotFound, db) => addWebhookLoop tries id url result db
        | (Some _, db) => (Some (Error "Failed to add a webhook."), db)
        | (None, db) => (None, db)
        end
    end
  end.

Definition AddWebhook (orgID objectType url : string) (db : Database)
    : option SyncServiceError * Database :=
  let id := orgID +:+ ":" +:+ objectType in
  addWebhookLoop maxUpdateTries id url {| whID := ""; Hooks := []; whLastUpdate := 0 |} db.





Definition RetrieveWebhooks (orgID objectType : string) (db : Database)
    : option (list string) * option storeError :=
  let id := orgID +:+ ":" +:+ objectType in
  match fetchOne (webhooks db) id with
  | inl err => (None, Some (DriverError err))
  | inr result =>
    if (length (Hooks result) =? 0)%nat then (None, Some (NotFound "No webhooks"))
    else (Some (Hooks result), None)
  end.

(** *** Messaging groups *)

Definition StoreOrgToMessagingGroup (orgID messagingGroup : string) (db : Database)
    : option SyncServiceError * Database :=
  let object := {| mgID := orgID; GroupName := messagingGroup; mgLastUpdate := 0 |} in
  match upsert (messagingGroups db) orgID (fun _ => true) object with
  | inl _ => (Some (Error "Failed to store organization's messaging group."), db)
  | inr m => (None, with_messagingGroups m db)
  end.

Definition messagingGroupField (d : messagingGroupObject) (field : string) : option value :=
  None.

Definition DeleteOrgToMessagingGroup (orgID : string) (db : Database)
    : option storeError * Database :=
  (None,
   with_messagingGroups
     (removeAll messagingGroupField (M [Is "_id" (VString orgID)]) (messagingGroups db)) db).

Definition RetrieveMessagingGroup (orgID : string) (db : Database)
    : string * option storeError :=
  match fetchOne (messagingGroups db) orgID with
  | inl ErrNotFound => ("", None)
  | inl err => ("", Some (DriverError err))
  | inr result => (GroupName result, None)
  end.

(** *** Organizations *)

Definition DeleteOrganization (orgID : string) (db : Database)
    : option storeError * Database :=
  match DeleteOrgToMessagingGroup orgID db with
  | (Some err, db) => (Some err, db)
  | (None, db) =>
    let store := mongo db in
    let store :=
      with_destinations
        (removeAll destinationField
           (M [Is "destination.destination-org-id" (VString orgID)]) (destinations store))
        store in
    let store :=
      with_notifications
        (removeAll notificationField
           (M [Is "notification.destination-org-id" (VString orgID)]) (notifications store))
        store in
    let store :=
      with_objects
        (removeAll objectField
           (M [Is "metadata.destination-org-id" (VString orgID)]) (objects store))
        store in
    (None, with_mongo store db)
  end.

End collections.

(** ** Package security: the dummy authentication *)

Module security.

(** [strings.Split(s, sep)] for a separator of one byte, as both calls of
    this package pass: the substrings of [s] between the separators, and
    [s] itself when it has none. *)
Fixpoint Split (s : string) (sep : Ascii.ascii) : list string :=
  match s with
  | String.EmptyString => [String.EmptyString]
  | String.String c s =>
    if Ascii.eqb c sep then String.EmptyString :: Split s sep
    else
      match Split s sep with
      | part :: parts => String.String c part :: parts
      | [] => [String.String c String.EmptyString]
      end
  end.

(** The number of bytes of [s] that are the separator, what
    [strings.Count(s, sep)] gives for a separator of one byte.  The package
    does not call it; the properties of [Authenticate] are stated with it. *)
Fixpoint Count (s : string) (sep : Ascii.ascii) : nat :=
  match s with
  | String.EmptyString => 0
  | String.String c s => if Ascii.eqb c sep then S (Count s sep) else Count s sep
  end.

(** The separators [Authenticate] splits at: the bytes of "/" and "@". *)
Definition slash : Ascii.ascii := Ascii.ascii_of_nat 47.
Definition at_sign : Ascii.ascii := Ascii.ascii_of_nat 64.

(** The parts put together again with the separator between them, as
    [strings.Join(parts, sep)] does; the inverse of [Split], used in the
    proofs only. *)
Fixpoint Join (parts : list string) (sep : string) : string :=
  match parts with
  | [] => ""
  | [part] => part
  | part :: parts => part +:+ sep +:+ Join parts sep
  end.

Record authInfo := {
  RegularUsers : list string;
  SyncAdmins : list string
}.

Record DummyAuthenticate := {
  regularUsers : list string;
  syncAdmins : list string
}.

(** An [*http.Request], as far as [Authenticate] reads it: the user name and
    password of its basic authentication header, if it has one. *)
Record Request := {
  BasicAuth : option (string * string)
}.

(** The part of [common.Configuration] this package reads. *)
Record Configuration := {
  OrgID : string;
  DestinationType : string;
  DestinationID : string
}.

(** [Start], given what opening and decoding the file of users gave: [None]
    when the file could not be opened, [Some None] when its contents are not
    the JSON of an [authInfo]. *)
Definition Start (authFile : option (option authInfo)) (auth : DummyAuthenticate)
    : DummyAuthenticate :=
  match authFile with
  | None => {| regularUsers := []; syncAdmins := syncAdmins auth |}
  | Some (Some info) =>
    {| regularUsers := RegularUsers info; syncAdmins := SyncAdmins info |}
  | Some None => {| regularUsers := []; syncAdmins := [] |}
  end.

Section WithConstants.

(** The result codes of [Authenticate] and [common.HTTPCSSURL], constants
    that are declared outside src/. *)
Variables AuthFailed AuthEdgeNode AuthAdmin AuthUser AuthSyncAdmin : Z.
Variable HTTPCSSURL : string.

Definition Authenticate (auth : DummyAuthenticate) (request : Request)
    : Z * string * string :=
  match BasicAuth request with
  | None => (AuthFailed, "", "")
  | Some (appKey, _) =>
    let parts := Split appKey slash in
    if (length parts =? 3)%nat
    then (AuthEdgeNode, parts !!! 0%nat, parts !!! 1%nat +:+ "/" +:+ parts !!! 2%nat)
    else
      let parts := Split appKey at_sign in
      if negb (length parts =? 2)%nat && negb (length parts =? 3)%nat
      then (AuthFailed, "", "")
      else
        let user :=
          if (length parts =? 2)%nat then parts !!! 0%nat
          else parts !!! 0%nat +:+ "@" +:+ parts !!! 1%nat in
        if existsb (λ regUser, bool_decide (regUser = user)) (regularUsers auth)
        then (AuthUser, parts !!! (length parts - 1)%nat, user)
        else
          if existsb (λ syncAdmin, bool_decide (syncAdmin = user)) (syncAdmins auth)
          then (AuthSyncAdmin, "", user)
          else (AuthAdmin, parts !!! (length parts - 1)%nat, user)
  end.

Definition KeyandSecretForURL (cfg : Configuration) (url : string) : string * string :=
  if String.prefix HTTPCSSURL url
  then (OrgID cfg +:+ "/" +:+ DestinationType cfg +:+ "/" +:+ DestinationID cfg, "")
  else ("", "").

End WithConstants.

End security.

(** * Sequences of calls *)

Module runs.
Import common storage.

(** A call of the leader election protocol that writes the leader
    document. *)
Inductive leaderCall :=
| CallInsertInitialLeader (leaderID : string)
| CallUpdateLeader (leaderID : string) (version : Z).

Definition leaderStep (cfg : Config) (store : MongoStorage) (c : leaderCall) : MongoStorage :=
  match c with
  | CallInsertInitialLeader leaderID => (InsertInitialLeader cfg leaderID store).2
  | CallUpdateLeader leaderID version => (UpdateLeader cfg leaderID version store).2
  end.

Definition leaderSteps (cfg : Config) (calls : list leaderCall) (store : MongoStorage)
    : MongoStorage :=
  foldl (leaderStep cfg) store calls.

(** A call of [AppendObjectData] for one object, and a sequence of such
    calls, each working on the store the previous one left; the results of
    the calls are collected in order. *)
Record chunkCall := {
  cReader : Reader;
  cLength : Z;
  cOffset : Z;
  cFirst : bool;
  cLast : bool
}.

Definition appendCall (orgID objectType objectID : string) (total : Z) (c : chunkCall)
    (store : MongoStorage) : option SyncServiceError * MongoStorage :=
  AppendObjectData orgID objectType objectID (cReader c) (cLength c) (cOffset c) total
    (cFirst c) (cLast c) store.

Fixpoint appendCalls (orgID objectType objectID : string) (total : Z)
    (calls : list chunkCall) (store : MongoStorage)
  : list (option SyncServiceError) * MongoStorage :=
  match calls with
  | [] => ([], store)
  | c :: calls =>
    let '(err, store) := appendCall orgID objectType objectID total c store in
    let '(errs, store) := appendCalls orgID objectType objectID total calls store in
    (err :: errs, store)
  end.

(** The bytes a call delivers, and the calls that arrive ahead of the
    offset of a handle: not flagged as first chunk, with a reader that
    delivers their data, at an offset beyond the handle's. *)
Definition chunkOf (c : chunkCall) : list byte :=
  match readChunk (cReader c) (cLength c) with
  | inr data => data
  | inl _ => []
  end.

Definition aheadOf (fh : fileHandle) (c : chunkCall) : Prop :=
  cFirst c = false
  ∧ offset fh < cOffset c
  ∧ readChunk (cReader c) (cLength c) = inr (chunkOf c).

(** The out-of-order map after the chunks of [calls] have been put into
    it. *)
Definition buffered (calls : list chunkCall) (m : gmap Z (list byte)) : gmap Z (list byte) :=
  foldl (λ m c, <[cOffset c := chunkOf c]> m) m calls.

(** The number of chunks in the out-of-order window of the handle open for
    the key, zero when no handle is open. *)
Definition window (id : string) (store : MongoStorage) : Z :=
  match openFiles store !! id with
  | Some p => lenChunks (deref p store)
  | None => 0
  end.

(** An object cut into the chunks [cs]: the offset of chunk [i], the call
    that uploads it, and the calls that upload the chunks in the order
    [order], the first call flagged as first chunk and the final call as
    last chunk. *)
Definition chunkOffset (cs : list (list byte)) (i : nat) : Z := len (concat (take i cs)).

Definition chunkCallOf (cs : list (list byte)) (first last : bool) (i : nat) : chunkCall :=
  {| cReader := cs !!! i; cLength := len (cs !!! i); cOffset := chunkOffset cs i;
     cFirst := first; cLast := last |}.

Fixpoint upload (cs : list (list byte)) (first : bool) (order : list nat) : list chunkCall :=
  match order with
  | [] => []
  | [i] => [chunkCallOf cs first true i]
  | i :: order => chunkCallOf cs first false i :: upload cs false order
  end.



(** Out-of-order calls: [n] one-byte chunks at offsets 10, 20, ... *)
Definition outOfOrderCalls (n : nat) : list chunkCall :=
  (λ i : nat, {| cReader := [x2a]; cLength := 1; cOffset := 10 * (Z.of_nat i + 1);
                 cFirst := false; cLast := false |}) <$> seq 0 n.

Definition firstCall : chunkCall :=
  {| cReader := [x41]; cLength := 1; cOffset := 0; cFirst := true; cLast := false |}.

(** The entry of a destination after [UpdateObjectDeliveryStatus] has set
    its message and status, as the loop over the destinations does for the
    entry it finds. *)
Definition deliver (status message : string) (d : StoreDestinationStatus)
    : StoreDestinationStatus :=
  let d :=
    if negb (bool_decide (message = "")) || bool_decide (Status d = common.Error)
    then {| Destination_ := Destination_ d; Status := Status d; Message := message |}
    else d in
  if negb (bool_decide (status = ""))
  then {| Destination_ := Destination_ d; Status := status; Message := Message d |}
  else d.

(** The entry is the one of destination [destType]/[destID]. *)
Definition isDestination (destType destID : string) (d : StoreDestinationStatus) : Prop :=
  dDestType (Destination_ d) = destType ∧ dDestID (Destination_ d) = destID.

Definition isConsumed (d : StoreDestinationStatus) : bool :=
  bool_decide (Status d = Consumed).

(** [n] calls of [DecrementAndReturnRemainingConsumers] for one object, one
    after the other, with the results of the calls in order. *)
Fixpoint decrements (orgID objectType objectID : string) (n : nat) (store : MongoStorage)
    : list (Z * option SyncServiceError) * MongoStorage :=
  match n with
  | O => ([], store)
  | S n =>
    let '(remaining, err, store) :=
      DecrementAndReturnRemainingConsumers orgID objectType objectID store in
    let '(results, store) := decrements orgID objectType objectID n store in
    ((remaining, err) :: results, store)
  end.

(** A sequence of calls of [dataURI.AppendData] for one URI, each working on
    the files the previous one left; the results of the calls are collected
    in order. *)
Fixpoint appendDataCalls (url_Parse : string → option dataURI.URL) (uri : string) (total : Z)
    (calls : list chunkCall) (disk : gmap string (list byte))
  : list (option dataURI.SyncServiceError) * gmap string (list byte) :=
  match calls with
  | [] => ([], disk)
  | c :: calls =>
    let '(err, disk) :=
      dataURI.AppendData url_Parse uri (cReader c) (cLength c) (cOffset c) total (cFirst c)
        (cLast c) disk in
    let '(errs, disk) := appendDataCalls url_Parse uri total calls disk in
    (err :: errs, disk)
  end.

(** The offset of chunk [i] of an object cut into the chunks [cs], as a
    position in a file, and a staging file that holds the bytes of the
    chunks with index in [R] at their offsets and is not longer than the
    object. *)
Definition chunkStart (cs : list (list byte)) (i : nat) : nat := length (concat (take i cs)).

Definition staged (cs : list (list byte)) (R : list nat) (t : list byte) : Prop :=
  (length t ≤ length (concat cs))%nat
  ∧ ∀ i c j b, i ∈ R → cs !! i = Some c → c !! j = Some b →
               t !! (chunkStart cs i + j)%nat = Some b.

(** The conditions [RetrieveObjects] tests on an object it fetched for the
    destination [destType]/[destID] of the organization [orgID]: the query
    (the object is of the organization and ReadyToSend or NotReadyToSend),
    the destination filter of the meta data, and whether the object is
    delivered now; and the destinations list it stores for the object. *)
Definition fetchedFor (orgID : string) (o : object) : bool :=
  bool_decide (DestOrgID (MetaData_ o) = orgID)
  && (bool_decide (Status_ o = ReadyToSend) || bool_decide (Status_ o = NotReadyToSend)).

Definition wantedBy (destType destID : string) (o : object) : bool :=
  (bool_decide (DestType (MetaData_ o) = "")
   || bool_decide (DestType (MetaData_ o) = destType))
  && (bool_decide (DestID (MetaData_ o) = "")
      || bool_decide (DestID (MetaData_ o) = destID)).

Definition sendable (o : object) : bool :=
  bool_decide (Status_ o = ReadyToSend) && negb (Inactive (MetaData_ o)).

Definition addDestination (dest : Destination) (o : object) : list StoreDestinationStatus :=
  Destinations o
  ++ [{| Destination_ := dest; Status := if sendable o then Delivering else Pending;
         Message := "" |}].

(** Every object document is stored under the object key of its meta
    data, as [StoreObject] stores it. *)
Definition keyed (store : MongoStorage) : Prop :=
  ∀ k o, objects store !! k = Some o → k = getObjectCollectionID (MetaData_ o).

End runs.

(** * Example data *)

Module examples.
Import common storage runs.

(** A [url.Parse] for the URIs of the file backend, [file://<absolute path>];
    any other string is a parse error. *)
Definition parseFileURI (uri : string) : option dataURI.URL :=
  if String.prefix "file://" uri
  then Some {| dataURI.Scheme := "file";
               dataURI.Path := String.substring 7 (String.length uri - 7) uri |}
  else None.

Definition emptyStore : MongoStorage :=
  {| openFiles := ∅; handles := ∅; gridfs := ∅; objects := ∅; destinations := ∅;
     notifications := ∅; leader := ∅; serverTime := 0 |}.

(** The store after the first chunk of an upload, one byte at offset 0: the
    handle of the upload is open and its offset is 1. *)
Definition uploadingStore : MongoStorage :=
  (appendCall "O" "T" "X" 2000 firstCall emptyStore).2.

Definition uploadingHandle : fileHandle :=
  {| file := {| Id := "O:T:X"; content := [x41] |}; offset := 1; chunks := None |}.

(** The twelve bytes A to L of the upload scenario of the spec, in three
    chunks of four. *)
Definition exampleChunks : list (list byte) :=
  [[x41; x42; x43; x44]; [x45; x46; x47; x48]; [x49; x4a; x4b; x4c]].

(** A configuration, and the store after node A has bootstrapped the leader
    document. *)
Definition exampleConfig : Config := {| LeadershipTimeout := 30; ResendInterval := 5 |}.

Definition leaderStore : MongoStorage :=
  (InsertInitialLeader exampleConfig "A" emptyStore).2.

Definition leaderDocumentA : leaderDocument :=
  {| ldID := 1; UUID := "A"; LastHeartbeatTS := 0; HeartbeatTimeout := 30; Version := 1 |}.

(** A notification of destination O/T/D whose status is Data. *)
Definition dataNotification : Notification :=
  {| nObjectID := "X"; nObjectType := "T1"; nDestOrgID := "O"; nDestID := "D";
     nDestType := "T"; nStatus := Data; nInstanceID := 1; ResendTime := 30 |}.

Definition dataNotificationStore : MongoStorage :=
  {| openFiles := ∅; handles := ∅; gridfs := ∅; objects := ∅; destinations := ∅;
     notifications :=
       {[ "O:T1:X:T:D" := {| noID := "O:T1:X:T:D"; Notification_ := dataNotification |} ]};
     leader := ∅; serverTime := 0 |}.

(** [t.Format(time.RFC3339)] in the UTC zone, for a time [t] in nanoseconds
    since the epoch that is not before the epoch. *)
Definition digit (n : Z) : string :=
  String.String (Ascii.ascii_of_nat (48 + Z.to_nat (n mod 10))) String.EmptyString.

Definition pad2 (n : Z) : string := digit (n / 10) +:+ digit n.

Definition pad4 (n : Z) : string := pad2 (n / 100) +:+ pad2 n.

Definition utcRFC3339 (t : Z) : string :=
  let secs := t / 10 ^ 9 in
  let days := secs / 86400 in
  let rest := secs mod 86400 in
  let z := days + 719468 in
  let era := z / 146097 in
  let doe := z - era * 146097 in
  let yoe := (doe - doe / 1460 + doe / 36524 - doe / 146096) / 365 in
  let doy := doe - (365 * yoe + yoe / 4 - yoe / 100) in
  let mp := (5 * doy + 2) / 153 in
  let d := doy - (153 * mp + 2) / 5 + 1 in
  let m := if mp <? 10 then mp + 3 else mp - 9 in
  let y := yoe + era * 400 + (if m <=? 2 then 1 else 0) in
  pad4 y +:+ "-" +:+ pad2 m +:+ "-" +:+ pad2 d +:+ "T"
  +:+ pad2 (rest / 3600) +:+ ":" +:+ pad2 (rest mod 3600 / 60) +:+ ":" +:+ pad2 (rest mod 60)
  +:+ "Z".

(** An object with [autoDelete] set, no expiration and two destinations,
    both pending. *)
Definition destination1 : StoreDestinationStatus :=
  {| Destination_ := {| dDestOrgID := "O"; dDestType := "T"; dDestID := "D1";
                        Communication := "http" |};
     Status := Pending; Message := "" |}.

Definition destination2 : StoreDestinationStatus :=
  {| Destination_ := {| dDestOrgID := "O"; dDestType := "T"; dDestID := "D2";
                        Communication := "http" |};
     Status := Pending; Message := "" |}.

Definition autoDeleteMetaData : MetaData :=
  {| ObjectID := "X"; ObjectType := "T1"; DestOrgID := "O"; DestID := ""; DestType := "";
     ExpectedConsumers := 2; Inactive := false; NoData := false; MetaOnly := false;
     AutoDelete := true; ActivationTime := ""; Expiration := ""; ObjectSize := 3;
     InstanceID := 1; Deleted_ := false |}.

Definition autoDeleteObject : object :=
  {| ID := "O:T1:X"; MetaData_ := autoDeleteMetaData; Status_ := ReadyToSend;
     RemainingConsumers := 2; RemainingReceivers := 2;
     Destinations := [destination1; destination2]; LastUpdate := 5 |}.

Definition autoDeleteStore : MongoStorage :=
  {| openFiles := ∅; handles := ∅; gridfs := ∅; objects := {[ "O:T1:X" := autoDeleteObject ]};
     destinations := ∅; notifications := ∅; leader := ∅; serverTime := 5 |}.

(** A two-byte file on the host and the same blob in the database. *)
Definition blobDisk : gmap string (list byte) := {[ "/data/O/T/X" := [x41; x42] ]}.

Definition blobStore : MongoStorage :=
  {| openFiles := ∅; handles := ∅; gridfs := {[ "O:T:X" := [x41; x42] ]}; objects := ∅;
     destinations := ∅; notifications := ∅; leader := ∅; serverTime := 0 |}.

(** A notification of destination O/T/D that has not been scheduled yet:
    its status is Update and its resend time is zero. *)
Definition updateNotification : Notification :=
  {| nObjectID := "X"; nObjectType := "T1"; nDestOrgID := "O"; nDestID := "D";
     nDestType := "T"; nStatus := Update; nInstanceID := 1; ResendTime := 0 |}.

(** The users of the dummy authentication, and the configuration of an edge
    node. *)
Definition exampleAuth : security.DummyAuthenticate :=
  {| security.regularUsers := ["ann@example.com"]; security.syncAdmins := ["root"] |}.

Definition exampleConfiguration : security.Configuration :=
  {| security.OrgID := "myorg"; security.DestinationType := "edge";
     security.DestinationID := "node1" |}.


End examples.

(** * Properties *)

Import common storage runs examples.

(** ** Integers that fit *)

Lemma wrap64_small z : - 2 ^ 63 ≤ z ≤ maxInt64 → wrap64 z = z.
Proof.
  unfold wrap64, maxInt64. intros Hz.
  rewrite Z.mod_small by lia. lia.
Qed.

Lemma len_nonneg {A} (l : list A) : 0 ≤ len l.
Proof. unfold len. lia. Qed.


(** ** Updates of a collection *)

Lemma updateObjects_Some id filter mutation store o :
  objects store !! id = Some o →
  filter o = true →
  updateObjects id filter mutation store =
    (None, with_serverTime (currentDate store)
             (with_objects (<[id := mutation (currentDate store) o]> (objects store)) store)).
Proof.
  intros Ho Hf. unfold updateObjects, update. by rewrite Ho, Hf.
Qed.

Lemma updateObjects_None id filter mutation store :
  objects store !! id = None →
  updateObjects id filter mutation store = (Some ErrNotFound, store).
Proof.
  intros Ho. unfold updateObjects, update. by rewrite Ho.
Qed.

(** ** Delivery status *)

Section DeliveryStatus.

Variable RFC3339 : Z → string.

(** C10.  With an empty status and an empty message
    [UpdateObjectDeliveryStatus] returns nil at once and the store it
    returns is the store it was given: nothing is fetched or updated,
    whether or not the object or the destination exists. *)
Theorem UpdateObjectDeliveryStatus_empty_is_noop
    (orgID objectType objectID destType destID : string) (now : Z) (store : MongoStorage) :
  UpdateObjectDeliveryStatus RFC3339 "" "" orgID objectType objectID destType destID now store
  = (None, store).
Proof. reflexivity. Qed.

End DeliveryStatus.

(** ** The consumer and receiver counters *)

Lemma StoreObject_stored metaData data status now store store' :
  StoreObject metaData data status now store = (None, store') →
  ∃ o, objects store' !! getObjectCollectionID metaData = Some o
       ∧ Status_ o = status
       ∧ RemainingConsumers o = ExpectedConsumers metaData
       ∧ RemainingReceivers o = ExpectedConsumers metaData.
Proof.
  unfold StoreObject. intros H.
  destruct data as [data|]; simpl in H.
  all: repeat case_match; simplify_eq/=.
  all: unfold upsert in *; repeat case_match; simplify_eq/=.
  all: rewrite lookup_insert_eq; eauto.
Qed.

Lemma ResetObjectRemainingConsumers_spec orgID objectType objectID store o :
  objects store !! createObjectCollectionID orgID objectType objectID = Some o →
  ∃ store',
    ResetObjectRemainingConsumers orgID objectType objectID store = (None, store')
    ∧ objects store' !! createObjectCollectionID orgID objectType objectID
      = Some (setLastUpdate (currentDate store)
                (setRemainingConsumers (ExpectedConsumers (MetaData_ o)) o)).
Proof.
  intros Ho. unfold ResetObjectRemainingConsumers, fetchOne. rewrite Ho.
  erewrite updateObjects_Some by done.
  eexists; split; [done|]. simpl. by rewrite lookup_insert_eq.
Qed.

(** C9.  A successful [StoreObject] writes the object document with both
    [remainingConsumers] and [remainingReceivers] equal to
    [metadata.expectedConsumers]; [ResetObjectRemainingConsumers] on a stored
    object succeeds, sets [remainingConsumers] to the stored
    [metadata.expectedConsumers] and leaves [remainingReceivers] (and the
    meta data, status and destinations) as they were. *)
Theorem counters_StoreObject_and_Reset
    (metaData : MetaData) (data : option (list byte)) (status : string) (now : Z)
    (store store1 : MongoStorage)
    (orgID objectType objectID : string) (store2 : MongoStorage) (o : object) :
  StoreObject metaData data status now store = (None, store1) →
  objects store2 !! createObjectCollectionID orgID objectType objectID = Some o →
  (∃ o1, objects store1 !! getObjectCollectionID metaData = Some o1
         ∧ RemainingReceivers o1 = ExpectedConsumers metaData
         ∧ RemainingConsumers o1 = RemainingReceivers o1)
  ∧ (∃ store3 o3,
        ResetObjectRemainingConsumers orgID objectType objectID store2 = (None, store3)
        ∧ objects store3 !! createObjectCollectionID orgID objectType objectID = Some o3
        ∧ RemainingConsumers o3 = ExpectedConsumers (MetaData_ o)
        ∧ RemainingReceivers o3 = RemainingReceivers o
        ∧ MetaData_ o3 = MetaData_ o
        ∧ Status_ o3 = Status_ o
        ∧ Destinations o3 = Destinations o).
Proof.
  intros Hstore Ho. split.
  - destruct (StoreObject_stored _ _ _ _ _ _ Hstore) as (o1 & H1 & _ & Hc & Hr).
    exists o1. by rewrite Hr, Hc.
  - destruct (ResetObjectRemainingConsumers_spec _ _ _ _ _ Ho) as (store3 & Hr & H3).
    eexists store3, _. split; [exact Hr|]. split; [exact H3|]. done.
Qed.

(** Both parts at example data: an object stored with two expected
    consumers, and a reset of the example object. *)
Lemma counters_StoreObject_and_Reset_witness :
  (∃ o1, objects (StoreObject autoDeleteMetaData None ReadyToSend 9 emptyStore).2 !! "O:T1:X"
         = Some o1
         ∧ RemainingReceivers o1 = 2
         ∧ RemainingConsumers o1 = RemainingReceivers o1)
  ∧ (∃ store3 o3,
       ResetObjectRemainingConsumers "O" "T1" "X" autoDeleteStore = (None, store3)
       ∧ objects store3 !! "O:T1:X" = Some o3
       ∧ RemainingConsumers o3 = 2
       ∧ RemainingReceivers o3 = 2
       ∧ MetaData_ o3 = autoDeleteMetaData
       ∧ Status_ o3 = ReadyToSend
       ∧ Destinations o3 = [destination1; destination2]).
Proof.
  apply (counters_StoreObject_and_Reset autoDeleteMetaData None ReadyToSend 9 emptyStore
           (StoreObject autoDeleteMetaData None ReadyToSend 9 emptyStore).2
           "O" "T1" "X" autoDeleteStore autoDeleteObject).
  - reflexivity.
  - reflexivity.
Defined.

(** ** StoreObjectData *)

Lemma StoreObjectData_absent orgID objectType objectID dataReader now store :
  objects store !! createObjectCollectionID orgID objectType objectID = None →
  StoreObjectData orgID objectType objectID dataReader now store = (false, None, store).
Proof.
  intros Ho. unfold StoreObjectData, fetchOne. by rewrite Ho.
Qed.

Lemma StoreObjectData_present orgID objectType objectID dataReader now store o :
  objects store !! createObjectCollectionID orgID objectType objectID = Some o →
  ∃ store' o',
    StoreObjectData orgID objectType objectID dataReader now store = (true, None, store')
    ∧ gridfs store' !! createObjectCollectionID orgID objectType objectID = Some dataReader
    ∧ objects store' !! createObjectCollectionID orgID objectType objectID = Some o'
    ∧ ObjectSize (MetaData_ o') = len dataReader
    ∧ (Status_ o = NotReadyToSend → Status_ o' = ReadyToSend)
    ∧ (Status_ o = ReadyToSend →
       Status_ o' = ReadyToSend ∧ InstanceID (MetaData_ o') = now)
    ∧ (Status_ o ≠ NotReadyToSend → Status_ o ≠ ReadyToSend →
       Status_ o' = Status_ o ∧ InstanceID (MetaData_ o') = InstanceID (MetaData_ o)).
Proof.
  intros Ho. unfold StoreObjectData, fetchOne. rewrite Ho.
  destruct (decide (Status_ o = NotReadyToSend)) as [Hn|Hn].
  - rewrite bool_decide_eq_true_2 by done.
    unfold UpdateObjectStatus. erewrite updateObjects_Some by done. simpl.
    erewrite updateObjects_Some; [|simpl; apply lookup_insert_eq|done].
    eexists _, _. split; [done|]. simpl. rewrite !lookup_insert_eq.
    repeat split; try done.
    rewrite Hn in *. discriminate.
  - rewrite bool_decide_eq_false_2 by done.
    destruct (decide (Status_ o = ReadyToSend)) as [Hr|Hr].
    + rewrite bool_decide_eq_true_2 by done.
      erewrite updateObjects_Some by done. simpl.
      erewrite updateObjects_Some; [|simpl; apply lookup_insert_eq|done].
      eexists _, _. split; [done|]. simpl. rewrite !lookup_insert_eq.
      repeat split; try done.
    + rewrite bool_decide_eq_false_2 by done. simpl.
      erewrite updateObjects_Some by done.
      eexists _, _. split; [done|]. simpl. rewrite !lookup_insert_eq.
      repeat split; try done.
Qed.

(** C5.  [StoreObjectData] on a key without an object returns
    [updated = false] and no error and leaves the store as it was.  On a
    stored object it returns [updated = true] and no error, the payload under
    the key is the data of the reader, [metadata.object-size] is the number
    of bytes written, an object that was NotReadyToSend is ReadyToSend, and
    an object that was ReadyToSend has the current time in nanoseconds as its
    new [instanceID]. *)
Theorem StoreObjectData_spec
    (orgID objectType objectID : string) (dataReader : Reader) (now : Z)
    (store : MongoStorage) :
  (objects store !! createObjectCollectionID orgID objectType objectID = None →
   StoreObjectData orgID objectType objectID dataReader now store = (false, None, store))
  ∧ (∀ o, objects store !! createObjectCollectionID orgID objectType objectID = Some o →
     ∃ store' o',
       StoreObjectData orgID objectType objectID dataReader now store = (true, None, store')
       ∧ gridfs store' !! createObjectCollectionID orgID objectType objectID = Some dataReader
       ∧ objects store' !! createObjectCollectionID orgID objectType objectID = Some o'
       ∧ ObjectSize (MetaData_ o') = len dataReader
       ∧ (Status_ o = NotReadyToSend → Status_ o' = ReadyToSend)
       ∧ (Status_ o = ReadyToSend →
          Status_ o' = ReadyToSend ∧ InstanceID (MetaData_ o') = now)).
Proof.
  split.
  - apply StoreObjectData_absent.
  - intros o Ho.
    destruct (StoreObjectData_present _ _ _ dataReader now _ _ Ho)
      as (store' & o' & H1 & H2 & H3 & H4 & H5 & H6 & _).
    by exists store', o'.
Qed.

(** The example object is ReadyToSend: new data gives it a new instance
    id. *)
Lemma StoreObjectData_spec_witness :
  ∃ store' o',
    StoreObjectData "O" "T1" "X" [x01; x02] 77 autoDeleteStore = (true, None, store')
    ∧ gridfs store' !! "O:T1:X" = Some [x01; x02]
    ∧ objects store' !! "O:T1:X" = Some o'
    ∧ ObjectSize (MetaData_ o') = 2
    ∧ (Status_ autoDeleteObject = NotReadyToSend → Status_ o' = ReadyToSend)
    ∧ (Status_ autoDeleteObject = ReadyToSend →
       Status_ o' = ReadyToSend ∧ InstanceID (MetaData_ o') = 77).
Proof.
  apply (proj2 (StoreObjectData_spec "O" "T1" "X" [x01; x02] 77 autoDeleteStore)
           autoDeleteObject).
  reflexivity.
Defined.

(** ** Leader election *)


Lemma UpdateLeader_match cfg leaderID version store d :
  leader store !! 1 = Some d →
  Version d = version →
  UpdateLeader cfg leaderID version store =
    (true, None,
     with_serverTime (currentDate store)
       (with_leader
          (<[1 := {| ldID := ldID d; UUID := leaderID; LastHeartbeatTS := currentDate store;
                     HeartbeatTimeout := LeadershipTimeout cfg;
                     Version := wrap64 (version + 1) |}]> (leader store)) store)).
Proof.
  intros Hd Hv. unfold UpdateLeader, updateLeader, update. rewrite Hd.
  by rewrite (proj2 (Z.eqb_eq _ _) Hv).
Qed.

Lemma UpdateLeader_mismatch cfg leaderID version store d :
  leader store !! 1 = Some d →
  Version d ≠ version →
  UpdateLeader cfg leaderID version store = (false, None, store).
Proof.
  intros Hd Hv. unfold UpdateLeader, updateLeader, update. rewrite Hd.
  by rewrite (proj2 (Z.eqb_neq _ _) Hv).
Qed.

Lemma UpdateLeader_absent cfg leaderID version store :
  leader store !! 1 = None →
  UpdateLeader cfg leaderID version store = (false, None, store).
Proof.
  intros Hd. unfold UpdateLeader, updateLeader, update. by rewrite Hd.
Qed.

Lemma InsertInitialLeader_taken cfg leaderID store d :
  leader store !! 1 = Some d →
  InsertInitialLeader cfg leaderID store = (false, None, store).
Proof.
  intros Hd. unfold InsertInitialLeader, insert_. by rewrite Hd.
Qed.

Lemma InsertInitialLeader_bootstrap cfg leaderID store :
  leader store !! 1 = None →
  ∃ store', InsertInitialLeader cfg leaderID store = (true, None, store')
            ∧ Version <$> leader store' !! 1 = Some 1.
Proof.
  intros Hd. unfold InsertInitialLeader, insert_. rewrite Hd.
  eexists; split; [done|]. simpl. by rewrite lookup_insert_eq.
Qed.

Lemma leaderStep_version cfg c store d :
  leader store !! 1 = Some d →
  - 2 ^ 63 ≤ Version d < maxInt64 →
  ∃ d', leader (leaderStep cfg store c) !! 1 = Some d'
        ∧ Version d ≤ Version d' ≤ Version d + 1.
Proof.
  intros Hd Hr. destruct c as [leaderID|leaderID version]; simpl.
  - rewrite (InsertInitialLeader_taken _ _ _ _ Hd). simpl. exists d. split; [done|lia].
  - destruct (decide (Version d = version)) as [Hv|Hv].
    + rewrite (UpdateLeader_match _ _ _ _ _ Hd Hv). simpl.
      rewrite lookup_insert_eq. eexists; split; [done|]. simpl.
      rewrite wrap64_small by (unfold maxInt64 in *; lia). lia.
    + rewrite (UpdateLeader_mismatch _ _ _ _ _ Hd Hv). simpl.
      exists d. split; [done|lia].
Qed.

Lemma leaderSteps_version cfg calls : ∀ store d,
  leader store !! 1 = Some d →
  - 2 ^ 63 ≤ Version d →
  Version d + len calls ≤ maxInt64 →
  ∃ d', leader (leaderSteps cfg calls store) !! 1 = Some d'
        ∧ Version d ≤ Version d' ≤ Version d + len calls.
Proof.
  unfold leaderSteps. induction calls as [|c calls IH]; intros store d Hd Hlo Hhi.
  - exists d. split; [done|]. unfold len; simpl. lia.
  - unfold len in *. simpl length in *. simpl foldl.
    destruct (leaderStep_version cfg c store d Hd) as (d1 & Hd1 & Hv1); [lia|].
    destruct (IH _ d1 Hd1) as (d' & Hd' & Hv'); [lia..|].
    exists d'. split; [done|]. lia.
Qed.

(** C4.  On a leader document whose [version] is a valid [int64],
    [UpdateLeader(uuid, observedVersion)] updates the document only when the
    stored version equals [observedVersion]: it then sets [uuid], stores a
    fresh server timestamp in [lastHeartbeatTS], sets [heartbeatTimeout]
    from the configuration and sets [version] to [observedVersion + 1], and
    returns [true] and no error; otherwise it returns [false] and no error
    and the store is as it was.  Over any sequence of [InsertInitialLeader]
    and [UpdateLeader] calls that does not run the counter past the largest
    [int64], the version of the leader document never decreases. *)
Theorem UpdateLeader_versioned_takeover
    (cfg : Config) (leaderID : string) (version : Z) (store : MongoStorage)
    (d : leaderDocument) (calls1 calls2 : list leaderCall) :
  leader store !! 1 = Some d →
  - 2 ^ 63 ≤ Version d →
  Version d + len calls1 + len calls2 ≤ maxInt64 →
  (Version d = version →
   ∃ store',
     UpdateLeader cfg leaderID version store = (true, None, store')
     ∧ leader store' !! 1 =
         Some {| ldID := ldID d; UUID := leaderID; LastHeartbeatTS := currentDate store;
                 HeartbeatTimeout := LeadershipTimeout cfg;
                 Version := wrap64 (version + 1) |}
     ∧ serverTime store < currentDate store
     ∧ (version < maxInt64 → wrap64 (version + 1) = version + 1))
  ∧ (Version d ≠ version →
     UpdateLeader cfg leaderID version store = (false, None, store))
  ∧ (∃ d1 d2,
       leader (leaderSteps cfg calls1 store) !! 1 = Some d1
       ∧ leader (leaderSteps cfg calls2 (leaderSteps cfg calls1 store)) !! 1 = Some d2
       ∧ Version d ≤ Version d1 ∧ Version d1 ≤ Version d2).
Proof.
  intros Hd Hlo Hhi.
  pose proof (len_nonneg calls1). pose proof (len_nonneg calls2).
  split; [|split].
  - intros Hv. eexists. split; [by apply UpdateLeader_match|]. simpl.
    rewrite lookup_insert_eq. split; [done|]. split; [unfold currentDate; lia|].
    intros Hmax. apply wrap64_small. unfold maxInt64 in *. lia.
  - by apply UpdateLeader_mismatch.
  - destruct (leaderSteps_version cfg calls1 store d Hd) as (d1 & Hd1 & Hv1); [lia..|].
    destruct (leaderSteps_version cfg calls2 _ d1 Hd1) as (d2 & Hd2 & Hv2); [lia..|].
    exists d1, d2. repeat split; try done; lia.
Qed.

(** Scenario 5 of the spec: node B takes the lease over from node A at
    version 1. *)
Lemma UpdateLeader_versioned_takeover_witness :
  ∃ store',
    UpdateLeader exampleConfig "B" 1 leaderStore = (true, None, store')
    ∧ leader store' !! 1
      = Some {| ldID := 1; UUID := "B"; LastHeartbeatTS := 1; HeartbeatTimeout := 30;
                Version := 2 |}.
Proof.
  destruct (UpdateLeader_versioned_takeover exampleConfig "B" 1 leaderStore leaderDocumentA
              [CallUpdateLeader "B" 1] [CallInsertInitialLeader "C"; CallUpdateLeader "C" 2])
    as (Htake & _ & _).
  - reflexivity.
  - simpl. lia.
  - vm_compute. discriminate.
  - destruct (Htake eq_refl) as (store' & Hrun & Hdoc & _).
    exists store'. split; [exact Hrun|]. rewrite Hdoc. reflexivity.
Defined.

(** ** Notifications *)

Lemma fetchAll_elem q store d :
  d ∈ fetchAll q store ↔
  matches (notificationField d) q = true ∧ ∃ id, notifications store !! id = Some d.
Proof.
  unfold fetchAll. rewrite list_elem_of_filter, list_elem_of_fmap.
  split.
  - intros [Hm ([id d'] & -> & Hin)]. split; [done|].
    exists id. by apply elem_of_map_to_list.
  - intros [Hm [id Hid]]. split; [done|].
    exists (id, d). split; [done|]. by apply elem_of_map_to_list.
Qed.

Lemma field_status d :
  notificationField d "notification.status" = Some (VString (nStatus (Notification_ d))).
Proof. reflexivity. Qed.

Lemma field_resend_time d :
  notificationField d "notification.resend-time" = Some (VInt (ResendTime (Notification_ d))).
Proof. reflexivity. Qed.

Lemma field_dest_org d :
  notificationField d "notification.destination-org-id"
  = Some (VString (nDestOrgID (Notification_ d))).
Proof. reflexivity. Qed.

Lemma field_dest_id d :
  notificationField d "notification.destination-id"
  = Some (VString (nDestID (Notification_ d))).
Proof. reflexivity. Qed.

Lemma field_dest_type d :
  notificationField d "notification.destination-type"
  = Some (VString (nDestType (Notification_ d))).
Proof. reflexivity. Qed.

Lemma Is_string_true (doc : string → option value) field s t :
  doc field = Some (VString s) →
  bool_decide (doc field = Some (VString t)) = true ↔ s = t.
Proof.
  intros ->. rewrite bool_decide_eq_true. split; [by intros [= ->]|by intros ->].
Qed.

Lemma Is_status d t :
  bool_decide (notificationField d "notification.status" = Some (VString t)) = true
  ↔ nStatus (Notification_ d) = t.
Proof. by apply Is_string_true. Qed.

Lemma Is_dest_org d t :
  bool_decide (notificationField d "notification.destination-org-id" = Some (VString t)) = true
  ↔ nDestOrgID (Notification_ d) = t.
Proof. by apply Is_string_true. Qed.

Lemma Is_dest_id d t :
  bool_decide (notificationField d "notification.destination-id" = Some (VString t)) = true
  ↔ nDestID (Notification_ d) = t.
Proof. by apply Is_string_true. Qed.

Lemma Is_dest_type d t :
  bool_decide (notificationField d "notification.destination-type" = Some (VString t)) = true
  ↔ nDestType (Notification_ d) = t.
Proof. by apply Is_string_true. Qed.

(** Turns the evaluation of a filter on a document into the proposition it
    decides. *)
Ltac query_to_prop :=
  cbn [matches existsb forallb];
  rewrite ?field_resend_time;
  rewrite ?orb_false_r, ?andb_true_r;
  repeat (rewrite orb_true_iff || rewrite andb_true_iff);
  rewrite ?Is_status, ?Is_dest_org, ?Is_dest_id, ?Is_dest_type, ?Z.leb_le;
  rewrite ?elem_of_cons, ?elem_of_nil.

Lemma RetrieveNotifications_any_destination orgID retrieveReceived nowUnix store n :
  n ∈ (RetrieveNotifications orgID "" "" retrieveReceived nowUnix store).1 ↔
  (∃ id d, notifications store !! id = Some d ∧ Notification_ d = n)
  ∧ (nStatus n = Getdata
     ∨ ResendTime n ≤ nowUnix
       ∧ nStatus n ∈ [Update; Received; Consumed; Data; Delete; Deleted]).
Proof.
  unfold RetrieveNotifications. cbn [fst].
  rewrite list_elem_of_fmap. setoid_rewrite fetchAll_elem.
  rewrite !bool_decide_eq_true_2 by done. cbn [andb].
  split.
  - intros (d & -> & Hm & id & Hid). split; [by exists id, d|].
    revert Hm. query_to_prop. tauto.
  - intros [(id & d & Hid & <-) Hc]. exists d. split; [done|]. split; [|by exists id].
    revert Hc. query_to_prop. tauto.
Qed.

Lemma RetrieveNotifications_destination orgID destType destID retrieveReceived nowUnix store n :
  destType ≠ "" ∨ destID ≠ "" →
  n ∈ (RetrieveNotifications orgID destType destID retrieveReceived nowUnix store).1 ↔
  (∃ id d, notifications store !! id = Some d ∧ Notification_ d = n)
  ∧ nDestOrgID n = orgID ∧ nDestType n = destType ∧ nDestID n = destID
  ∧ (nStatus n ∈ [Update; Received; Consumed; Getdata; Delete; Deleted]
     ∨ retrieveReceived = true ∧ nStatus n ∈ [Data; ReceivedByDestination]).
Proof.
  intros Hgiven. unfold RetrieveNotifications. cbn [fst].
  rewrite list_elem_of_fmap. setoid_rewrite fetchAll_elem.
  assert (bool_decide (destType = "") && bool_decide (destID = "") = false) as ->.
  { apply andb_false_iff. rewrite !bool_decide_eq_false. tauto. }
  destruct retrieveReceived.
  - split.
    + intros (d & -> & Hm & id & Hid). split; [by exists id, d|].
      revert Hm. query_to_prop. tauto.
    + intros [(id & d & Hid & <-) Hc]. exists d. split; [done|]. split; [|by exists id].
      revert Hc. query_to_prop. tauto.
  - split.
    + intros (d & -> & Hm & id & Hid). split; [by exists id, d|].
      revert Hm. query_to_prop. tauto.
    + intros [(id & d & Hid & <-) Hc]. exists d. split; [done|]. split; [|by exists id].
      revert Hc. query_to_prop. intuition congruence.
Qed.


(** C7, as the claim states it, fails: a notification of the destination
    whose status is Data is not returned when [retrieveReceived] is false. *)
Lemma RetrieveNotifications_omits_Data :
  notifications dataNotificationStore !! "O:T1:X:T:D"
    = Some {| noID := "O:T1:X:T:D"; Notification_ := dataNotification |}
  ∧ nDestOrgID dataNotification = "O"
  ∧ nDestType dataNotification = "T"
  ∧ nDestID dataNotification = "D"
  ∧ nStatus dataNotification ∈ [Update; Received; Consumed; Getdata; Data; Delete; Deleted]
  ∧ RetrieveNotifications "O" "T" "D" false 100 dataNotificationStore = ([], None).
Proof.
  repeat split; try reflexivity.
  rewrite !elem_of_cons. tauto.
Qed.

(** C7, amended.  With a destination given (type or id not empty)
    [RetrieveNotifications] returns exactly the stored notifications of that
    destination whose status is Update, Received, Consumed, Getdata, Delete
    or Deleted, and, when [retrieveReceived] is true, also those whose
    status is Data or ReceivedByDestination.  With no destination given it
    returns exactly the stored notifications whose status is Getdata, or
    whose resend time is at most now and whose status is Update, Received,
    Consumed, Data, Delete or Deleted.  No error is returned. *)
Theorem RetrieveNotifications_spec
    (orgID destType destID : string) (retrieveReceived : bool) (nowUnix : Z)
    (store : MongoStorage) (n : Notification) :
  (destType ≠ "" ∨ destID ≠ "" →
   n ∈ (RetrieveNotifications orgID destType destID retrieveReceived nowUnix store).1 ↔
   (∃ id d, notifications store !! id = Some d ∧ Notification_ d = n)
   ∧ nDestOrgID n = orgID ∧ nDestType n = destType ∧ nDestID n = destID
   ∧ (nStatus n ∈ [Update; Received; Consumed; Getdata; Delete; Deleted]
      ∨ retrieveReceived = true ∧ nStatus n ∈ [Data; ReceivedByDestination]))
  ∧ (destType = "" ∧ destID = "" →
     n ∈ (RetrieveNotifications orgID destType destID retrieveReceived nowUnix store).1 ↔
     (∃ id d, notifications store !! id = Some d ∧ Notification_ d = n)
     ∧ (nStatus n = Getdata
        ∨ ResendTime n ≤ nowUnix
          ∧ nStatus n ∈ [Update; Received; Consumed; Data; Delete; Deleted]))
  ∧ (RetrieveNotifications orgID destType destID retrieveReceived nowUnix store).2 = None.
Proof.
  split; [|split].
  - apply RetrieveNotifications_destination.
  - intros [-> ->]. apply RetrieveNotifications_any_destination.
  - reflexivity.
Qed.

(** The amended statement at the example store: with [retrieveReceived] the
    Data notification is returned. *)
Lemma RetrieveNotifications_spec_witness :
  dataNotification ∈ (RetrieveNotifications "O" "T" "D" true 100 dataNotificationStore).1.
Proof.
  apply (proj1 (RetrieveNotifications_spec "O" "T" "D" true 100 dataNotificationStore
                  dataNotification)).
  - left. discriminate.
  - split.
    + exists "O:T1:X:T:D", {| noID := "O:T1:X:T:D"; Notification_ := dataNotification |}.
      split; reflexivity.
    + repeat split. right. split; [reflexivity|]. rewrite !elem_of_cons. tauto.
Defined.

(** ** Reading at the end of a blob *)

Lemma make_nonneg n : 0 ≤ n → make n = Returns (replicate (Z.to_nat n) x00).
Proof.
  intros Hn. unfold make. by rewrite (proj2 (Z.ltb_ge _ _) Hn).
Qed.

Lemma ReadAt_at_end contents size :
  0 ≤ size →
  dataURI.ReadAt contents size (len contents)
  = (replicate (Z.to_nat size) x00, 0, if 0 <? size then Some EOF else None).
Proof.
  intros Hsize. unfold dataURI.ReadAt.
  rewrite (proj2 (Z.ltb_ge _ _) (len_nonneg contents)).
  assert (drop (Z.to_nat (len contents)) contents = []) as ->.
  { unfold len. rewrite Nat2Z.id. apply drop_all. }
  rewrite take_nil. unfold len. simpl. by rewrite Nat.sub_0_r.
Qed.

Section ReadAtEnd.

Variable url_Parse : string → option dataURI.URL.

Lemma GetDataChunk_at_end uri u disk contents size :
  url_Parse uri = Some u →
  dataURI.EqualFold (dataURI.Scheme u) "file" = true →
  disk !! dataURI.Path u = Some contents →
  len contents ≤ maxInt64 →
  0 ≤ size →
  dataURI.GetDataChunk url_Parse uri size (len contents) disk
  = Returns (Some (replicate (Z.to_nat size) x00), true, 0, None).
Proof.
  intros Hparse Hscheme Hfile Hmax Hsize. unfold dataURI.GetDataChunk.
  rewrite Hparse, Hscheme, Hfile. simpl negb. cbv iota.
  rewrite make_nonneg, ReadAt_at_end by done.
  destruct (decide (size = 0)) as [->|Hpos].
  - simpl. rewrite Z.add_0_r, wrap64_small by (pose proof (len_nonneg contents); lia).
    by rewrite Z.eqb_refl.
  - rewrite (proj2 (Z.eqb_neq 0 size)) by lia.
    by rewrite (proj2 (Z.ltb_lt 0 size)) by lia.
Qed.

End ReadAtEnd.

Lemma ReadObjectData_at_end orgID objectType objectID size offset_ store b :
  gridfs store !! createObjectCollectionID orgID objectType objectID = Some b →
  len b ≤ offset_ →
  ReadObjectData orgID objectType objectID size offset_ store = Returns (Some [], true, 0, None).
Proof.
  intros Hb Hoff. unfold ReadObjectData, openFile. rewrite Hb. unfold Size. simpl.
  by rewrite (proj2 (Z.leb_le _ _) Hoff).
Qed.

(** C6, as the claim states it, fails on the file backend: at the end of a
    two-byte file a chunk of four bytes is answered with a buffer of four
    zero bytes, not with an empty slice. *)
Lemma GetDataChunk_at_end_not_empty :
  blobDisk !! "/data/O/T/X" = Some [x41; x42]
  ∧ dataURI.GetDataChunk parseFileURI "file:///data/O/T/X" 4 2 blobDisk
    = Returns (Some [x00; x00; x00; x00], true, 0, None)
  ∧ dataURI.GetDataChunk parseFileURI "file:///data/O/T/X" 4 2 blobDisk
    ≠ Returns (Some [], true, 0, None).
Proof.
  split; [reflexivity|]. split; [reflexivity|]. discriminate.
Qed.

(** C6, amended.  For a stored blob of size S and a chunk size that is not
    negative, a read at offset S returns [eof = true], zero bytes produced
    and no error on both backends.  [ReadObjectData] on the database backend
    returns an empty slice; [GetDataChunk] on the file backend returns the
    buffer it allocated, [size] zero bytes, which is empty only for
    [size = 0]. *)
Theorem read_at_end_of_blob
    (url_Parse : string → option dataURI.URL) (uri : string) (u : dataURI.URL)
    (disk : gmap string (list byte)) (contents : list byte)
    (orgID objectType objectID : string) (store : MongoStorage) (b : list byte) (size : Z) :
  url_Parse uri = Some u →
  dataURI.EqualFold (dataURI.Scheme u) "file" = true →
  disk !! dataURI.Path u = Some contents →
  len contents ≤ maxInt64 →
  gridfs store !! createObjectCollectionID orgID objectType objectID = Some b →
  0 ≤ size →
  dataURI.GetDataChunk url_Parse uri size (len contents) disk
    = Returns (Some (replicate (Z.to_nat size) x00), true, 0, None)
  ∧ (replicate (Z.to_nat size) x00 = [] ↔ size = 0)
  ∧ ReadObjectData orgID objectType objectID size (len b) store
    = Returns (Some [], true, 0, None).
Proof.
  intros Hparse Hscheme Hfile Hmax Hb Hsize. split; [|split].
  - by eapply GetDataChunk_at_end.
  - split.
    + intros Hnil. apply (f_equal length) in Hnil. rewrite length_replicate in Hnil.
      simpl in Hnil. lia.
    + by intros ->.
  - eapply ReadObjectData_at_end; [done|lia].
Qed.

Lemma read_at_end_of_blob_witness :
  dataURI.GetDataChunk parseFileURI "file:///data/O/T/X" 3 2 blobDisk
    = Returns (Some [x00; x00; x00], true, 0, None)
  ∧ ReadObjectData "O" "T" "X" 3 2 blobStore = Returns (Some [], true, 0, None).
Proof.
  destruct (read_at_end_of_blob parseFileURI "file:///data/O/T/X"
              {| dataURI.Scheme := "file"; dataURI.Path := "/data/O/T/X" |}
              blobDisk [x41; x42] "O" "T" "X" blobStore [x41; x42] 3)
    as (H1 & _ & H2); try reflexivity.
  - vm_compute. discriminate.
  - lia.
  - split; [exact H1|exact H2].
Defined.

(** ** Delivery status and automatic deletion *)

Lemma updateDestinations_found status message destType destID allConsumed ds :
  updateDestinations status message destType destID true allConsumed ds
  = (ds, true, allConsumed && forallb isConsumed ds).
Proof.
  revert allConsumed. induction ds as [|d ds IH]; intros allConsumed; simpl.
  - by rewrite andb_true_r.
  - rewrite IH. unfold isConsumed. by destruct allConsumed, (bool_decide (Status d = Consumed)).
Qed.

Lemma updateDestinations_first status message destType destID allConsumed pre d post :
  Forall (λ x, ¬ isDestination destType destID x) pre →
  isDestination destType destID d →
  updateDestinations status message destType destID false allConsumed (pre ++ d :: post)
  = (pre ++ deliver status message d :: post, true,
     allConsumed && forallb isConsumed (pre ++ post)).
Proof.
  intros Hpre [Ht Hi]. revert allConsumed.
  induction Hpre as [|x pre Hx Hpre IH]; intros allConsumed; simpl.
  - rewrite !bool_decide_eq_true_2 by done. simpl.
    by rewrite updateDestinations_found.
  - assert (bool_decide (dDestType (Destination_ x) = destType)
            && bool_decide (dDestID (Destination_ x) = destID) = false) as ->.
    { apply andb_false_iff. rewrite !bool_decide_eq_false.
      unfold isDestination in Hx. destruct (decide (dDestType (Destination_ x) = destType));
        [right|left]; tauto. }
    rewrite IH. unfold isConsumed.
    by destruct allConsumed, (bool_decide (Status x = Consumed)).
Qed.

Lemma deliver_Status status message d :
  status ≠ "" → Status (deliver status message d) = status.
Proof.
  intros Hs. unfold deliver. by rewrite (bool_decide_eq_false_2 (status = "")).
Qed.

Lemma deliver_Destination status message d :
  Destination_ (deliver status message d) = Destination_ d.
Proof.
  unfold deliver.
  by destruct (negb (bool_decide (message = "")) || bool_decide (Status d = common.Error)),
       (negb (bool_decide (status = ""))).
Qed.

Section AutoDelete.

Variable RFC3339 : Z → string.

(** What a call that finds its destination does to the store. *)
Lemma UpdateObjectDeliveryStatus_found status message orgID objectType objectID destType destID
    now store o pre d post :
  status ≠ "" ∨ message ≠ "" →
  objects store !! createObjectCollectionID orgID objectType objectID = Some o →
  Destinations o = pre ++ d :: post →
  Forall (λ x, ¬ isDestination destType destID x) pre →
  isDestination destType destID d →
  UpdateObjectDeliveryStatus RFC3339 status message orgID objectType objectID destType destID
    now store
  = (None,
     with_serverTime (currentDate store)
       (with_objects
          (<[createObjectCollectionID orgID objectType objectID :=
               let o' := setDestinations (pre ++ deliver status message d :: post) o in
               setLastUpdate (currentDate store)
                 (if AutoDelete (MetaData_ o) && bool_decide (status = Consumed)
                     && forallb isConsumed (pre ++ post)
                     && bool_decide (Expiration (MetaData_ o) = "")
                  then setMetaData (setExpiration (RFC3339 (now + Hour)) (MetaData_ o)) o'
                  else o')]> (objects store)) store)).
Proof.
  intros Hne Ho Hds Hpre Hd. unfold UpdateObjectDeliveryStatus.
  assert (bool_decide (status = "") && bool_decide (message = "") = false) as ->.
  { apply andb_false_iff. rewrite !bool_decide_eq_false. tauto. }
  simpl. unfold fetchOne. rewrite Ho, Hds.
  rewrite (updateDestinations_first _ _ _ _ _ _ _ _ Hpre Hd). simpl.
  erewrite updateObjects_Some; [|done|apply Z.eqb_refl].
  by destruct (AutoDelete (MetaData_ o) && bool_decide (status = Consumed)
               && forallb isConsumed (pre ++ post)
               && bool_decide (Expiration (MetaData_ o) = "")).
Qed.

Lemma autoDelete_expiration message orgID objectType objectID destType destID
    now store o pre d post :
  objects store !! createObjectCollectionID orgID objectType objectID = Some o →
  AutoDelete (MetaData_ o) = true →
  Expiration (MetaData_ o) = "" →
  Destinations o = pre ++ d :: post →
  Forall (λ x, ¬ isDestination destType destID x) pre →
  isDestination destType destID d →
  Forall (λ x, Status x = Consumed) (pre ++ post) →
  ∃ store' o',
    UpdateObjectDeliveryStatus RFC3339 Consumed message orgID objectType objectID
      destType destID now store = (None, store')
    ∧ objects store' !! createObjectCollectionID orgID objectType objectID = Some o'
    ∧ Expiration (MetaData_ o') = RFC3339 (now + Hour)
    ∧ Destinations o' = pre ++ deliver Consumed message d :: post.
Proof.
  intros Ho Hauto Hexp Hds Hpre Hd Hall.
  eexists _, _. split.
  { eapply UpdateObjectDeliveryStatus_found; eauto. }
  simpl. rewrite lookup_insert_eq. split; [done|].
  rewrite Hauto, Hexp.
  assert (forallb isConsumed (pre ++ post) = true) as ->.
  { apply forallb_forall. intros x Hx. apply bool_decide_eq_true.
    rewrite Forall_forall in Hall. apply Hall. by apply list_elem_of_In. }
  done.
Qed.

Lemma delivery_pending message status orgID objectType objectID destType destID
    now store o pre d post :
  status ≠ "" ∨ message ≠ "" →
  objects store !! createObjectCollectionID orgID objectType objectID = Some o →
  Destinations o = pre ++ d :: post →
  Forall (λ x, ¬ isDestination destType destID x) pre →
  isDestination destType destID d →
  forallb isConsumed (pre ++ post) = false →
  ∃ store',
    UpdateObjectDeliveryStatus RFC3339 status message orgID objectType objectID
      destType destID now store = (None, store')
    ∧ objects store' !! createObjectCollectionID orgID objectType objectID
      = Some (setLastUpdate (currentDate store)
                (setDestinations (pre ++ deliver status message d :: post) o)).
Proof.
  intros Hne Ho Hds Hpre Hd Hnot.
  eexists. split.
  { eapply UpdateObjectDeliveryStatus_found; eauto. }
  cbn [objects with_serverTime with_objects]. rewrite lookup_insert_eq.
  by rewrite Hnot, andb_false_r.
Qed.

Lemma autoDelete_two_destinations orgID objectType objectID now1 now2 store o d1 d2 :
  objects store !! createObjectCollectionID orgID objectType objectID = Some o →
  AutoDelete (MetaData_ o) = true →
  Expiration (MetaData_ o) = "" →
  Destinations o = [d1; d2] →
  ¬ isDestination (dDestType (Destination_ d2)) (dDestID (Destination_ d2)) d1 →
  Status d2 ≠ Consumed →
  ∃ store1 o1 store2 o2,
    UpdateObjectDeliveryStatus RFC3339 Consumed "" orgID objectType objectID
      (dDestType (Destination_ d1)) (dDestID (Destination_ d1)) now1 store = (None, store1)
    ∧ objects store1 !! createObjectCollectionID orgID objectType objectID = Some o1
    ∧ Expiration (MetaData_ o1) = ""
    ∧ UpdateObjectDeliveryStatus RFC3339 Consumed "" orgID objectType objectID
        (dDestType (Destination_ d2)) (dDestID (Destination_ d2)) now2 store1 = (None, store2)
    ∧ objects store2 !! createObjectCollectionID orgID objectType objectID = Some o2
    ∧ Expiration (MetaData_ o2) = RFC3339 (now2 + Hour)
    ∧ Status <$> Destinations o2 = [Consumed; Consumed].
Proof.
  intros Ho Hauto Hexp Hds Hdiff Hpending.
  destruct (delivery_pending "" Consumed orgID objectType objectID
              (dDestType (Destination_ d1)) (dDestID (Destination_ d1)) now1 store o
              [] d1 [d2]) as (store1 & H1 & Ho1).
  { left. discriminate. }
  { done. }
  { done. }
  { constructor. }
  { by split. }
  { cbn [app forallb]. unfold isConsumed.
    by rewrite (bool_decide_eq_false_2 (Status d2 = Consumed)). }
  destruct (autoDelete_expiration "" orgID objectType objectID
              (dDestType (Destination_ d2)) (dDestID (Destination_ d2)) now2 store1
              (setLastUpdate (currentDate store)
                 (setDestinations ([] ++ [deliver Consumed "" d1; d2]) o))
              [deliver Consumed "" d1] d2 [])
    as (store2 & o2 & H2 & Ho2 & He2 & Hd2).
  { exact Ho1. }
  { exact Hauto. }
  { exact Hexp. }
  { reflexivity. }
  { constructor; [|constructor]. unfold isDestination.
    by rewrite deliver_Destination. }
  { by split. }
  { constructor; [|constructor]. apply deliver_Status. discriminate. }
  eexists store1, _, store2, o2.
  split; [exact H1|]. split; [exact Ho1|]. split; [exact Hexp|].
  split; [exact H2|]. split; [exact Ho2|]. split; [exact He2|].
  rewrite Hd2. cbn [app fmap list_fmap].
  by rewrite !deliver_Status by discriminate.
Qed.

End AutoDelete.

(** C3.  For an object with [autoDelete] set and an empty expiration, a call
    of [UpdateObjectDeliveryStatus] with the new status Consumed for a
    destination of the object, all other destinations of the list being
    Consumed already, succeeds and stores, in the same update as the new
    destinations list, the RFC3339 rendering of now plus one hour as
    [metadata.expiration].  With two destinations, both not yet consumed,
    marking the first and then the second Consumed leaves the expiration
    empty after the first call and sets it to now plus one hour in the
    second. *)
Theorem autoDelete_sets_expiration (RFC3339 : Z → string) :
  (∀ message orgID objectType objectID destType destID now store o pre d post,
     objects store !! createObjectCollectionID orgID objectType objectID = Some o →
     AutoDelete (MetaData_ o) = true →
     Expiration (MetaData_ o) = "" →
     Destinations o = pre ++ d :: post →
     Forall (λ x, ¬ isDestination destType destID x) pre →
     isDestination destType destID d →
     Forall (λ x, Status x = Consumed) (pre ++ post) →
     ∃ store' o',
       UpdateObjectDeliveryStatus RFC3339 Consumed message orgID objectType objectID
         destType destID now store = (None, store')
       ∧ objects store' !! createObjectCollectionID orgID objectType objectID = Some o'
       ∧ Expiration (MetaData_ o') = RFC3339 (now + Hour)
       ∧ Destinations o' = pre ++ deliver Consumed message d :: post)
  ∧ (∀ orgID objectType objectID now1 now2 store o d1 d2,
       objects store !! createObjectCollectionID orgID objectType objectID = Some o →
       AutoDelete (MetaData_ o) = true →
       Expiration (MetaData_ o) = "" →
       Destinations o = [d1; d2] →
       ¬ isDestination (dDestType (Destination_ d2)) (dDestID (Destination_ d2)) d1 →
       Status d2 ≠ Consumed →
       ∃ store1 o1 store2 o2,
         UpdateObjectDeliveryStatus RFC3339 Consumed "" orgID objectType objectID
           (dDestType (Destination_ d1)) (dDestID (Destination_ d1)) now1 store
         = (None, store1)
         ∧ objects store1 !! createObjectCollectionID orgID objectType objectID = Some o1
         ∧ Expiration (MetaData_ o1) = ""
         ∧ UpdateObjectDeliveryStatus RFC3339 Consumed "" orgID objectType objectID
             (dDestType (Destination_ d2)) (dDestID (Destination_ d2)) now2 store1
           = (None, store2)
         ∧ objects store2 !! createObjectCollectionID orgID objectType objectID = Some o2
         ∧ Expiration (MetaData_ o2) = RFC3339 (now2 + Hour)
         ∧ Status <$> Destinations o2 = [Consumed; Consumed]).
Proof.
  split.
  - intros. by eapply autoDelete_expiration.
  - intros. by eapply autoDelete_two_destinations.
Qed.

(** The scenario at the example object: the second call, ten seconds after
    the epoch, stores one hour and ten seconds after the epoch. *)
Lemma autoDelete_sets_expiration_witness :
  ∃ store1 o1 store2 o2,
    UpdateObjectDeliveryStatus utcRFC3339 Consumed "" "O" "T1" "X" "T" "D1" (5 * 10 ^ 9)
      autoDeleteStore = (None, store1)
    ∧ objects store1 !! "O:T1:X" = Some o1
    ∧ Expiration (MetaData_ o1) = ""
    ∧ UpdateObjectDeliveryStatus utcRFC3339 Consumed "" "O" "T1" "X" "T" "D2" (10 * 10 ^ 9)
        store1 = (None, store2)
    ∧ objects store2 !! "O:T1:X" = Some o2
    ∧ Expiration (MetaData_ o2) = "1970-01-01T01:00:10Z"
    ∧ Status <$> Destinations o2 = [Consumed; Consumed].
Proof.
  apply (proj2 (autoDelete_sets_expiration utcRFC3339) "O" "T1" "X" (5 * 10 ^ 9) (10 * 10 ^ 9)
           autoDeleteStore autoDeleteObject destination1 destination2).
  - reflexivity.
  - reflexivity.
  - reflexivity.
  - reflexivity.
  - intros [_ H]. discriminate H.
  - discriminate.
Defined.

(** ** Chunked upload: one call *)


Lemma deref_Some p fh store : handles store !! p = Some fh → deref p store = fh.
Proof. intros H. unfold deref. by rewrite lookup_total_alt, H. Qed.

Lemma assign_same p fh store : handles store !! p = Some fh → assign p fh store = store.
Proof.
  intros H. unfold assign, with_handles. rewrite (insert_id _ _ _ H). by destruct store.
Qed.

Lemma finishChunk_ok id p isLastChunk store :
  ∃ store', finishChunk id p isLastChunk store = (None, store')
    ∧ handles store' = handles store
    ∧ (if isLastChunk
       then openFiles store' = delete id (openFiles store)
            ∧ gridfs store' = <[Id (file (deref p store)) := content (file (deref p store))]>
                                (gridfs store)
       else openFiles store' = <[id := p]> (openFiles store)
            ∧ gridfs store' = gridfs store).
Proof.
  unfold finishChunk. destruct isLastChunk; eexists; (split; [reflexivity|]); simpl; done.
Qed.

Lemma bufferChunk_handles p offset_ data store :
  ∃ err store', bufferChunk p offset_ data store = (err, store')
    ∧ openFiles store' = openFiles store ∧ gridfs store' = gridfs store.
Proof.
  unfold bufferChunk. case_match; eexists _, _; (split; [reflexivity|]); done.
Qed.

(** A call for a chunk that is not the first works on the handle open for
    the key. *)
Lemma AppendObjectData_next orgID objectType objectID dataReader dataLength offset_ total
    isLastChunk store p data :
  openFiles store !! createObjectCollectionID orgID objectType objectID = Some p →
  readChunk dataReader dataLength = inr data →
  AppendObjectData orgID objectType objectID dataReader dataLength offset_ total false
    isLastChunk store
  = (let '(err, store) :=
       if offset_ =? offset (deref p store)
       then
         let fh := deref p store in
         let '(err, fh) := writeLoop (S (Z.to_nat (lenChunks fh))) fh data in
         (err, assign p fh store)
       else bufferChunk p offset_ data store in
     match err with
     | Some e => (Some e, store)
     | None =>
       finishChunk (createObjectCollectionID orgID objectType objectID) p isLastChunk store
     end).
Proof.
  intros Hp Hread. unfold AppendObjectData, getFileHandle. by rewrite Hp, Hread.
Qed.




(** ** The out-of-order window *)

Lemma assign_assign p fh1 fh2 store : assign p fh2 (assign p fh1 store) = assign p fh2 store.
Proof. unfold assign, with_handles. simpl. by rewrite insert_insert_eq. Qed.

Lemma bufferChunk_discard p offset_ data store fh :
  handles store !! p = Some fh →
  100 < lenChunks fh →
  bufferChunk p offset_ data store
  = (Some (Discarded "Discard data chunk since there are too many out-of-order chunks"),
     store).
Proof.
  intros Hfh Hfull. unfold bufferChunk. rewrite (deref_Some _ _ _ Hfh).
  unfold lenChunks in *. destruct (chunks fh) as [m|] eqn:Hm; [|lia].
  unfold lenChunks. rewrite Hm. rewrite (proj2 (Z.ltb_lt _ _) Hfull).
  by rewrite (assign_same _ _ _ Hfh).
Qed.

Lemma bufferChunk_store p offset_ data store fh :
  handles store !! p = Some fh →
  lenChunks fh ≤ 100 →
  bufferChunk p offset_ data store
  = (None,
     assign p {| file := file fh; offset := offset fh;
                 chunks := Some (<[offset_ := data]> (default ∅ (chunks fh))) |} store).
Proof.
  intros Hfh Hroom. unfold bufferChunk. rewrite (deref_Some _ _ _ Hfh).
  unfold lenChunks in *. destruct (chunks fh) as [m|] eqn:Hm.
  - unfold lenChunks. rewrite Hm. rewrite (proj2 (Z.ltb_ge _ _) Hroom).
    by rewrite assign_assign.
  - simpl. by rewrite assign_assign.
Qed.

Lemma lenChunks_insert fh offset_ data :
  lenChunks {| file := file fh; offset := offset fh;
               chunks := Some (<[offset_ := data]> (default ∅ (chunks fh))) |}
  ≤ lenChunks fh + 1.
Proof.
  unfold lenChunks. simpl. destruct (chunks fh) as [m|]; simpl.
  - destruct (m !! offset_) eqn:Hz.
    + rewrite map_size_insert_Some by done. lia.
    + rewrite map_size_insert_None by done. lia.
  - rewrite insert_empty, map_size_singleton. lia.
Qed.

Section Window.

Variables orgID objectType objectID : string.
Variable total : Z.

Let id := createObjectCollectionID orgID objectType objectID.

Lemma AppendObjectData_discard dataReader dataLength offset_ isLastChunk store p fh data :
  openFiles store !! id = Some p →
  handles store !! p = Some fh →
  offset_ ≠ offset fh →
  readChunk dataReader dataLength = inr data →
  100 < lenChunks fh →
  AppendObjectData orgID objectType objectID dataReader dataLength offset_ total false
    isLastChunk store
  = (Some (Discarded "Discard data chunk since there are too many out-of-order chunks"),
     store).
Proof.
  intros Hp Hfh Hoff Hread Hfull.
  rewrite (AppendObjectData_next _ _ _ _ _ _ _ _ _ _ _ Hp Hread).
  rewrite (deref_Some _ _ _ Hfh), (proj2 (Z.eqb_neq _ _) Hoff).
  by rewrite (bufferChunk_discard _ _ _ _ _ Hfh Hfull).
Qed.

Lemma AppendObjectData_buffer dataReader dataLength offset_ isLastChunk store p fh data :
  openFiles store !! id = Some p →
  handles store !! p = Some fh →
  offset_ ≠ offset fh →
  readChunk dataReader dataLength = inr data →
  lenChunks fh ≤ 100 →
  ∃ store',
    AppendObjectData orgID objectType objectID dataReader dataLength offset_ total false
      isLastChunk store = (None, store')
    ∧ handles store' !! p
      = Some {| file := file fh; offset := offset fh;
                chunks := Some (<[offset_ := data]> (default ∅ (chunks fh))) |}
    ∧ (isLastChunk = false → openFiles store' !! id = Some p ∧ gridfs store' = gridfs store).
Proof.
  intros Hp Hfh Hoff Hread Hroom.
  rewrite (AppendObjectData_next _ _ _ _ _ _ _ _ _ _ _ Hp Hread).
  rewrite (deref_Some _ _ _ Hfh), (proj2 (Z.eqb_neq _ _) Hoff).
  rewrite (bufferChunk_store _ _ _ _ _ Hfh Hroom).
  destruct (finishChunk_ok id p isLastChunk
              (assign p {| file := file fh; offset := offset fh;
                           chunks := Some (<[offset_ := data]> (default ∅ (chunks fh))) |}
                 store)) as (store' & Hfin & Hh & Ho).
  exists store'. split; [exact Hfin|]. split.
  - rewrite Hh. simpl. apply lookup_insert_eq.
  - intros ->. destruct Ho as [Ho Hg]. by rewrite Ho, lookup_insert_eq, Hg.
Qed.

(** Calls that arrive ahead of the handle's offset fill the window as long
    as it has room. *)
Lemma appendCalls_buffer calls : ∀ store p fh,
  openFiles store !! id = Some p →
  handles store !! p = Some fh →
  Forall (λ c, aheadOf fh c ∧ cLast c = false) calls →
  lenChunks fh + len calls ≤ 101 →
  ∃ store' fh',
    appendCalls orgID objectType objectID total calls store
    = (replicate (length calls) None, store')
    ∧ openFiles store' !! id = Some p
    ∧ handles store' !! p = Some fh'
    ∧ file fh' = file fh ∧ offset fh' = offset fh
    ∧ default ∅ (chunks fh') = buffered calls (default ∅ (chunks fh))
    ∧ gridfs store' = gridfs store.
Proof.
  induction calls as [|c calls IH]; intros store p fh Hp Hfh Hcalls Hroom.
  - exists store, fh. by repeat split.
  - apply Forall_cons in Hcalls as [[(Hfirst & Hoff & Hread) Hlast] Hcalls].
    unfold len in Hroom. simpl length in Hroom.
    destruct (AppendObjectData_buffer (cReader c) (cLength c) (cOffset c) false store p fh
                (chunkOf c) Hp Hfh) as (store1 & H1 & Hfh1 & Ho1); [lia|exact Hread|lia|].
    destruct (Ho1 eq_refl) as [Hp1 Hg1].
    destruct (IH store1 p _ Hp1 Hfh1) as (store' & fh' & Hrun & Hp' & Hfh' & Hf & Ho & Hm & Hg).
    { eapply Forall_impl; [exact Hcalls|]. intros c' [(? & ? & ?) ?]. by repeat split. }
    { pose proof (lenChunks_insert fh (cOffset c) (chunkOf c)). unfold len. lia. }
    exists store', fh'. cbn [appendCalls]. unfold appendCall. rewrite Hfirst, Hlast, H1, Hrun.
    repeat split; try done. by rewrite Hg.
Qed.

Lemma buffered_lookup calls : ∀ (m : gmap Z (list byte)),
  NoDup (cOffset <$> calls) →
  (∀ c, c ∈ calls → m !! cOffset c = None) →
  size (buffered calls m) = (size m + length calls)%nat
  ∧ (∀ c, c ∈ calls → buffered calls m !! cOffset c = Some (chunkOf c))
  ∧ (∀ z, z ∉ cOffset <$> calls → buffered calls m !! z = m !! z).
Proof.
  induction calls as [|c calls IH]; intros m Hnodup Hfresh.
  - simpl. split; [lia|]. split; [|done]. intros c Hc. by apply elem_of_nil in Hc.
  - rewrite fmap_cons in Hnodup. apply NoDup_cons in Hnodup as [Hc Hnodup].
    destruct (IH (<[cOffset c := chunkOf c]> m) Hnodup) as (Hsize & Hin & Hout).
    { intros c' Hc'. rewrite lookup_insert_ne; [apply Hfresh; by right|].
      intros Heq. apply Hc. rewrite Heq. by apply list_elem_of_fmap_2. }
    unfold buffered in *. simpl. split; [|split].
    + rewrite Hsize, map_size_insert_None; [lia|]. apply Hfresh. by left.
    + intros c' Hc'. apply elem_of_cons in Hc' as [->|Hc']; [|by apply Hin].
      rewrite Hout by done. apply lookup_insert_eq.
    + intros z Hz. apply not_elem_of_cons in Hz as [Hzc Hz].
      rewrite Hout by done. by rewrite lookup_insert_ne.
Qed.

End Window.


Lemma chunkAt_default fh z : chunkAt fh z = default ∅ (chunks fh) !! z.
Proof. unfold chunkAt. by destruct (chunks fh). Qed.

Lemma lenChunks_default fh : lenChunks fh = Z.of_nat (size (default ∅ (chunks fh))).
Proof. unfold lenChunks. by destruct (chunks fh). Qed.

(** C2, as the claim states it, fails: after the first chunk, 101 chunks at
    distinct offsets ahead of the handle are all accepted; the 101st call
    returns nil and the window then holds 101 chunks. *)
Lemma window_accepts_101_chunks :
  NoDup (cOffset <$> outOfOrderCalls 101)
  ∧ Forall (λ c, offset uploadingHandle < cOffset c) (outOfOrderCalls 101)
  ∧ handles uploadingStore !! 1%positive = Some uploadingHandle
  ∧ (appendCalls "O" "T" "X" 2000 (outOfOrderCalls 101) uploadingStore).1
    = replicate 101 None
  ∧ window "O:T:X" (appendCalls "O" "T" "X" 2000 (outOfOrderCalls 101) uploadingStore).2
    = 101.
Proof.
  split; [|split; [|split; [|split]]].
  - apply (bool_decide_unpack _). vm_compute. exact I.
  - unfold outOfOrderCalls. apply Forall_fmap, Forall_forall. intros i _. simpl. lia.
  - vm_compute. reflexivity.
  - vm_compute. reflexivity.
  - vm_compute. reflexivity.
Qed.

(** C2, amended.  For a call of [AppendObjectData] at an offset beyond the
    offset of the open handle, whose reader delivers the chunk: if the
    out-of-order map of the handle holds more than 100 entries the call
    returns [Discarded] and the store is unchanged; otherwise it returns nil
    and the chunk is in the map under its offset.  Hence the map takes 101
    chunks: after 101 calls at distinct offsets ahead of a handle with an
    empty map, all of which return nil, the map holds the 101 chunks and
    the 102nd call returns [Discarded], the 101 chunks staying in the map. *)
Theorem window_overflow
    (orgID objectType objectID : string) (total : Z) (dataReader : Reader)
    (dataLength offset_ : Z) (isLastChunk : bool) (store : MongoStorage) (p : ptr)
    (fh : fileHandle) (data : list byte) :
  openFiles store !! createObjectCollectionID orgID objectType objectID = Some p →
  handles store !! p = Some fh →
  offset fh < offset_ →
  readChunk dataReader dataLength = inr data →
  (100 < lenChunks fh →
   AppendObjectData orgID objectType objectID dataReader dataLength offset_ total false
     isLastChunk store
   = (Some (Discarded "Discard data chunk since there are too many out-of-order chunks"),
      store))
  ∧ (lenChunks fh ≤ 100 →
     ∃ store' fh',
       AppendObjectData orgID objectType objectID dataReader dataLength offset_ total false
         isLastChunk store = (None, store')
       ∧ handles store' !! p = Some fh'
       ∧ chunkAt fh' offset_ = Some data
       ∧ (∀ z, z ≠ offset_ → chunkAt fh' z = chunkAt fh z))
  ∧ (∀ calls,
       lenChunks fh = 0 →
       length calls = 101%nat →
       NoDup (cOffset <$> calls) →
       Forall (λ c, aheadOf fh c ∧ cLast c = false) calls →
       ∃ store1 fh1,
         appendCalls orgID objectType objectID total calls store
         = (replicate 101 None, store1)
         ∧ handles store1 !! p = Some fh1
         ∧ lenChunks fh1 = 101
         ∧ (∀ c, c ∈ calls → chunkAt fh1 (cOffset c) = Some (chunkOf c))
         ∧ AppendObjectData orgID objectType objectID dataReader dataLength offset_ total
             false isLastChunk store1
           = (Some (Discarded
                      "Discard data chunk since there are too many out-of-order chunks"),
              store1)).
Proof.
  intros Hp Hfh Hoff Hread. split; [|split].
  - intros Hfull. eapply AppendObjectData_discard; eauto. lia.
  - intros Hroom.
    destruct (AppendObjectData_buffer orgID objectType objectID total dataReader dataLength
                offset_ isLastChunk store p fh data Hp Hfh) as (store' & Hrun & Hfh' & _);
      [lia|done|done|].
    eexists store', _. split; [exact Hrun|]. split; [exact Hfh'|].
    unfold chunkAt at 1 2. simpl. split; [apply lookup_insert_eq|].
    intros z Hz. rewrite lookup_insert_ne by done. by rewrite chunkAt_default.
  - intros calls Hempty Hlen Hnodup Hcalls.
    destruct (appendCalls_buffer orgID objectType objectID total calls store p fh Hp Hfh
                Hcalls) as (store1 & fh1 & Hrun & Hp1 & Hfh1 & Hf1 & Ho1 & Hm1 & _).
    { unfold len. lia. }
    assert (default ∅ (chunks fh) = ∅) as Hm0.
    { apply map_size_empty_iff. rewrite lenChunks_default in Hempty. lia. }
    rewrite Hm0 in Hm1.
    destruct (buffered_lookup calls ∅ Hnodup) as (Hsize & Hin & _); [done|].
    assert (lenChunks fh1 = 101) as Hfull.
    { rewrite lenChunks_default, Hm1, Hsize, map_size_empty. lia. }
    exists store1, fh1. rewrite Hlen in Hrun.
    split; [exact Hrun|]. split; [exact Hfh1|]. split; [exact Hfull|]. split.
    + intros c Hc. rewrite chunkAt_default, Hm1. by apply Hin.
    + eapply AppendObjectData_discard; eauto; lia.
Qed.

(** The amended statement for the example upload: 101 chunks fill the
    window and the next call, at offset 5000, is discarded. *)
Lemma window_overflow_witness :
  ∃ store1 fh1,
    appendCalls "O" "T" "X" 2000 (outOfOrderCalls 101) uploadingStore
    = (replicate 101 None, store1)
    ∧ handles store1 !! 1%positive = Some fh1
    ∧ lenChunks fh1 = 101
    ∧ (∀ c, c ∈ outOfOrderCalls 101 → chunkAt fh1 (cOffset c) = Some (chunkOf c))
    ∧ AppendObjectData "O" "T" "X" [x2a] 1 5000 2000 false false store1
      = (Some (Discarded "Discard data chunk since there are too many out-of-order chunks"),
         store1).
Proof.
  apply (window_overflow "O" "T" "X" 2000 [x2a] 1 5000 false uploadingStore 1%positive
           uploadingHandle [x2a]).
  - vm_compute. reflexivity.
  - vm_compute. reflexivity.
  - simpl. lia.
  - reflexivity.
  - reflexivity.
  - reflexivity.
  - apply (bool_decide_unpack _). vm_compute. exact I.
  - unfold outOfOrderCalls. apply Forall_fmap, Forall_forall. intros i _.
    unfold aheadOf. simpl. repeat split. lia.
Defined.

(** ** Chunked upload: reassembly *)


Section Chunks.

Variable cs : list (list byte).
Hypothesis chunk_sizes : Forall (λ c : list byte, 0 < len c < 2 ^ 32) cs.
Hypothesis total_fits : len (concat cs) ≤ maxInt64.

Lemma chunkOffset_0 : chunkOffset cs 0 = 0.
Proof. reflexivity. Qed.








Variables orgID objectType objectID : string.
Variable total : Z.

Let id := createObjectCollectionID orgID objectType objectID.















End Chunks.

(** The fuel of the write loop is enough: above the size of the
    out-of-order map the result does not depend on it. *)
Lemma writeLoop_fuel fuel1 : ∀ fuel2 fh data,
  (Z.to_nat (lenChunks fh) < fuel1)%nat →
  (Z.to_nat (lenChunks fh) < fuel2)%nat →
  writeLoop fuel1 fh data = writeLoop fuel2 fh data.
Proof.
  induction fuel1 as [|fuel1 IH]; intros fuel2 fh data H1 H2; [lia|].
  destruct fuel2 as [|fuel2]; [lia|].
  cbn [writeLoop Write]. rewrite Z.eqb_refl. cbn [negb file offset chunks].
  destruct (chunks fh) as [m|] eqn:Hm; [|done].
  destruct (m !! wrap64 (offset fh + len data)) as [data'|] eqn:Hlook; [|done].
  assert (size m ≠ 0%nat) as Hsize.
  { intros Hz. apply map_size_empty_iff in Hz. subst m. by rewrite lookup_empty in Hlook. }
  unfold lenChunks in H1, H2. rewrite Hm in H1, H2.
  apply IH; unfold lenChunks; simpl; rewrite map_size_delete_Some by (by eexists); lia.
Qed.



(** * Further properties of the store *)

(** ** Filters over a collection *)

Lemma fetchAllOf_elem {D} (field : D → string → option value) q (coll : gmap string D) d :
  d ∈ fetchAllOf field q coll ↔
  ∃ id, coll !! id = Some d ∧ matches (docField field (id, d)) q = true.
Proof.
  unfold fetchAllOf. rewrite list_elem_of_fmap. split.
  - intros ([id d'] & -> & Hin). apply list_elem_of_filter in Hin as [Hm Hin].
    exists id. split; [by apply elem_of_map_to_list|done].
  - intros (id & Hid & Hm). exists (id, d). split; [done|].
    apply list_elem_of_filter. split; [done|]. by apply elem_of_map_to_list.
Qed.

Lemma removeAll_lookup {D} (field : D → string → option value) q (coll : gmap string D) id d :
  removeAll field q coll !! id = Some d ↔
  coll !! id = Some d ∧ matches (docField field (id, d)) q = false.
Proof. unfold removeAll. by rewrite map_lookup_filter_Some. Qed.

Lemma removeAll_id {D} (field : D → string → option value) id (coll : gmap string D) :
  removeAll field (M [Is "_id" (VString id)]) coll = delete id coll.
Proof.
  apply map_eq. intros k. apply option_eq. intros d.
  rewrite removeAll_lookup, lookup_delete_Some.
  cbn [matches forallb]. unfold docField. rewrite (bool_decide_eq_true_2 ("_id" = "_id") eq_refl).
  cbn [fst]. rewrite andb_true_r, bool_decide_eq_false.
  split.
  - intros [Hd Hne]. split; [|done]. intros ->. by apply Hne.
  - intros [Hne Hd]. split; [done|]. intros [= ->]. by apply Hne.
Qed.

Lemma field_object_status kd :
  docField objectField kd "status" = Some (VString (Status_ kd.2)).
Proof. reflexivity. Qed.

Lemma field_object_org kd :
  docField objectField kd "metadata.destination-org-id"
  = Some (VString (DestOrgID (MetaData_ kd.2))).
Proof. reflexivity. Qed.

Lemma field_object_type kd :
  docField objectField kd "metadata.object-type"
  = Some (VString (ObjectType (MetaData_ kd.2))).
Proof. reflexivity. Qed.

Lemma Is_object_status kd t :
  bool_decide (docField objectField kd "status" = Some (VString t)) = true
  ↔ Status_ kd.2 = t.
Proof. by apply Is_string_true. Qed.

Lemma Is_object_org kd t :
  bool_decide (docField objectField kd "metadata.destination-org-id" = Some (VString t)) = true
  ↔ DestOrgID (MetaData_ kd.2) = t.
Proof. by apply Is_string_true. Qed.

Lemma Is_object_type kd t :
  bool_decide (docField objectField kd "metadata.object-type" = Some (VString t)) = true
  ↔ ObjectType (MetaData_ kd.2) = t.
Proof. by apply Is_string_true. Qed.

Ltac object_query_to_prop :=
  cbn [matches existsb forallb];
  rewrite ?orb_false_r, ?andb_true_r;
  repeat (rewrite orb_true_iff || rewrite andb_true_iff);
  rewrite ?Is_object_status, ?Is_object_org, ?Is_object_type;
  rewrite ?elem_of_cons, ?elem_of_nil; cbn [snd].

(** ** The counters of an object *)

Lemma DecrementAndReturnRemainingConsumers_found orgID objectType objectID store o :
  objects store !! createObjectCollectionID orgID objectType objectID = Some o →
  DecrementAndReturnRemainingConsumers orgID objectType objectID store
  = (RemainingConsumers o - 1, None,
     with_serverTime (currentDate store)
       (with_objects
          (<[createObjectCollectionID orgID objectType objectID :=
               setLastUpdate (currentDate store)
                 (setRemainingConsumers (RemainingConsumers o - 1) o)]> (objects store))
          store)).
Proof.
  intros Ho. unfold DecrementAndReturnRemainingConsumers.
  erewrite updateObjects_Some by done.
  unfold fetchOne. cbn [objects with_serverTime with_objects].
  rewrite lookup_insert_eq. cbn [RemainingConsumers setLastUpdate setRemainingConsumers].
  by replace (RemainingConsumers o + -1) with (RemainingConsumers o - 1) by lia.
Qed.

Lemma DecrementAndReturnRemainingReceivers_found orgID objectType objectID store o :
  objects store !! createObjectCollectionID orgID objectType objectID = Some o →
  DecrementAndReturnRemainingReceivers orgID objectType objectID store
  = (RemainingReceivers o - 1, None,
     with_serverTime (currentDate store)
       (with_objects
          (<[createObjectCollectionID orgID objectType objectID :=
               setLastUpdate (currentDate store)
                 (setRemainingReceivers (RemainingReceivers o - 1) o)]> (objects store))
          store)).
Proof.
  intros Ho. unfold DecrementAndReturnRemainingReceivers.
  erewrite updateObjects_Some by done.
  unfold fetchOne. cbn [objects with_serverTime with_objects].
  rewrite lookup_insert_eq. cbn [RemainingReceivers setLastUpdate setRemainingReceivers].
  by replace (RemainingReceivers o + -1) with (RemainingReceivers o - 1) by lia.
Qed.

Lemma decrements_found orgID objectType objectID n : ∀ store o,
  objects store !! createObjectCollectionID orgID objectType objectID = Some o →
  ∃ store' o',
    decrements orgID objectType objectID n store
    = ((λ i : nat, (RemainingConsumers o - Z.of_nat (S i), None)) <$> seq 0 n, store')
    ∧ objects store' !! createObjectCollectionID orgID objectType objectID = Some o'
    ∧ RemainingConsumers o' = RemainingConsumers o - Z.of_nat n
    ∧ RemainingReceivers o' = RemainingReceivers o
    ∧ MetaData_ o' = MetaData_ o.
Proof.
  induction n as [|n IH]; intros store o Ho.
  - exists store, o. cbn [decrements seq fmap list_fmap]. repeat split; try done. lia.
  - cbn [decrements].
    rewrite (DecrementAndReturnRemainingConsumers_found _ _ _ _ _ Ho).
    edestruct (IH (with_serverTime (currentDate store)
                     (with_objects
                        (<[createObjectCollectionID orgID objectType objectID :=
                             setLastUpdate (currentDate store)
                               (setRemainingConsumers (RemainingConsumers o - 1) o)]>
                           (objects store)) store)))
      as (store' & o' & Hrun & Ho' & Hc & Hr & Hm).
    { cbn [objects with_serverTime with_objects]. apply lookup_insert_eq. }
    rewrite Hrun. exists store', o'. split.
    + f_equal. cbn [seq fmap list_fmap]. f_equal.
      rewrite <- seq_shift, <- list_fmap_compose. apply list_fmap_ext.
      intros i x _. cbn [compose RemainingConsumers setLastUpdate setRemainingConsumers].
      f_equal. lia.
    + split; [exact Ho'|]. cbn in Hc, Hr, Hm. repeat split; try done. lia.
Qed.

(** X1.  On a stored object [DecrementAndReturnRemainingConsumers] returns
    the stored counter minus one and no error, stores that value, and leaves
    [remainingReceivers], the meta data, the status and the destinations as
    they were; [DecrementAndReturnRemainingReceivers] does the same for the
    other counter.  There is no floor: at zero the result is -1.  On a key
    without an object both return 0 and an error and change nothing. *)
Theorem decrement_counters
    (orgID objectType objectID : string) (store : MongoStorage) :
  (∀ o, objects store !! createObjectCollectionID orgID objectType objectID = Some o →
     (∃ store' o',
        DecrementAndReturnRemainingConsumers orgID objectType objectID store
        = (RemainingConsumers o - 1, None, store')
        ∧ objects store' !! createObjectCollectionID orgID objectType objectID = Some o'
        ∧ RemainingConsumers o' = RemainingConsumers o - 1
        ∧ RemainingReceivers o' = RemainingReceivers o
        ∧ MetaData_ o' = MetaData_ o ∧ Status_ o' = Status_ o
        ∧ Destinations o' = Destinations o)
     ∧ (∃ store' o',
          DecrementAndReturnRemainingReceivers orgID objectType objectID store
          = (RemainingReceivers o - 1, None, store')
          ∧ objects store' !! createObjectCollectionID orgID objectType objectID = Some o'
          ∧ RemainingReceivers o' = RemainingReceivers o - 1
          ∧ RemainingConsumers o' = RemainingConsumers o
          ∧ MetaData_ o' = MetaData_ o ∧ Status_ o' = Status_ o
          ∧ Destinations o' = Destinations o))
  ∧ (objects store !! createObjectCollectionID orgID objectType objectID = None →
     DecrementAndReturnRemainingConsumers orgID objectType objectID store
     = (0, Some (Error "Failed to decrement object's remaining consumers."), store)
     ∧ DecrementAndReturnRemainingReceivers orgID objectType objectID store
       = (0, Some (Error "Failed to decrement object's remaining receivers."), store)).
Proof.
  split.
  - intros o Ho. split.
    + rewrite (DecrementAndReturnRemainingConsumers_found _ _ _ _ _ Ho).
      eexists _, _. split; [done|]. cbn [objects with_serverTime with_objects].
      rewrite lookup_insert_eq. done.
    + rewrite (DecrementAndReturnRemainingReceivers_found _ _ _ _ _ Ho).
      eexists _, _. split; [done|]. cbn [objects with_serverTime with_objects].
      rewrite lookup_insert_eq. done.
  - intros Ho. unfold DecrementAndReturnRemainingConsumers,
      DecrementAndReturnRemainingReceivers.
    by rewrite !updateObjects_None by done.
Qed.

Lemma decrement_counters_witness :
  ∃ store' o',
    DecrementAndReturnRemainingConsumers "O" "T1" "X" autoDeleteStore = (1, None, store')
    ∧ objects store' !! "O:T1:X" = Some o'
    ∧ RemainingConsumers o' = 1
    ∧ RemainingReceivers o' = 2
    ∧ MetaData_ o' = autoDeleteMetaData ∧ Status_ o' = ReadyToSend
    ∧ Destinations o' = [destination1; destination2].
Proof.
  apply (proj1 (proj1 (decrement_counters "O" "T1" "X" autoDeleteStore) autoDeleteObject
                  eq_refl)).
Defined.

(** X2.  After a successful [StoreObject], [n] calls of
    [DecrementAndReturnRemainingConsumers] for the object return
    [expectedConsumers - 1], ..., [expectedConsumers - n] without an error,
    in this order, and do not touch [remainingReceivers].  A
    [ResetObjectRemainingConsumers] after them puts [remainingConsumers] back
    to [expectedConsumers]. *)
Theorem decrements_after_StoreObject
    (metaData : MetaData) (data : option (list byte)) (status : string) (now : Z)
    (store store1 : MongoStorage) (n : nat) :
  StoreObject metaData data status now store = (None, store1) →
  ∃ store2 store3 o3,
    decrements (DestOrgID metaData) (ObjectType metaData) (ObjectID metaData) n store1
    = ((λ i : nat, (ExpectedConsumers metaData - Z.of_nat (S i), None)) <$> seq 0 n, store2)
    ∧ (RemainingReceivers <$> objects store2 !! getObjectCollectionID metaData)
      = Some (ExpectedConsumers metaData)
    ∧ ResetObjectRemainingConsumers (DestOrgID metaData) (ObjectType metaData)
        (ObjectID metaData) store2 = (None, store3)
    ∧ objects store3 !! getObjectCollectionID metaData = Some o3
    ∧ RemainingConsumers o3 = ExpectedConsumers metaData
    ∧ RemainingReceivers o3 = ExpectedConsumers metaData.
Proof.
  intros Hstore.
  assert (∃ o, objects store1 !! getObjectCollectionID metaData = Some o
               ∧ RemainingConsumers o = ExpectedConsumers metaData
               ∧ RemainingReceivers o = ExpectedConsumers metaData
               ∧ ExpectedConsumers (MetaData_ o) = ExpectedConsumers metaData)
    as (o & Ho & Hc & Hr & He).
  { revert Hstore. unfold StoreObject.
    destruct data as [data|]; cbn [storeDataInFile].
    all: repeat case_match; intros; simplify_eq/=.
    all: unfold upsert in *; repeat case_match; simplify_eq/=.
    all: rewrite lookup_insert_eq; eexists; split; [done|]; done. }
  destruct (decrements_found (DestOrgID metaData) (ObjectType metaData) (ObjectID metaData)
              n store1 o Ho) as (store2 & o2 & Hrun & Ho2 & Hc2 & Hr2 & Hm2).
  destruct (ResetObjectRemainingConsumers_spec _ _ _ _ _ Ho2) as (store3 & Hreset & Ho3).
  exists store2, store3. eexists. rewrite Hrun, Hc.
  split; [done|]. unfold getObjectCollectionID. rewrite Ho2. cbn [fmap option_fmap option_map].
  split; [by rewrite Hr2, Hr|]. split; [exact Hreset|]. split; [exact Ho3|].
  cbn [RemainingConsumers RemainingReceivers setLastUpdate setRemainingConsumers].
  by rewrite Hm2, He, Hr2, Hr.
Qed.

(** The first scenario of the spec: two expected consumers, two decrements
    return 1 and 0. *)
Lemma decrements_after_StoreObject_witness :
  ∃ store2 store3 o3,
    decrements "O" "T1" "X" 2 (StoreObject autoDeleteMetaData (Some [x01; x02; x03])
                                 ReadyToSend 9 emptyStore).2
    = ([(1, None); (0, None)], store2)
    ∧ (RemainingReceivers <$> objects store2 !! "O:T1:X") = Some 2
    ∧ ResetObjectRemainingConsumers "O" "T1" "X" store2 = (None, store3)
    ∧ objects store3 !! "O:T1:X" = Some o3
    ∧ RemainingConsumers o3 = 2
    ∧ RemainingReceivers o3 = 2.
Proof.
  apply (decrements_after_StoreObject autoDeleteMetaData (Some [x01; x02; x03]) ReadyToSend 9
           emptyStore _ 2).
  reflexivity.
Defined.

(** ** Delivering *)

Lemma UpdateObjectDelivering_found orgID objectType objectID store o :
  objects store !! createObjectCollectionID orgID objectType objectID = Some o →
  UpdateObjectDelivering orgID objectType objectID store
  = (None,
     with_serverTime (currentDate store)
       (with_objects
          (<[createObjectCollectionID orgID objectType objectID :=
               setLastUpdate (currentDate store)
                 (setDestinations
                    ((λ d, {| Destination_ := Destination_ d; Status := Delivering;
                              Message := Message d |}) <$> Destinations o) o)]>
             (objects store)) store)).
Proof.
  intros Ho. unfold UpdateObjectDelivering, maxUpdateTries.
  cbn [updateObjectDeliveringLoop]. unfold fetchOne. rewrite Ho.
  by erewrite updateObjects_Some by (done || apply Z.eqb_refl).
Qed.

(** X3.  On a stored object [UpdateObjectDelivering] returns nil and stores
    the destinations list with every status set to Delivering, the
    destinations themselves and their messages as they were and in the same
    order; the meta data, the status and the counters of the object are not
    changed, and [GetObjectDestinationsList] then returns that list.  On a
    key without an object it returns an error and changes nothing. *)
Theorem UpdateObjectDelivering_spec
    (orgID objectType objectID : string) (store : MongoStorage) :
  (∀ o, objects store !! createObjectCollectionID orgID objectType objectID = Some o →
     ∃ store' o',
       UpdateObjectDelivering orgID objectType objectID store = (None, store')
       ∧ objects store' !! createObjectCollectionID orgID objectType objectID = Some o'
       ∧ Destination_ <$> Destinations o' = Destination_ <$> Destinations o
       ∧ Message <$> Destinations o' = Message <$> Destinations o
       ∧ Forall (λ d, Status d = Delivering) (Destinations o')
       ∧ MetaData_ o' = MetaData_ o ∧ Status_ o' = Status_ o
       ∧ RemainingConsumers o' = RemainingConsumers o
       ∧ RemainingReceivers o' = RemainingReceivers o
       ∧ GetObjectDestinationsList orgID objectType objectID store'
         = (Some (Destinations o'), None))
  ∧ (objects store !! createObjectCollectionID orgID objectType objectID = None →
     UpdateObjectDelivering orgID objectType objectID store
     = (Some (Error "Failed to retrieve object."), store)).
Proof.
  split.
  - intros o Ho. rewrite (UpdateObjectDelivering_found _ _ _ _ _ Ho).
    eexists _, _. split; [done|].
    unfold GetObjectDestinationsList, fetchOne.
    cbn [objects with_serverTime with_objects]. rewrite lookup_insert_eq.
    split; [done|]. cbn [Destinations setLastUpdate setDestinations].
    rewrite <- !list_fmap_compose.
    split; [done|]. split; [done|]. split; [|done].
    apply Forall_fmap, Forall_forall. done.
  - intros Ho. unfold UpdateObjectDelivering, maxUpdateTries.
    cbn [updateObjectDeliveringLoop]. unfold fetchOne. by rewrite Ho.
Qed.

Lemma UpdateObjectDelivering_spec_witness :
  ∃ store' o',
    UpdateObjectDelivering "O" "T1" "X" autoDeleteStore = (None, store')
    ∧ objects store' !! "O:T1:X" = Some o'
    ∧ Destination_ <$> Destinations o' = Destination_ <$> [destination1; destination2]
    ∧ Message <$> Destinations o' = Message <$> [destination1; destination2]
    ∧ Forall (λ d, Status d = Delivering) (Destinations o')
    ∧ MetaData_ o' = autoDeleteMetaData ∧ Status_ o' = ReadyToSend
    ∧ RemainingConsumers o' = 2
    ∧ RemainingReceivers o' = 2
    ∧ GetObjectDestinationsList "O" "T1" "X" store' = (Some (Destinations o'), None).
Proof.
  apply (proj1 (UpdateObjectDelivering_spec "O" "T1" "X" autoDeleteStore) autoDeleteObject).
  reflexivity.
Defined.

(** ** Storing and retrieving an object *)

Lemma StoreObject_succeeds metaData data status now store :
  (∀ o, objects store !! getObjectCollectionID metaData = Some o →
        DestOrgID (MetaData_ o) = DestOrgID metaData) →
  ∃ store1 metaData1,
    StoreObject metaData data status now store = (None, store1)
    ∧ (status = NotReadyToSend ∨ status = ReadyToSend →
       metaData1 = setInstanceID now metaData)
    ∧ (status ≠ NotReadyToSend → status ≠ ReadyToSend → metaData1 = metaData)
    ∧ (∃ dests,
         objects store1 !! getObjectCollectionID metaData
         = Some {| ID := getObjectCollectionID metaData; MetaData_ := metaData1;
                   Status_ := status; RemainingConsumers := ExpectedConsumers metaData;
                   RemainingReceivers := ExpectedConsumers metaData;
                   Destinations := dests; LastUpdate := 0 |})
    ∧ gridfs store1 !! getObjectCollectionID metaData
      = match data with
        | Some d => Some d
        | None =>
          if negb (MetaOnly metaData) || NoData metaData then None
          else gridfs store !! getObjectCollectionID metaData
        end
    ∧ openFiles store1 = openFiles store.
Proof.
  intros Hwf. unfold StoreObject.
  set (id := getObjectCollectionID metaData) in *.
  set (store0 :=
         match data with
         | Some data => storeDataInFile id data store
         | None => if negb (MetaOnly metaData) || NoData metaData
                   then (None, removeFile id store) else (None, store)
         end).
  assert (store0.1 = None ∧ objects store0.2 = objects store
          ∧ openFiles store0.2 = openFiles store
          ∧ destinations store0.2 = destinations store
          ∧ gridfs store0.2 !! id
            = match data with
              | Some d => Some d
              | None => if negb (MetaOnly metaData) || NoData metaData then None
                        else gridfs store !! id
              end) as (He & Ho & Hf & Hd & Hg).
  { subst store0. destruct data as [d|]; [|destruct (negb _ || _)].
    - cbn. by rewrite lookup_insert_eq.
    - cbn. by rewrite lookup_delete_eq.
    - done. }
  destruct store0 as [err store0']. cbn [fst snd] in *. subst err.
  destruct (decide (status = NotReadyToSend ∨ status = ReadyToSend)) as [Horigin|Horigin].
  - assert (bool_decide (status = NotReadyToSend) || bool_decide (status = ReadyToSend) = true)
      as ->.
    { apply orb_true_iff. rewrite !bool_decide_eq_true. done. }
    assert (upsert (objects store0') id
              (λ o, bool_decide (DestOrgID (MetaData_ o)
                                 = DestOrgID (setInstanceID now metaData)))
              {| ID := id; MetaData_ := setInstanceID now metaData; Status_ := status;
                 RemainingConsumers := ExpectedConsumers (setInstanceID now metaData);
                 RemainingReceivers := ExpectedConsumers (setInstanceID now metaData);
                 Destinations := createDestinations (setInstanceID now metaData) store0';
                 LastUpdate := 0 |}
            = inr (<[id := {| ID := id; MetaData_ := setInstanceID now metaData;
                              Status_ := status;
                              RemainingConsumers := ExpectedConsumers metaData;
                              RemainingReceivers := ExpectedConsumers metaData;
                              Destinations :=
                                createDestinations (setInstanceID now metaData) store0';
                              LastUpdate := 0 |}]> (objects store0'))) as ->.
    { unfold upsert. rewrite Ho. destruct (objects store !! id) as [o|] eqn:Hid; [|done].
      cbn [DestOrgID setInstanceID]. by rewrite bool_decide_eq_true_2 by by apply Hwf. }
    eexists _, (setInstanceID now metaData). split; [done|].
    split; [done|]. split; [tauto|]. cbn [objects gridfs openFiles with_objects].
    rewrite lookup_insert_eq. split; [by eexists|]. done.
  - assert (bool_decide (status = NotReadyToSend) || bool_decide (status = ReadyToSend) = false)
      as ->.
    { apply orb_false_iff. rewrite !bool_decide_eq_false. tauto. }
    assert (upsert (objects store0') id
              (λ o, bool_decide (DestOrgID (MetaData_ o) = DestOrgID metaData))
              {| ID := id; MetaData_ := metaData; Status_ := status;
                 RemainingConsumers := ExpectedConsumers metaData;
                 RemainingReceivers := ExpectedConsumers metaData;
                 Destinations := []; LastUpdate := 0 |}
            = inr (<[id := {| ID := id; MetaData_ := metaData; Status_ := status;
                              RemainingConsumers := ExpectedConsumers metaData;
                              RemainingReceivers := ExpectedConsumers metaData;
                              Destinations := []; LastUpdate := 0 |}]> (objects store0')))
      as ->.
    { unfold upsert. rewrite Ho. destruct (objects store !! id) as [o|] eqn:Hid; [|done].
      by rewrite bool_decide_eq_true_2 by by apply Hwf. }
    eexists _, metaData. split; [done|].
    split; [tauto|]. split; [done|]. cbn [objects gridfs openFiles with_objects].
    rewrite lookup_insert_eq. split; [by eexists|]. done.
Qed.

Lemma RetrieveObjectData_found orgID objectType objectID store b :
  gridfs store !! createObjectCollectionID orgID objectType objectID = Some b →
  RetrieveObjectData orgID objectType objectID store
  = (Some (GridFileReader
             {| Id := createObjectCollectionID orgID objectType objectID; content := b |}),
     None,
     putFileHandle (createObjectCollectionID orgID objectType objectID)
       (fresh (dom (handles store)))
       (with_handles
          (<[fresh (dom (handles store)) :=
               {| file := {| Id := createObjectCollectionID orgID objectType objectID;
                             content := b |};
                  offset := 0; chunks := None |}]> (handles store)) store)).
Proof.
  intros Hb. unfold RetrieveObjectData, openFile. rewrite Hb.
  unfold deref. cbn [handles putFileHandle with_openFiles with_handles].
  by rewrite lookup_total_insert_eq.
Qed.

Lemma RetrieveObjectData_absent orgID objectType objectID store :
  gridfs store !! createObjectCollectionID orgID objectType objectID = None →
  RetrieveObjectData orgID objectType objectID store = (None, None, store).
Proof. intros Hb. unfold RetrieveObjectData, openFile. by rewrite Hb. Qed.

(** X4.  [StoreObject] succeeds unless the key holds an object of another
    organization.  After it, [RetrieveObjectAndStatus], [RetrieveObject],
    [RetrieveObjectStatus] and [RetrieveObjectRemainingConsumers] return,
    without an error, the status that was stored, [expectedConsumers], and
    the meta data that was stored: the meta data given, with [instanceID]
    replaced by the current time when the status is NotReadyToSend or
    ReadyToSend, and unchanged for any other status.  When data was given,
    [RetrieveObjectData] returns a reader of exactly these bytes. *)
Theorem StoreObject_then_retrieve
    (metaData : MetaData) (data : option (list byte)) (status : string) (now : Z)
    (store : MongoStorage) :
  (∀ o, objects store !! getObjectCollectionID metaData = Some o →
        DestOrgID (MetaData_ o) = DestOrgID metaData) →
  ∃ store1 metaData1,
    StoreObject metaData data status now store = (None, store1)
    ∧ (status = NotReadyToSend ∨ status = ReadyToSend →
       metaData1 = setInstanceID now metaData)
    ∧ (status ≠ NotReadyToSend → status ≠ ReadyToSend → metaData1 = metaData)
    ∧ RetrieveObjectAndStatus (DestOrgID metaData) (ObjectType metaData) (ObjectID metaData)
        store1 = (Some metaData1, status, None)
    ∧ RetrieveObject (DestOrgID metaData) (ObjectType metaData) (ObjectID metaData) store1
      = (Some metaData1, None)
    ∧ RetrieveObjectStatus (DestOrgID metaData) (ObjectType metaData) (ObjectID metaData)
        store1 = (status, None)
    ∧ RetrieveObjectRemainingConsumers (DestOrgID metaData) (ObjectType metaData)
        (ObjectID metaData) store1 = (ExpectedConsumers metaData, None)
    ∧ (∀ d, data = Some d →
         (RetrieveObjectData (DestOrgID metaData) (ObjectType metaData) (ObjectID metaData)
            store1).1
         = (Some (GridFileReader {| Id := getObjectCollectionID metaData; content := d |}),
            None)).
Proof.
  intros Hwf.
  destruct (StoreObject_succeeds metaData data status now store Hwf)
    as (store1 & metaData1 & Hrun & H1 & H2 & [dests Ho] & Hg & _).
  exists store1, metaData1. split; [exact Hrun|]. split; [exact H1|]. split; [exact H2|].
  unfold getObjectCollectionID in Ho, Hg.
  unfold RetrieveObjectAndStatus, RetrieveObject, RetrieveObjectStatus,
    RetrieveObjectRemainingConsumers, fetchOne. rewrite Ho. cbn [MetaData_ Status_
    RemainingConsumers]. repeat (split; [done|]).
  intros d ->. by rewrite (RetrieveObjectData_found _ _ _ _ _ Hg).
Qed.

(** The first scenario of the spec: three bytes stored with the object are
    the bytes of the reader. *)
Lemma StoreObject_then_retrieve_witness :
  ∃ store1,
    StoreObject autoDeleteMetaData (Some [x01; x02; x03]) ReadyToSend 9 emptyStore
    = (None, store1)
    ∧ RetrieveObjectAndStatus "O" "T1" "X" store1
      = (Some (setInstanceID 9 autoDeleteMetaData), ReadyToSend, None)
    ∧ (RetrieveObjectData "O" "T1" "X" store1).1
      = (Some (GridFileReader {| Id := "O:T1:X"; content := [x01; x02; x03] |}), None).
Proof.
  destruct (StoreObject_then_retrieve autoDeleteMetaData (Some [x01; x02; x03]) ReadyToSend 9
              emptyStore) as (store1 & metaData1 & Hrun & H1 & _ & H2 & _ & _ & _ & H3).
  - intros o Ho. discriminate Ho.
  - exists store1. split; [exact Hrun|]. rewrite <- (H1 (or_intror eq_refl)).
    split; [exact H2|]. by apply H3.
Defined.

(** ** Received and deleted objects *)

Lemma RetrieveUpdatedObjects_elem orgID objectType received store m :
  m ∈ default [] (RetrieveUpdatedObjects orgID objectType received store).1 ↔
  ∃ id o, objects store !! id = Some o ∧ MetaData_ o = m
          ∧ DestOrgID m = orgID ∧ ObjectType m = objectType
          ∧ (Status_ o ∈ [CompletelyReceived; ObjDeleted]
             ∨ received = true ∧ Status_ o = ObjReceived).
Proof.
  unfold RetrieveUpdatedObjects. cbn [fst default from_option id].
  rewrite list_elem_of_fmap. setoid_rewrite fetchAllOf_elem.
  destruct received.
  - split.
    + intros (o & -> & id & Hid & Hm). exists id, o. split; [done|]. split; [done|].
      revert Hm. object_query_to_prop. tauto.
    + intros (id & o & Hid & <- & Hc). exists o. split; [done|]. exists id. split; [done|].
      revert Hc. object_query_to_prop. tauto.
  - split.
    + intros (o & -> & id & Hid & Hm). exists id, o. split; [done|]. split; [done|].
      revert Hm. object_query_to_prop. tauto.
    + intros (id & o & Hid & <- & Hc). exists o. split; [done|]. exists id. split; [done|].
      revert Hc. object_query_to_prop. intuition congruence.
Qed.

(** X5.  [RetrieveUpdatedObjects] returns no error and exactly the meta data
    of the stored objects of the organization and object type given whose
    status is CompletelyReceived or ObjDeleted, and, when [received] is
    true, also of those whose status is ObjReceived. *)
Theorem RetrieveUpdatedObjects_spec
    (orgID objectType : string) (received : bool) (store : MongoStorage) (m : MetaData) :
  ∃ metaDatas,
    RetrieveUpdatedObjects orgID objectType received store = (Some metaDatas, None)
    ∧ (m ∈ metaDatas ↔
       ∃ id o, objects store !! id = Some o ∧ MetaData_ o = m
               ∧ DestOrgID m = orgID ∧ ObjectType m = objectType
               ∧ (Status_ o ∈ [CompletelyReceived; ObjDeleted]
                  ∨ received = true ∧ Status_ o = ObjReceived)).
Proof.
  eexists. split; [reflexivity|].
  apply (RetrieveUpdatedObjects_elem orgID objectType received store m).
Qed.

Lemma MarkObjectDeleted_found orgID objectType objectID store o :
  objects store !! createObjectCollectionID orgID objectType objectID = Some o →
  MarkObjectDeleted orgID objectType objectID store
  = (None,
     with_serverTime (currentDate store)
       (with_objects
          (<[createObjectCollectionID orgID objectType objectID :=
               setLastUpdate (currentDate store)
                 (setMetaData (setDeleted true (MetaData_ o)) (setStatus ObjDeleted o))]>
             (objects store)) store)).
Proof.
  intros Ho. unfold MarkObjectDeleted. by erewrite updateObjects_Some by done.
Qed.

(** X6.  On a stored object [MarkObjectDeleted] returns nil, sets the status
    to ObjDeleted and [metadata.deleted] to true and leaves the rest of the
    meta data, the counters and the destinations as they were; the object is
    then among the updated objects of its organization and type, whether
    [received] is asked for or not.  On a key without an object it returns
    an error and changes nothing. *)
Theorem MarkObjectDeleted_spec
    (orgID objectType objectID : string) (store : MongoStorage) :
  (∀ o, objects store !! createObjectCollectionID orgID objectType objectID = Some o →
     ∃ store' o',
       MarkObjectDeleted orgID objectType objectID store = (None, store')
       ∧ objects store' !! createObjectCollectionID orgID objectType objectID = Some o'
       ∧ Status_ o' = ObjDeleted
       ∧ MetaData_ o' = setDeleted true (MetaData_ o)
       ∧ RemainingConsumers o' = RemainingConsumers o
       ∧ RemainingReceivers o' = RemainingReceivers o
       ∧ Destinations o' = Destinations o
       ∧ ∀ received,
           MetaData_ o'
           ∈ default [] (RetrieveUpdatedObjects (DestOrgID (MetaData_ o))
                           (ObjectType (MetaData_ o)) received store').1)
  ∧ (objects store !! createObjectCollectionID orgID objectType objectID = None →
     MarkObjectDeleted orgID objectType objectID store
     = (Some (Error "Failed to mark object as deleted."), store)).
Proof.
  split.
  - intros o Ho. rewrite (MarkObjectDeleted_found _ _ _ _ _ Ho).
    eexists _, _. split; [done|]. cbn [objects with_serverTime with_objects].
    rewrite lookup_insert_eq. split; [done|]. repeat (split; [done|]).
    intros received. apply RetrieveUpdatedObjects_elem.
    eexists _, _. cbn [objects with_serverTime with_objects].
    split; [apply lookup_insert_eq|]. split; [done|]. split; [done|]. split; [done|].
    left. cbn [Status_ setLastUpdate setMetaData setStatus]. rewrite !elem_of_cons. tauto.
  - intros Ho. unfold MarkObjectDeleted. by rewrite updateObjects_None.
Qed.

Lemma MarkObjectDeleted_spec_witness :
  ∃ store' o',
    MarkObjectDeleted "O" "T1" "X" autoDeleteStore = (None, store')
    ∧ objects store' !! "O:T1:X" = Some o'
    ∧ Status_ o' = ObjDeleted
    ∧ MetaData_ o' = setDeleted true autoDeleteMetaData
    ∧ RemainingConsumers o' = 2
    ∧ RemainingReceivers o' = 2
    ∧ Destinations o' = [destination1; destination2]
    ∧ ∀ received,
        MetaData_ o' ∈ default [] (RetrieveUpdatedObjects "O" "T1" received store').1.
Proof.
  apply (proj1 (MarkObjectDeleted_spec "O" "T1" "X" autoDeleteStore) autoDeleteObject).
  reflexivity.
Defined.

(** ** Deleting an object and its payload *)

(** X7.  [DeleteStoredObject] returns nil whether or not the object exists;
    after it neither the object document nor the payload is stored under
    the key, every other object and payload is as before, and the
    notifications, the destinations and the open file handles are not
    touched.  [RetrieveObject] then answers nil without an error,
    [ReadObjectData] answers an error, and a second [DeleteStoredObject]
    changes nothing.  [DeleteStoredData] removes the payload only: the
    object document, with its [objectSize], stays as it was. *)
Theorem DeleteStoredObject_spec
    (orgID objectType objectID : string) (store : MongoStorage) (size offset_ : Z) :
  ∃ store1 store2,
    DeleteStoredObject orgID objectType objectID store = (None, store1)
    ∧ objects store1 = delete (createObjectCollectionID orgID objectType objectID)
                         (objects store)
    ∧ gridfs store1 = delete (createObjectCollectionID orgID objectType objectID)
                        (gridfs store)
    ∧ notifications store1 = notifications store
    ∧ destinations store1 = destinations store
    ∧ openFiles store1 = openFiles store
    ∧ RetrieveObject orgID objectType objectID store1 = (None, None)
    ∧ ReadObjectData orgID objectType objectID size offset_ store1
      = Returns (None, true, 0, Some (Error "Failed to open file to read the data."))
    ∧ DeleteStoredObject orgID objectType objectID store1 = (None, store1)
    ∧ DeleteStoredData orgID objectType objectID store = (None, store2)
    ∧ gridfs store2 = delete (createObjectCollectionID orgID objectType objectID)
                        (gridfs store)
    ∧ objects store2 = objects store
    ∧ RetrieveObjectData orgID objectType objectID store2 = (None, None, store2).
Proof.
  eexists _, _. split; [reflexivity|].
  cbn [objects gridfs notifications destinations openFiles with_objects removeFile
       with_gridfs].
  rewrite removeAll_id. repeat (split; [reflexivity|]).
  split.
  { unfold RetrieveObject, fetchOne. cbn [objects with_objects].
    by rewrite lookup_delete_eq. }
  split.
  { unfold ReadObjectData, openFile. cbn [gridfs with_objects removeFile with_gridfs].
    by rewrite lookup_delete_eq. }
  split.
  { unfold DeleteStoredObject, removeFile, with_objects, with_gridfs.
    cbn [openFiles handles gridfs objects destinations notifications leader serverTime].
    by rewrite !removeAll_id, !delete_delete_eq. }
  split; [reflexivity|]. cbn [objects gridfs removeFile with_gridfs].
  split; [reflexivity|]. split; [reflexivity|].
  apply RetrieveObjectData_absent. cbn [gridfs with_gridfs]. apply lookup_delete_eq.
Qed.

(** ** Reading a payload *)

Lemma Read_within (r : Reader) size :
  0 < size ≤ len r →
  Read r size = (take (Z.to_nat size) r, size, None).
Proof.
  intros Hs. unfold Read.
  assert (length (take (Z.to_nat size) r) = Z.to_nat size) as Hlen.
  { rewrite length_take. unfold len in Hs. lia. }
  rewrite Hlen, Nat.sub_diag. cbn [replicate]. rewrite app_nil_r.
  destruct r as [|x r]; [unfold len in Hs; simpl in Hs; lia|].
  unfold len. rewrite Hlen. f_equal. f_equal. lia.
Qed.

Lemma ReadObjectData_in_range orgID objectType objectID size offset_ store b :
  gridfs store !! createObjectCollectionID orgID objectType objectID = Some b →
  0 ≤ offset_ < len b →
  0 ≤ size →
  ReadObjectData orgID objectType objectID size offset_ store
  = Returns (Some (take (Z.to_nat size) (drop (Z.to_nat offset_) b)),
             bool_decide (len b ≤ offset_ + size), Z.min size (len b - offset_), None).
Proof.
  intros Hb Hoff Hsize. unfold ReadObjectData, openFile. rewrite Hb.
  unfold Size, Seek, ReadFile. cbn [file content].
  rewrite (proj2 (Z.leb_gt _ _)) by lia.
  unfold Size. cbn [content].
  rewrite (proj2 (Z.ltb_ge _ _)) by lia. rewrite (proj2 (Z.ltb_ge _ _)) by lia.
  cbn [orb].
  assert (len (drop (Z.to_nat offset_) b) = len b - offset_) as Hrest.
  { unfold len in *. rewrite length_drop. lia. }
  destruct (Z.ltb_spec (len b - offset_) size) as [Hshort|Hlong].
  - unfold make. rewrite (proj2 (Z.ltb_ge _ _)) by lia.
    rewrite Read_within by lia. rewrite Z.eqb_refl.
    rewrite Z.min_r by lia. rewrite bool_decide_eq_true_2 by lia.
    do 4 f_equal.
    rewrite !take_ge; [done| |]; unfold len in *; lia.
  - unfold make. rewrite (proj2 (Z.ltb_ge _ _)) by lia.
    destruct (decide (size = 0)) as [->|Hpos].
    + unfold Read. change (Z.to_nat 0) with 0%nat. rewrite take_0.
      cbn [length Nat.sub replicate app]. change (len (@nil byte)) with 0.
      destruct (drop (Z.to_nat offset_) b) as [|x r] eqn:Hr.
      { unfold len in *. simpl in Hrest. lia. }
      rewrite (proj2 (Z.eqb_neq _ _)) by lia.
      rewrite bool_decide_eq_false_2 by lia. rewrite Z.min_l by lia. done.
    + rewrite Read_within by lia. rewrite Z.min_l by lia.
      destruct (decide (len b - offset_ = size)) as [Heq|Hne].
      * rewrite (proj2 (Z.eqb_eq _ _)) by done. by rewrite bool_decide_eq_true_2 by lia.
      * rewrite (proj2 (Z.eqb_neq _ _)) by done. by rewrite bool_decide_eq_false_2 by lia.
Qed.

(** X8.  For a stored payload of [S] bytes, [ReadObjectData] at an offset
    from 0 to below [S] with a size that is not negative returns, without an
    error, the bytes from the offset on, at most [size] of them and exactly
    as many as it reports in [n], which is the smaller of [size] and
    [S - offset]; [eof] is true exactly when the read reaches the end of the
    payload, that is when [S ≤ offset + size].  With a negative size the
    call panics. *)
Theorem ReadObjectData_within_blob
    (orgID objectType objectID : string) (size offset_ : Z) (store : MongoStorage)
    (b : list byte) :
  gridfs store !! createObjectCollectionID orgID objectType objectID = Some b →
  0 ≤ offset_ < len b →
  (0 ≤ size →
   ∃ bytes n,
     ReadObjectData orgID objectType objectID size offset_ store
     = Returns (Some bytes, bool_decide (len b ≤ offset_ + size), n, None)
     ∧ n = Z.min size (len b - offset_)
     ∧ len bytes = n
     ∧ bytes = take (Z.to_nat n) (drop (Z.to_nat offset_) b))
  ∧ (size < 0 → ReadObjectData orgID objectType objectID size offset_ store = Panics).
Proof.
  intros Hb Hoff. split.
  - intros Hsize. rewrite (ReadObjectData_in_range _ _ _ _ _ _ _ Hb Hoff Hsize).
    eexists _, _. split; [done|]. split; [done|].
    assert (length (drop (Z.to_nat offset_) b) = Z.to_nat (len b - offset_)) as Hrest.
    { unfold len in *. rewrite length_drop. lia. }
    split.
    + unfold len at 1. rewrite length_take, Hrest. lia.
    + destruct (Z.le_ge_cases size (len b - offset_)).
      * by rewrite Z.min_l by lia.
      * rewrite Z.min_r by lia. rewrite !take_ge; [done| |]; lia.
  - intros Hneg. unfold ReadObjectData, openFile. rewrite Hb.
    unfold Size, Seek. cbn [file content].
    rewrite (proj2 (Z.leb_gt _ _)) by lia.
    unfold Size. cbn [content].
    rewrite (proj2 (Z.ltb_ge _ _)) by lia. rewrite (proj2 (Z.ltb_ge _ _)) by lia.
    cbn [orb]. rewrite (proj2 (Z.ltb_ge _ _)) by lia.
    unfold make. by rewrite (proj2 (Z.ltb_lt _ _)) by lia.
Qed.

Lemma ReadObjectData_within_blob_witness :
  ∃ bytes n,
    ReadObjectData "O" "T" "X" 5 1 blobStore
    = Returns (Some bytes, bool_decide (len [x41; x42] ≤ 1 + 5), n, None)
    ∧ n = Z.min 5 (len [x41; x42] - 1)
    ∧ len bytes = n
    ∧ bytes = take (Z.to_nat n) (drop (Z.to_nat 1) [x41; x42]).
Proof.
  destruct (ReadObjectData_within_blob "O" "T" "X" 5 1 blobStore [x41; x42]) as [H _].
  - reflexivity.
  - unfold len. simpl. lia.
  - apply H. lia.
Defined.

(** ** The reader of a payload *)

(** X9.  For a published payload [RetrieveObjectData] returns a reader of
    its bytes and registers a handle for the key in [openFiles];
    [CloseDataReader] on that reader returns nil and removes the handle, and
    the payloads and the collections are as before the two calls.  A chunk
    of an upload of the same object that arrives after the reader was
    closed, and is not flagged as first chunk, is refused because the file
    handle is gone.  Without a payload [RetrieveObjectData] returns no
    reader, no error, and changes nothing. *)
Theorem RetrieveObjectData_then_close
    (orgID objectType objectID : string) (store : MongoStorage) :
  (∀ b, gridfs store !! createObjectCollectionID orgID objectType objectID = Some b →
     ∃ store1 store2 p,
       RetrieveObjectData orgID objectType objectID store
       = (Some (GridFileReader
                  {| Id := createObjectCollectionID orgID objectType objectID;
                     content := b |}), None, store1)
       ∧ openFiles store1 !! createObjectCollectionID orgID objectType objectID = Some p
       ∧ handles store1 !! p
         = Some {| file := {| Id := createObjectCollectionID orgID objectType objectID;
                              content := b |};
                   offset := 0; chunks := None |}
       ∧ CloseDataReader
           (GridFileReader {| Id := createObjectCollectionID orgID objectType objectID;
                              content := b |}) store1 = (None, store2)
       ∧ openFiles store2 !! createObjectCollectionID orgID objectType objectID = None
       ∧ gridfs store2 = gridfs store ∧ objects store2 = objects store
       ∧ ∀ dataReader dataLength offset_ total isLastChunk,
           AppendObjectData orgID objectType objectID dataReader dataLength offset_ total
             false isLastChunk store2
           = (Some (Error "Failed to append the data, the file doesn't exist."), store2))
  ∧ (gridfs store !! createObjectCollectionID orgID objectType objectID = None →
     RetrieveObjectData orgID objectType objectID store = (None, None, store)).
Proof.
  split; [|apply RetrieveObjectData_absent].
  intros b Hb. rewrite (RetrieveObjectData_found _ _ _ _ _ Hb).
  eexists _, _, _. split; [done|].
  cbn [openFiles handles putFileHandle with_openFiles with_handles].
  split; [apply lookup_insert_eq|]. split; [apply lookup_insert_eq|].
  unfold CloseDataReader, getFileHandle. cbn [Id openFiles putFileHandle with_openFiles
    with_handles]. rewrite lookup_insert_eq. split; [done|].
  cbn [openFiles gridfs objects deleteFileHandle putFileHandle with_openFiles with_handles].
  split; [apply lookup_delete_eq|]. split; [done|]. split; [done|].
  intros dataReader dataLength offset_ total isLastChunk.
  unfold AppendObjectData, getFileHandle.
  cbn [openFiles deleteFileHandle putFileHandle with_openFiles with_handles].
  by rewrite lookup_delete_eq.
Qed.

Lemma RetrieveObjectData_then_close_witness :
  ∃ store1 store2 p,
    RetrieveObjectData "O" "T" "X" blobStore
    = (Some (GridFileReader {| Id := "O:T:X"; content := [x41; x42] |}), None, store1)
    ∧ openFiles store1 !! "O:T:X" = Some p
    ∧ handles store1 !! p
      = Some {| file := {| Id := "O:T:X"; content := [x41; x42] |};
                offset := 0; chunks := None |}
    ∧ CloseDataReader (GridFileReader {| Id := "O:T:X"; content := [x41; x42] |}) store1
      = (None, store2)
    ∧ openFiles store2 !! "O:T:X" = None
    ∧ gridfs store2 = gridfs blobStore ∧ objects store2 = objects blobStore
    ∧ ∀ dataReader dataLength offset_ total isLastChunk,
        AppendObjectData "O" "T" "X" dataReader dataLength offset_ total false isLastChunk
          store2
        = (Some (Error "Failed to append the data, the file doesn't exist."), store2).
Proof.
  apply (proj1 (RetrieveObjectData_then_close "O" "T" "X" blobStore) [x41; x42]).
  reflexivity.
Defined.

(** ** Destinations *)

Lemma Is_destination_org kd t :
  bool_decide (docField destinationField kd "destination.destination-org-id"
               = Some (VString t)) = true
  ↔ dDestOrgID (doDestination kd.2) = t.
Proof. by apply Is_string_true. Qed.

Lemma Is_destination_type kd t :
  bool_decide (docField destinationField kd "destination.destination-type"
               = Some (VString t)) = true
  ↔ dDestType (doDestination kd.2) = t.
Proof. by apply Is_string_true. Qed.

Ltac destination_query_to_prop :=
  cbn [matches existsb forallb];
  rewrite ?orb_false_r, ?andb_true_r;
  repeat (rewrite orb_true_iff || rewrite andb_true_iff);
  rewrite ?Is_destination_org, ?Is_destination_type; cbn [snd].

(** X10.  [StoreDestination] succeeds unless the key holds a destination of
    another organization.  After it [DestinationExists] is true,
    [RetrieveDestination] returns the destination that was stored and
    [RetrieveDestinationProtocol] its communication protocol.  After
    [DeleteDestination], which returns nil, [DestinationExists] is false
    without an error, [RetrieveDestination] is an error, and the other
    destinations are the ones from before the two calls. *)
Theorem StoreDestination_round_trip (destination : Destination) (store : MongoStorage) :
  (∀ d, destinations store !! getDestinationCollectionID destination = Some d →
        dDestOrgID (doDestination d) = dDestOrgID destination) →
  ∃ store1 store2,
    StoreDestination destination store = (None, store1)
    ∧ DestinationExists (dDestOrgID destination) (dDestType destination)
        (dDestID destination) store1 = (true, None)
    ∧ RetrieveDestination (dDestOrgID destination) (dDestType destination)
        (dDestID destination) store1 = (Some destination, None)
    ∧ RetrieveDestinationProtocol (dDestOrgID destination) (dDestType destination)
        (dDestID destination) store1 = (Communication destination, None)
    ∧ DeleteDestination (dDestOrgID destination) (dDestType destination)
        (dDestID destination) store1 = (None, store2)
    ∧ DestinationExists (dDestOrgID destination) (dDestType destination)
        (dDestID destination) store2 = (false, None)
    ∧ RetrieveDestination (dDestOrgID destination) (dDestType destination)
        (dDestID destination) store2
      = (None, Some (Error "Failed to fetch the destination."))
    ∧ destinations store2
      = delete (getDestinationCollectionID destination) (destinations store).
Proof.
  intros Hwf. unfold StoreDestination.
  assert (upsert (destinations store) (getDestinationCollectionID destination)
            (λ d, bool_decide (dDestOrgID (doDestination d) = dDestOrgID destination))
            {| doID := getDestinationCollectionID destination; doDestination := destination |}
          = inr (<[getDestinationCollectionID destination :=
                     {| doID := getDestinationCollectionID destination;
                        doDestination := destination |}]> (destinations store))) as ->.
  { unfold upsert.
    destruct (destinations store !! getDestinationCollectionID destination) as [d|] eqn:Hd;
      [|done].
    by rewrite bool_decide_eq_true_2 by by apply Hwf. }
  eexists _, _. split; [done|].
  unfold DestinationExists, RetrieveDestination, RetrieveDestinationProtocol,
    DeleteDestination, fetchOne.
  fold (getDestinationCollectionID destination).
  cbn [destinations with_destinations]. rewrite lookup_insert_eq.
  repeat (split; [done|]).
  cbn [destinations with_destinations].
  rewrite removeAll_id, lookup_delete_eq. repeat (split; [done|]).
  by rewrite delete_insert_eq.
Qed.

Lemma StoreDestination_round_trip_witness :
  ∃ store1 store2,
    StoreDestination (Destination_ destination1) emptyStore = (None, store1)
    ∧ DestinationExists "O" "T" "D1" store1 = (true, None)
    ∧ RetrieveDestination "O" "T" "D1" store1 = (Some (Destination_ destination1), None)
    ∧ RetrieveDestinationProtocol "O" "T" "D1" store1 = ("http", None)
    ∧ DeleteDestination "O" "T" "D1" store1 = (None, store2)
    ∧ DestinationExists "O" "T" "D1" store2 = (false, None)
    ∧ RetrieveDestination "O" "T" "D1" store2
      = (None, Some (Error "Failed to fetch the destination."))
    ∧ destinations store2 = delete "O:T:D1" ∅.
Proof.
  apply (StoreDestination_round_trip (Destination_ destination1) emptyStore).
  intros d Hd. discriminate Hd.
Defined.

Lemma RetrieveDestinations_elem orgID destType store d :
  d ∈ default [] (RetrieveDestinations orgID destType store).1 ↔
  (∃ id doc, destinations store !! id = Some doc ∧ doDestination doc = d)
  ∧ (orgID = "" ∨ dDestOrgID d = orgID)
  ∧ (destType = "" ∨ dDestType d = destType).
Proof.
  unfold RetrieveDestinations. cbn [fst default from_option id].
  rewrite list_elem_of_fmap.
  destruct (decide (orgID = "")) as [Ho|Ho], (decide (destType = "")) as [Ht|Ht].
  all: rewrite ?(bool_decide_eq_true_2 _ Ho), ?(bool_decide_eq_false_2 _ Ho),
         ?(bool_decide_eq_true_2 _ Ht), ?(bool_decide_eq_false_2 _ Ht).
  all: setoid_rewrite fetchAllOf_elem.
  all: split;
    [intros (doc & -> & id & Hid & Hm); split; [by exists id, doc|];
     revert Hm; destination_query_to_prop; tauto
    |intros [(id & doc & Hid & <-) Hc]; exists doc; split; [done|]; exists id;
     split; [done|]; revert Hc; destination_query_to_prop; tauto].
Qed.

(** X11.  [RetrieveDestinations] returns no error and exactly the stored
    destinations of the organization and the destination type given, an
    empty organization id and an empty type each standing for any. *)
Theorem RetrieveDestinations_spec
    (orgID destType : string) (store : MongoStorage) (d : Destination) :
  ∃ dests,
    RetrieveDestinations orgID destType store = (Some dests, None)
    ∧ (d ∈ dests ↔
       (∃ id doc, destinations store !! id = Some doc ∧ doDestination doc = d)
       ∧ (orgID = "" ∨ dDestOrgID d = orgID)
       ∧ (destType = "" ∨ dDestType d = destType)).
Proof.
  eexists. split; [reflexivity|].
  apply (RetrieveDestinations_elem orgID destType store d).
Qed.

(** ** Notification records *)

Lemma UpdateNotificationRecord_stored cfg notification nowUnix store :
  (∀ d, notifications store !! getNotificationCollectionID notification = Some d →
        nDestOrgID (Notification_ d) = nDestOrgID notification
        ∧ nDestID (Notification_ d) = nDestID notification
        ∧ nDestType (Notification_ d) = nDestType notification) →
  UpdateNotificationRecord cfg notification nowUnix store
  = (None,
     with_notifications
       (<[getNotificationCollectionID notification :=
            {| noID := getNotificationCollectionID notification;
               Notification_ :=
                 if ResendTime notification =? 0
                 then setResendTime (wrap64 (nowUnix + ResendInterval cfg * 6)) notification
                 else notification |}]> (notifications store)) store).
Proof.
  intros Hwf. unfold UpdateNotificationRecord, upsert.
  destruct (notifications store !! getNotificationCollectionID notification) as [d|] eqn:Hd;
    [|done].
  destruct (Hwf d eq_refl) as (H1 & H2 & H3).
  assert (∀ n', nDestOrgID n' = nDestOrgID notification →
                nDestID n' = nDestID notification →
                nDestType n' = nDestType notification →
                bool_decide (nDestOrgID (Notification_ d) = nDestOrgID n')
                && bool_decide (nDestID (Notification_ d) = nDestID n')
                && bool_decide (nDestType (Notification_ d) = nDestType n') = true) as Hf.
  { intros n' -> -> ->. by rewrite !bool_decide_eq_true_2. }
  rewrite Hf; [done|..]; by destruct (ResendTime notification =? 0).
Qed.

(** X12.  [UpdateNotificationRecord] stores the notification under its
    notification key and [RetrieveNotificationRecord] returns it: with the
    resend time it came with when that is not zero, and with the resend time
    [now + 6 * ResendInterval] when it is zero.  A record scheduled in this
    way whose status is Update, Received, Consumed, Data, Delete or Deleted
    is among the notifications that [RetrieveNotifications], called without
    a destination, returns at time [t] exactly when
    [now + 6 * ResendInterval ≤ t]. *)
Theorem notification_resend_timing
    (cfg : Config) (notification : Notification) (nowUnix : Z) (store : MongoStorage) :
  (∀ d, notifications store !! getNotificationCollectionID notification = Some d →
        nDestOrgID (Notification_ d) = nDestOrgID notification
        ∧ nDestID (Notification_ d) = nDestID notification
        ∧ nDestType (Notification_ d) = nDestType notification) →
  - 2 ^ 63 ≤ nowUnix + ResendInterval cfg * 6 ≤ maxInt64 →
  ∃ store1 stored,
    UpdateNotificationRecord cfg notification nowUnix store = (None, store1)
    ∧ RetrieveNotificationRecord (nDestOrgID notification) (nObjectType notification)
        (nObjectID notification) (nDestType notification) (nDestID notification) store1
      = (Some stored, None)
    ∧ (ResendTime notification ≠ 0 → stored = notification)
    ∧ (ResendTime notification = 0 →
       stored = setResendTime (nowUnix + ResendInterval cfg * 6) notification
       ∧ ∀ orgID retrieveReceived t,
           nStatus notification ∈ [Update; Received; Consumed; Data; Delete; Deleted] →
           (stored ∈ (RetrieveNotifications orgID "" "" retrieveReceived t store1).1
            ↔ nowUnix + ResendInterval cfg * 6 ≤ t)).
Proof.
  intros Hwf Hfits.
  rewrite (UpdateNotificationRecord_stored cfg notification nowUnix store Hwf).
  rewrite wrap64_small by done.
  eexists _, _. split; [done|].
  unfold RetrieveNotificationRecord, fetchOne.
  fold (getNotificationCollectionID notification).
  cbn [notifications with_notifications]. rewrite lookup_insert_eq.
  cbn [Notification_]. split; [done|]. split.
  - intros Hne. by rewrite (proj2 (Z.eqb_neq _ _) Hne).
  - intros Hz. rewrite (proj2 (Z.eqb_eq _ _) Hz). split; [done|].
    intros orgID retrieveReceived t Hstatus.
    rewrite RetrieveNotifications_any_destination.
    cbn [ResendTime nStatus setResendTime notifications with_notifications].
    split.
    + intros [_ [Hget|[Ht _]]]; [|done].
      rewrite Hget in Hstatus. rewrite !elem_of_cons, elem_of_nil in Hstatus.
      unfold Getdata, Update, Received, Consumed, Data, Delete, Deleted in Hstatus.
      intuition discriminate.
    + intros Ht. split; [|by right].
      eexists _, _. split; [apply lookup_insert_eq|]. done.
Qed.

(** The sixth scenario of the spec: resend interval 5, scheduled at time
    1000, due from time 1030 on. *)
Lemma notification_resend_timing_witness :
  ∃ store1 stored,
    UpdateNotificationRecord exampleConfig updateNotification 1000 emptyStore = (None, store1)
    ∧ RetrieveNotificationRecord "O" "T1" "X" "T" "D" store1 = (Some stored, None)
    ∧ stored = setResendTime 1030 updateNotification
    ∧ (stored ∈ (RetrieveNotifications "O" "" "" false 1031 store1).1 ↔ 1030 ≤ 1031)
    ∧ (stored ∈ (RetrieveNotifications "O" "" "" false 1029 store1).1 ↔ 1030 ≤ 1029).
Proof.
  destruct (notification_resend_timing exampleConfig updateNotification 1000 emptyStore)
    as (store1 & stored & Hrun & Hget & _ & Hzero).
  - intros d Hd. discriminate Hd.
  - vm_compute. split; discriminate.
  - destruct (Hzero eq_refl) as [Hstored Hdue].
    exists store1, stored. split; [exact Hrun|]. split; [exact Hget|].
    split; [exact Hstored|]. split.
    + apply (Hdue "O" false 1031). rewrite !elem_of_cons. tauto.
    + apply (Hdue "O" false 1029). rewrite !elem_of_cons. tauto.
Defined.

(** [UpdateNotificationResendTime] takes only the key from the
    notification it is given: on a stored record it sets the resend time to
    [now + 6 * ResendInterval] and leaves the status and the other fields of
    the stored record as they are; without a stored record it returns an
    error and stores nothing. *)
Theorem UpdateNotificationResendTime_spec
    (cfg : Config) (notification : Notification) (nowUnix : Z) (store : MongoStorage) :
  - 2 ^ 63 ≤ nowUnix + ResendInterval cfg * 6 ≤ maxInt64 →
  (∀ d, notifications store !! getNotificationCollectionID notification = Some d →
     ∃ store1,
       UpdateNotificationResendTime cfg notification nowUnix store = (None, store1)
       ∧ notifications store1 !! getNotificationCollectionID notification
         = Some {| noID := noID d;
                   Notification_ :=
                     setResendTime (nowUnix + ResendInterval cfg * 6) (Notification_ d) |}
       ∧ ∀ k, k ≠ getNotificationCollectionID notification →
              notifications store1 !! k = notifications store !! k)
  ∧ (notifications store !! getNotificationCollectionID notification = None →
     UpdateNotificationResendTime cfg notification nowUnix store
     = (Some (Error "Failed to update notification resend time."), store)).
Proof.
  intros Hfits. unfold UpdateNotificationResendTime, update. split.
  - intros d Hd. rewrite Hd. rewrite wrap64_small by done.
    eexists. split; [done|]. cbn [notifications with_notifications].
    split; [apply lookup_insert_eq|]. intros k Hk. by rewrite lookup_insert_ne.
  - by intros ->.
Qed.

Lemma UpdateNotificationResendTime_spec_witness :
  ∃ store1,
    UpdateNotificationResendTime exampleConfig updateNotification 1000 dataNotificationStore
    = (None, store1)
    ∧ notifications store1 !! "O:T1:X:T:D"
      = Some {| noID := "O:T1:X:T:D"; Notification_ := setResendTime 1030 dataNotification |}
    ∧ ∀ k, k ≠ "O:T1:X:T:D" →
           notifications store1 !! k = notifications dataNotificationStore !! k.
Proof.
  destruct (UpdateNotificationResendTime_spec exampleConfig updateNotification 1000
              dataNotificationStore) as [H _].
  - vm_compute. split; discriminate.
  - apply (H {| noID := "O:T1:X:T:D"; Notification_ := dataNotification |}). reflexivity.
Defined.

Lemma Is_notification_field kd field t s :
  field ≠ "_id" →
  notificationField kd.2 field = Some (VString s) →
  bool_decide (docField notificationField kd field = Some (VString t)) = true ↔ s = t.
Proof.
  intros Hf Hs. unfold docField. rewrite (bool_decide_eq_false_2 (field = "_id")) by done.
  by apply Is_string_true.
Qed.

Lemma Is_notification_id (kd : string * notificationObject) t :
  bool_decide (docField notificationField kd "_id" = Some (VString t)) = true ↔ kd.1 = t.
Proof. by apply Is_string_true. Qed.

(** X13.  [DeleteNotificationRecords] returns nil and removes: with object
    type, object id, destination type and destination id all given, the
    record under that notification key; with object type and object id
    given and the destination not fully given, every record of the
    organization for that object; with the object not fully given, every
    record of the organization whose destination type and destination id are
    the ones given.  Every other record stays as it was. *)
Theorem DeleteNotificationRecords_spec
    (orgID objectType objectID destType destID : string) (store : MongoStorage)
    (k : string) (d : notificationObject) :
  ∃ store1,
    DeleteNotificationRecords orgID objectType objectID destType destID store = (None, store1)
    ∧ objects store1 = objects store
    ∧ (notifications store1 !! k = Some d ↔
       notifications store !! k = Some d
       ∧ ¬ (if bool_decide (objectType ≠ "" ∧ objectID ≠ "")
            then
              if bool_decide (destType ≠ "" ∧ destID ≠ "")
              then k = createNotificationCollectionID orgID objectType objectID destType
                         destID
              else nDestOrgID (Notification_ d) = orgID
                   ∧ nObjectType (Notification_ d) = objectType
                   ∧ nObjectID (Notification_ d) = objectID
            else nDestOrgID (Notification_ d) = orgID
                 ∧ nDestType (Notification_ d) = destType
                 ∧ nDestID (Notification_ d) = destID)).
Proof.
  eexists. split; [reflexivity|]. split; [reflexivity|].
  cbn [notifications with_notifications].
  destruct (decide (objectType ≠ "" ∧ objectID ≠ "")) as [Hobj|Hobj].
  - rewrite (bool_decide_eq_true_2 _ Hobj).
    assert (negb (bool_decide (objectType = "")) && negb (bool_decide (objectID = ""))
            = true) as ->.
    { destruct Hobj. by rewrite !bool_decide_eq_false_2. }
    destruct (decide (destType ≠ "" ∧ destID ≠ "")) as [Hdest|Hdest].
    + rewrite (bool_decide_eq_true_2 _ Hdest).
      assert (negb (bool_decide (destType = "")) && negb (bool_decide (destID = ""))
              = true) as ->.
      { destruct Hdest. by rewrite !bool_decide_eq_false_2. }
      rewrite removeAll_id, lookup_delete_Some. intuition congruence.
    + rewrite (bool_decide_eq_false_2 _ Hdest).
      assert (negb (bool_decide (destType = "")) && negb (bool_decide (destID = ""))
              = false) as ->.
      { destruct (decide (destType = "")) as [->|?]; [done|].
        destruct (decide (destID = "")) as [->|?]; [|tauto].
        by rewrite andb_false_r. }
      rewrite removeAll_lookup. cbn [matches forallb]. rewrite andb_true_r.
      rewrite <- not_true_iff_false, !andb_true_iff.
      rewrite !(Is_notification_field (k, d)) by done. done.
  - rewrite (bool_decide_eq_false_2 _ Hobj).
    assert (negb (bool_decide (objectType = "")) && negb (bool_decide (objectID = ""))
            = false) as ->.
    { destruct (decide (objectType = "")) as [->|?]; [done|].
      destruct (decide (objectID = "")) as [->|?]; [|tauto].
      by rewrite andb_false_r. }
    rewrite removeAll_lookup. cbn [matches forallb]. rewrite andb_true_r.
    rewrite <- not_true_iff_false, !andb_true_iff.
    rewrite !(Is_notification_field (k, d)) by done. done.
Qed.

(** X14.  [RetrievePendingNotifications] returns no error and exactly the
    stored notifications of the organization whose status is UpdatePending,
    ConsumedPending, DeletePending or DeletedPending; when a destination
    type or id is given, only those of that destination. *)
Theorem RetrievePendingNotifications_spec
    (orgID destType destID : string) (store : MongoStorage) (n : Notification) :
  (RetrievePendingNotifications orgID destType destID store).2 = None
  ∧ (n ∈ (RetrievePendingNotifications orgID destType destID store).1 ↔
     (∃ id d, notifications store !! id = Some d ∧ Notification_ d = n)
     ∧ nDestOrgID n = orgID
     ∧ nStatus n ∈ [UpdatePending; ConsumedPending; DeletePending; DeletedPending]
     ∧ (destType = "" ∧ destID = "" ∨ nDestType n = destType ∧ nDestID n = destID)).
Proof.
  split; [reflexivity|].
  unfold RetrievePendingNotifications. cbn [fst].
  rewrite list_elem_of_fmap. setoid_rewrite fetchAll_elem.
  destruct (decide (destType = "" ∧ destID = "")) as [[-> ->]|Hgiven].
  - rewrite !bool_decide_eq_true_2 by done. cbn [andb]. split.
    + intros (d & -> & Hm & id & Hid). split; [by exists id, d|].
      revert Hm. query_to_prop. tauto.
    + intros [(id & d & Hid & <-) Hc]. exists d. split; [done|]. split; [|by exists id].
      revert Hc. query_to_prop. tauto.
  - assert (bool_decide (destType = "") && bool_decide (destID = "") = false) as ->.
    { apply andb_false_iff. rewrite !bool_decide_eq_false.
      destruct (decide (destType = "")); tauto. }
    split.
    + intros (d & -> & Hm & id & Hid). split; [by exists id, d|].
      revert Hm. query_to_prop. tauto.
    + intros [(id & d & Hid & <-) Hc]. exists d. split; [done|]. split; [|by exists id].
      revert Hc. query_to_prop. tauto.
Qed.

Lemma GetObjectsForDestination_fold orgID (l : list notificationObject) :
  Forall (λ n, nStatus (Notification_ n)
               ∈ [Update; UpdatePending; Updated; ReceivedByDestination;
                  ConsumedByDestination; common.Error]) l →
  ∀ status acc,
    (foldl (λ '(status, objectStatuses) n,
              let status := objectStatusOf (nStatus (Notification_ n)) status in
              let objectStatus :=
                {| osOrgID := orgID; osObjectType := nObjectType (Notification_ n);
                   osObjectID := nObjectID (Notification_ n); osStatus := status |} in
              (status, objectStatuses ++ [objectStatus]))
           (status, acc) l).2
    = acc ++ ((λ n, {| osOrgID := orgID; osObjectType := nObjectType (Notification_ n);
                       osObjectID := nObjectID (Notification_ n);
                       osStatus := objectStatusOf (nStatus (Notification_ n)) "" |}) <$> l).
Proof.
  induction 1 as [|n l Hn Hl IH]; intros status acc.
  - cbn. by rewrite app_nil_r.
  - cbn [foldl]. rewrite IH. cbn [fmap list_fmap]. rewrite <- app_assoc. cbn [app].
    do 3 f_equal.
    rewrite !elem_of_cons, elem_of_nil in Hn.
    unfold objectStatusOf.
    destruct Hn as [->|[->|[->|[->|[->|[->|[]]]]]]]; reflexivity.
Qed.

(** X15.  [GetObjectsForDestination] returns no error and one entry for
    every stored notification of the destination whose status is Update,
    UpdatePending, Updated, ReceivedByDestination, ConsumedByDestination or
    Error, and no other entry.  The entry carries the organization asked
    for, the object type and id of the notification, and a status that
    depends on the notification's status only: Delivering for Update,
    UpdatePending and Updated, Delivered for ReceivedByDestination, Consumed
    for ConsumedByDestination, Error for Error. *)
Theorem GetObjectsForDestination_spec
    (orgID destType destID : string) (store : MongoStorage) (os : ObjectStatus) :
  (GetObjectsForDestination orgID destType destID store).2 = None
  ∧ (os ∈ (GetObjectsForDestination orgID destType destID store).1 ↔
     ∃ id d,
       notifications store !! id = Some d
       ∧ nDestOrgID (Notification_ d) = orgID
       ∧ nDestType (Notification_ d) = destType
       ∧ nDestID (Notification_ d) = destID
       ∧ osOrgID os = orgID
       ∧ osObjectType os = nObjectType (Notification_ d)
       ∧ osObjectID os = nObjectID (Notification_ d)
       ∧ (nStatus (Notification_ d) ∈ [Update; UpdatePending; Updated]
          ∧ osStatus os = Delivering
          ∨ nStatus (Notification_ d) = ReceivedByDestination ∧ osStatus os = Delivered
          ∨ nStatus (Notification_ d) = ConsumedByDestination ∧ osStatus os = Consumed
          ∨ nStatus (Notification_ d) = common.Error ∧ osStatus os = common.Error)).
Proof.
  unfold GetObjectsForDestination.
  set (q := M [Or _; _; _; _]).
  assert (∀ d, d ∈ fetchAll q store ↔
               (nStatus (Notification_ d)
                ∈ [Update; UpdatePending; Updated; ReceivedByDestination;
                   ConsumedByDestination; common.Error]
                ∧ nDestOrgID (Notification_ d) = orgID
                ∧ nDestID (Notification_ d) = destID
                ∧ nDestType (Notification_ d) = destType)
               ∧ ∃ id, notifications store !! id = Some d) as Hq.
  { intros d. rewrite fetchAll_elem. subst q. query_to_prop. tauto. }
  pose proof (GetObjectsForDestination_fold orgID (fetchAll q store)) as Hfold.
  destruct (foldl _ _ (fetchAll q store)) as [status objectStatuses] eqn:Hrun.
  split; [reflexivity|]. cbn [fst].
  specialize (Hfold ltac:(apply Forall_forall; intros d Hd; by apply Hq in Hd as [[? _] _])
                "" []).
  cbv zeta in Hfold. rewrite Hrun in Hfold. cbn [snd app] in Hfold. subst objectStatuses.
  rewrite list_elem_of_fmap. split.
  - intros (d & -> & Hd). apply Hq in Hd as [(Hs & Ho & Hi & Ht) [id Hid]].
    exists id, d. cbn [osOrgID osObjectType osObjectID osStatus].
    repeat (split; [done|]).
    rewrite !elem_of_cons, elem_of_nil in Hs. rewrite !elem_of_cons, elem_of_nil.
    unfold objectStatusOf.
    destruct Hs as [->|[->|[->|[->|[->|[->|[]]]]]]]; cbn; tauto.
  - intros (id & d & Hid & Ho & Ht & Hi & H1 & H2 & H3 & Hs). exists d. split.
    + destruct os as [o1 o2 o3 o4]. cbn in H1, H2, H3, Hs. subst o1 o2 o3. f_equal.
      rewrite !elem_of_cons, elem_of_nil in Hs. unfold objectStatusOf.
      destruct Hs as [[[->|[->|[->|[]]]] ->]|[[-> ->]|[[-> ->]|[-> ->]]]]; reflexivity.
    + apply Hq. split; [|by exists id]. repeat (split; [|done]).
      rewrite !elem_of_cons, elem_of_nil in Hs. rewrite !elem_of_cons, elem_of_nil.
      tauto.
Qed.

(** ** The leader's heartbeat and resignation *)

Lemma LeaderPeriodicUpdate_match leaderID store d :
  leader store !! 1 = Some d →
  UUID d = leaderID →
  LeaderPeriodicUpdate leaderID store
  = (true, None,
     with_serverTime (currentDate store)
       (with_leader
          (<[1 := {| ldID := ldID d; UUID := UUID d; LastHeartbeatTS := currentDate store;
                     HeartbeatTimeout := HeartbeatTimeout d; Version := Version d |}]>
             (leader store)) store)).
Proof.
  intros Hd Hu. unfold LeaderPeriodicUpdate, updateLeader, update. rewrite Hd.
  by rewrite bool_decide_eq_true_2.
Qed.

Lemma LeaderPeriodicUpdate_mismatch leaderID store d :
  leader store !! 1 = Some d →
  UUID d ≠ leaderID →
  LeaderPeriodicUpdate leaderID store = (false, None, store).
Proof.
  intros Hd Hu. unfold LeaderPeriodicUpdate, updateLeader, update. rewrite Hd.
  by rewrite bool_decide_eq_false_2.
Qed.

(** [LeaderPeriodicUpdate] by the node whose id is in the leader
    document returns [true] and stores a fresh server timestamp in
    [lastHeartbeatTS], leaving [uuid], [heartbeatTimeout] and [version] as
    they were.  By any other node, or without a leader document, it returns
    [false] and no error and the store is as it was. *)
Theorem LeaderPeriodicUpdate_spec (leaderID : string) (store : MongoStorage) :
  (∀ d, leader store !! 1 = Some d →
     (UUID d = leaderID →
      ∃ store',
        LeaderPeriodicUpdate leaderID store = (true, None, store')
        ∧ leader store' !! 1
          = Some {| ldID := ldID d; UUID := UUID d; LastHeartbeatTS := currentDate store;
                    HeartbeatTimeout := HeartbeatTimeout d; Version := Version d |})
     ∧ (UUID d ≠ leaderID → LeaderPeriodicUpdate leaderID store = (false, None, store)))
  ∧ (leader store !! 1 = None → LeaderPeriodicUpdate leaderID store = (false, None, store)).
Proof.
  split.
  - intros d Hd. split.
    + intros Hu. rewrite (LeaderPeriodicUpdate_match _ _ _ Hd Hu).
      eexists. split; [done|]. cbn [leader with_serverTime with_leader].
      apply lookup_insert_eq.
    + apply LeaderPeriodicUpdate_mismatch. done.
  - intros Hd. unfold LeaderPeriodicUpdate, updateLeader, update. by rewrite Hd.
Qed.

Lemma LeaderPeriodicUpdate_spec_witness :
  (∃ store',
     LeaderPeriodicUpdate "A" leaderStore = (true, None, store')
     ∧ leader store' !! 1
       = Some {| ldID := 1; UUID := "A"; LastHeartbeatTS := 1; HeartbeatTimeout := 30;
                 Version := 1 |})
  ∧ LeaderPeriodicUpdate "B" leaderStore = (false, None, leaderStore).
Proof.
  destruct (proj1 (LeaderPeriodicUpdate_spec "A" leaderStore) leaderDocumentA eq_refl)
    as [Hmatch _].
  destruct (proj1 (LeaderPeriodicUpdate_spec "B" leaderStore) leaderDocumentA eq_refl)
    as [_ Hmismatch].
  split; [exact (Hmatch eq_refl)|]. apply Hmismatch. discriminate.
Defined.

(** X16.  [ResignLeadership] by the node whose id is in the leader document
    returns nil and sets [lastHeartbeatTS] to the timestamp of the epoch
    with counter 1, leaving [uuid], [heartbeatTimeout] and [version] as they
    were: [RetrieveLeader] then reports the epoch as the time of the last
    heartbeat, and a takeover with the version it reports succeeds.  By any
    other node, or without a leader document, it returns nil and the store
    is as it was. *)
Theorem ResignLeadership_spec (leaderID : string) (store : MongoStorage) :
  (∀ d, leader store !! 1 = Some d →
     (UUID d = leaderID →
      ∃ store',
        ResignLeadership leaderID store = (None, store')
        ∧ leader store' !! 1
          = Some {| ldID := ldID d; UUID := UUID d; LastHeartbeatTS := 1;
                    HeartbeatTimeout := HeartbeatTimeout d; Version := Version d |}
        ∧ (∀ now, RetrieveLeader now store'
                  = (leaderID, HeartbeatTimeout d, 0, Version d, None))
        ∧ ∀ cfg other, (UpdateLeader cfg other (Version d) store').1 = (true, None))
     ∧ (UUID d ≠ leaderID → ResignLeadership leaderID store = (None, store)))
  ∧ (leader store !! 1 = None → ResignLeadership leaderID store = (None, store)).
Proof.
  unfold ResignLeadership.
  change (NewMongoTimestamp 0 1) with (Some 1). unfold update.
  split.
  - intros d Hd. rewrite Hd. split.
    + intros Hu. rewrite bool_decide_eq_true_2 by done.
      eexists. split; [done|]. cbn [leader with_leader].
      split; [apply lookup_insert_eq|]. split.
      * intros now. unfold RetrieveLeader, fetchOne. cbn [leader with_leader].
        rewrite lookup_insert_eq. cbn [UUID HeartbeatTimeout LastHeartbeatTS Version].
        by rewrite Hu.
      * intros cfg other.
        rewrite (UpdateLeader_match cfg other (Version d) _
                   {| ldID := ldID d; UUID := UUID d; LastHeartbeatTS := 1;
                      HeartbeatTimeout := HeartbeatTimeout d; Version := Version d |});
          [done|apply lookup_insert_eq|done].
    + intros Hu. by rewrite bool_decide_eq_false_2 by done.
  - by intros ->.
Qed.

Lemma ResignLeadership_spec_witness :
  ∃ store',
    ResignLeadership "A" leaderStore = (None, store')
    ∧ leader store' !! 1
      = Some {| ldID := 1; UUID := "A"; LastHeartbeatTS := 1; HeartbeatTimeout := 30;
                Version := 1 |}
    ∧ (∀ now, RetrieveLeader now store' = ("A", 30, 0, 1, None))
    ∧ ∀ cfg other, (UpdateLeader cfg other 1 store').1 = (true, None).
Proof.
  apply (proj1 (proj1 (ResignLeadership_spec "A" leaderStore) leaderDocumentA eq_refl)).
  reflexivity.
Defined.

(** X17.  Takeover of the leadership, for any two distinct nodes A
    and B on a store without a leader document: [InsertInitialLeader] by A
    returns [true], by B after it [false]; [RetrieveLeader] then reports A,
    the configured timeout and version 1; [UpdateLeader] by B with that
    version returns [true]; after it the periodic update of A returns
    [false] and that of B [true], and [RetrieveLeader] reports B with
    version 2. *)
Theorem leader_takeover (cfg : Config) (A B : string) (now : Z) (store : MongoStorage) :
  leader store !! 1 = None →
  A ≠ B →
  ∃ store1 store2 store3 ts,
    InsertInitialLeader cfg A store = (true, None, store1)
    ∧ InsertInitialLeader cfg B store1 = (false, None, store1)
    ∧ RetrieveLeader now store1 = (A, LeadershipTimeout cfg, 0, 1, None)
    ∧ UpdateLeader cfg B 1 store1 = (true, None, store2)
    ∧ LeaderPeriodicUpdate A store2 = (false, None, store2)
    ∧ LeaderPeriodicUpdate B store2 = (true, None, store3)
    ∧ RetrieveLeader now store3 = (B, LeadershipTimeout cfg, ts, 2, None).
Proof.
  intros Hnone Hne.
  set (d1 := {| ldID := 1; UUID := A; LastHeartbeatTS := 0;
                HeartbeatTimeout := LeadershipTimeout cfg; Version := 1 |}).
  set (store1 := with_leader (<[1 := d1]> (leader store)) store).
  assert (leader store1 !! 1 = Some d1) as H1 by apply lookup_insert_eq.
  set (d2 := {| ldID := 1; UUID := B; LastHeartbeatTS := currentDate store1;
                HeartbeatTimeout := LeadershipTimeout cfg; Version := wrap64 (1 + 1) |}).
  set (store2 := with_serverTime (currentDate store1)
                   (with_leader (<[1 := d2]> (leader store1)) store1)).
  assert (leader store2 !! 1 = Some d2) as H2 by apply lookup_insert_eq.
  exists store1, store2. eexists _, _.
  split. { unfold InsertInitialLeader, insert_. by rewrite Hnone. }
  split. { by apply (InsertInitialLeader_taken cfg B store1 d1). }
  split. { unfold RetrieveLeader, fetchOne. by rewrite H1. }
  split. { by rewrite (UpdateLeader_match cfg B 1 store1 d1 H1 eq_refl). }
  split. { apply (LeaderPeriodicUpdate_mismatch A store2 d2 H2). cbn. congruence. }
  split. { by rewrite (LeaderPeriodicUpdate_match B store2 d2 H2 eq_refl). }
  unfold RetrieveLeader, fetchOne. cbn [leader with_serverTime with_leader].
  rewrite lookup_insert_eq. reflexivity.
Qed.

Lemma leader_takeover_witness :
  ∃ store1 store2 store3 ts,
    InsertInitialLeader exampleConfig "A" emptyStore = (true, None, store1)
    ∧ InsertInitialLeader exampleConfig "B" store1 = (false, None, store1)
    ∧ RetrieveLeader 77 store1 = ("A", 30, 0, 1, None)
    ∧ UpdateLeader exampleConfig "B" 1 store1 = (true, None, store2)
    ∧ LeaderPeriodicUpdate "A" store2 = (false, None, store2)
    ∧ LeaderPeriodicUpdate "B" store2 = (true, None, store3)
    ∧ RetrieveLeader 77 store3 = ("B", 30, ts, 2, None).
Proof.
  apply (leader_takeover exampleConfig "A" "B" 77 emptyStore).
  - reflexivity.
  - discriminate.
Defined.

(** * Properties of the file backend *)

Lemma tmp_path_differs (path : string) : path ≠ path +:+ ".tmp".
Proof.
  induction path as [|c path IH]; [discriminate|]. intros [= H]. by apply IH.
Qed.

Lemma writeAt_start contents data :
  dataURI.writeAt contents 0 data = data ++ drop (length data) contents.
Proof.
  unfold dataURI.writeAt. destruct data as [|x data]; [by rewrite drop_0|].
  change (Z.to_nat (if 0 <? 0 then 0 else 0)) with 0%nat.
  by rewrite take_0.
Qed.

Section FileBackend.

Variable url_Parse : string → option dataURI.URL.
Variables (uri : string) (u : dataURI.URL).
Hypothesis uri_parses : url_Parse uri = Some u.
Hypothesis uri_is_file : dataURI.EqualFold (dataURI.Scheme u) "file" = true.

Lemma StoreData_published data dataLength disk :
  dataLength = 0 ∨ dataLength = len data →
  dataURI.StoreData url_Parse uri data dataLength disk
  = (len data, None,
     <[dataURI.Path u :=
         data ++ drop (length data) (default [] (disk !! (dataURI.Path u +:+ ".tmp")))]>
       (delete (dataURI.Path u +:+ ".tmp") disk)).
Proof.
  intros Hlen. unfold dataURI.StoreData. rewrite uri_parses, uri_is_file. cbn [negb].
  assert (negb (len data =? dataLength) && negb (dataLength =? 0) = false) as ->.
  { destruct Hlen as [->| ->]; [by rewrite andb_false_r|]. by rewrite Z.eqb_refl. }
  unfold dataURI.Rename. rewrite lookup_insert_eq, writeAt_start.
  by rewrite delete_insert_eq.
Qed.

Lemma StoreData_refused data dataLength disk :
  dataLength ≠ 0 →
  dataLength ≠ len data →
  dataURI.StoreData url_Parse uri data dataLength disk
  = (0, Some (dataURI.IOError "Failed to write all the data to file."),
     <[dataURI.Path u +:+ ".tmp" :=
         data ++ drop (length data) (default [] (disk !! (dataURI.Path u +:+ ".tmp")))]>
       disk).
Proof.
  intros Hz Hlen. unfold dataURI.StoreData. rewrite uri_parses, uri_is_file. cbn [negb].
  rewrite (proj2 (Z.eqb_neq (len data) dataLength)) by done.
  rewrite (proj2 (Z.eqb_neq dataLength 0)) by done. cbn [negb andb].
  by rewrite writeAt_start.
Qed.

Lemma GetData_found disk contents :
  disk !! dataURI.Path u = Some contents →
  dataURI.GetData url_Parse uri disk = (Some contents, None).
Proof.
  intros Hf. unfold dataURI.GetData. by rewrite uri_parses, uri_is_file, Hf.
Qed.

Lemma StoreData_round_trip_in_section data dataLength disk :
  dataLength = 0 ∨ dataLength = len data →
  ∃ disk' published,
    dataURI.StoreData url_Parse uri data dataLength disk = (len data, None, disk')
    ∧ published
      = data ++ drop (length data) (default [] (disk !! (dataURI.Path u +:+ ".tmp")))
    ∧ disk' !! dataURI.Path u = Some published
    ∧ disk' !! (dataURI.Path u +:+ ".tmp") = None
    ∧ (∀ p, p ≠ dataURI.Path u → p ≠ dataURI.Path u +:+ ".tmp" → disk' !! p = disk !! p)
    ∧ dataURI.GetData url_Parse uri disk' = (Some published, None)
    ∧ (disk !! (dataURI.Path u +:+ ".tmp") = None → published = data).
Proof.
  intros Hlen. rewrite (StoreData_published data dataLength disk Hlen).
  eexists _, _. split; [done|]. split; [done|].
  split; [apply lookup_insert_eq|].
  split.
  { rewrite lookup_insert_ne by apply tmp_path_differs. apply lookup_delete_eq. }
  split.
  { intros p Hp Htmp. rewrite lookup_insert_ne by done. by rewrite lookup_delete_ne. }
  split; [apply GetData_found, lookup_insert_eq|].
  intros ->. cbn. by rewrite drop_nil, app_nil_r.
Qed.

Lemma StoreData_after_refused_in_section data1 dataLength1 data2 disk :
  dataLength1 ≠ 0 →
  dataLength1 ≠ len data1 →
  disk !! (dataURI.Path u +:+ ".tmp") = None →
  ∃ disk1 disk2,
    dataURI.StoreData url_Parse uri data1 dataLength1 disk
    = (0, Some (dataURI.IOError "Failed to write all the data to file."), disk1)
    ∧ disk1 !! dataURI.Path u = disk !! dataURI.Path u
    ∧ disk1 !! (dataURI.Path u +:+ ".tmp") = Some data1
    ∧ dataURI.StoreData url_Parse uri data2 (len data2) disk1 = (len data2, None, disk2)
    ∧ disk2 !! dataURI.Path u = Some (data2 ++ drop (length data2) data1)
    ∧ dataURI.GetData url_Parse uri disk2 = (Some (data2 ++ drop (length data2) data1), None).
Proof.
  intros Hz Hlen Hnone. rewrite (StoreData_refused data1 dataLength1 disk Hz Hlen).
  rewrite Hnone. cbn [default from_option id]. rewrite drop_nil, app_nil_r.
  eexists _, _. split; [done|].
  split.
  { rewrite lookup_insert_ne; [done|]. intros H.
    by apply (tmp_path_differs (dataURI.Path u)). }
  split; [apply lookup_insert_eq|].
  rewrite StoreData_published by by right. rewrite lookup_insert_eq.
  cbn [default from_option id]. split; [done|].
  split; [apply lookup_insert_eq|]. apply GetData_found, lookup_insert_eq.
Qed.

Lemma GetDataChunk_within_in_section disk contents size offset :
  disk !! dataURI.Path u = Some contents →
  0 ≤ offset ≤ len contents →
  0 ≤ size →
  offset + size ≤ maxInt64 →
  ∃ n,
    n = Z.min size (len contents - offset)
    ∧ dataURI.GetDataChunk url_Parse uri size offset disk
      = Returns (Some (take (Z.to_nat n) (drop (Z.to_nat offset) contents)
                       ++ replicate (Z.to_nat (size - n)) x00),
                 bool_decide (len contents ≤ offset + size), n, None).
Proof.
  intros Hf Hoff Hsize Hmax. eexists. split; [reflexivity|].
  unfold dataURI.GetDataChunk. rewrite uri_parses, uri_is_file, Hf. cbn [negb].
  unfold make. rewrite (proj2 (Z.ltb_ge _ _)) by lia.
  unfold dataURI.ReadAt. rewrite (proj2 (Z.ltb_ge _ _)) by lia.
  assert (length (drop (Z.to_nat offset) contents) = Z.to_nat (len contents - offset))
    as Hrest.
  { unfold len in *. rewrite length_drop. lia. }
  assert (len (take (Z.to_nat size) (drop (Z.to_nat offset) contents))
          = Z.min size (len contents - offset)) as Hn.
  { unfold len at 1. rewrite length_take, Hrest. lia. }
  rewrite Hn.
  assert (take (Z.to_nat size) (drop (Z.to_nat offset) contents)
          = take (Z.to_nat (Z.min size (len contents - offset)))
              (drop (Z.to_nat offset) contents)) as Htake.
  { destruct (Z.le_ge_cases size (len contents - offset)).
    - by rewrite Z.min_l by lia.
    - rewrite Z.min_r by lia. rewrite !take_ge; [done| |]; lia. }
  assert ((Z.to_nat size
           - length (take (Z.to_nat size) (drop (Z.to_nat offset) contents)))%nat
          = Z.to_nat (size - Z.min size (len contents - offset))) as Hpad.
  { rewrite length_take, Hrest. lia. }
  rewrite Hpad, <- Htake.
  destruct (Z.le_gt_cases size (len contents - offset)) as [Hfull|Hshort].
  - rewrite Z.min_l by lia. rewrite Z.eqb_refl.
    rewrite (proj2 (Z.ltb_ge _ _)) by lia.
    rewrite wrap64_small by (unfold maxInt64 in *; lia).
    destruct (decide (len contents = offset + size)) as [Heq|Hne].
    + rewrite (proj2 (Z.eqb_eq _ _) Heq). by rewrite bool_decide_eq_true_2 by lia.
    + rewrite (proj2 (Z.eqb_neq _ _) Hne). by rewrite bool_decide_eq_false_2 by lia.
  - rewrite Z.min_r by lia.
    rewrite (proj2 (Z.eqb_neq _ _)) by lia.
    rewrite (proj2 (Z.ltb_lt _ _)) by lia.
    by rewrite bool_decide_eq_true_2 by lia.
Qed.

Lemma DeleteStoredData_in_section disk size offset :
  0 ≤ size →
  ∃ disk',
    dataURI.DeleteStoredData url_Parse uri disk = (None, disk')
    ∧ disk' = delete (dataURI.Path u) disk
    ∧ dataURI.GetData url_Parse uri disk'
      = (None, Some (dataURI.OpenError "Failed to open file to read data."))
    ∧ dataURI.GetDataChunk url_Parse uri size offset disk'
      = Returns (None, true, 0, Some (dataURI.OpenError "Failed to open file to read data."))
    ∧ dataURI.DeleteStoredData url_Parse uri disk' = (None, disk').
Proof.
  intros Hsize. unfold dataURI.DeleteStoredData, dataURI.GetData, dataURI.GetDataChunk.
  rewrite uri_parses, uri_is_file. cbn [negb].
  eexists. split; [done|]. split; [done|].
  rewrite lookup_delete_eq. repeat (split; [done|]).
  by rewrite delete_delete_eq.
Qed.

End FileBackend.

(** X18.  For a file URI, [StoreData] with a declared length of zero or of
    the number of bytes the reader delivers returns that number and no
    error, removes the staging file [<path>.tmp], leaves every other file
    alone, and publishes at the path the bytes of the reader followed by the
    bytes that a staging file left from before held beyond them: the
    staging file is not truncated.  [GetData] then reads the published
    bytes, which are exactly the data when there was no staging file. *)
Theorem StoreData_round_trip
    (url_Parse : string → option dataURI.URL) (uri : string) (u : dataURI.URL)
    (data : list byte) (dataLength : Z) (disk : gmap string (list byte)) :
  url_Parse uri = Some u →
  dataURI.EqualFold (dataURI.Scheme u) "file" = true →
  dataLength = 0 ∨ dataLength = len data →
  ∃ disk' published,
    dataURI.StoreData url_Parse uri data dataLength disk = (len data, None, disk')
    ∧ published
      = data ++ drop (length data) (default [] (disk !! (dataURI.Path u +:+ ".tmp")))
    ∧ disk' !! dataURI.Path u = Some published
    ∧ disk' !! (dataURI.Path u +:+ ".tmp") = None
    ∧ (∀ p, p ≠ dataURI.Path u → p ≠ dataURI.Path u +:+ ".tmp" → disk' !! p = disk !! p)
    ∧ dataURI.GetData url_Parse uri disk' = (Some published, None)
    ∧ (disk !! (dataURI.Path u +:+ ".tmp") = None → published = data).
Proof. intros. by eapply StoreData_round_trip_in_section. Qed.

Lemma StoreData_round_trip_witness :
  ∃ disk',
    dataURI.StoreData parseFileURI "file:///data/O/T/X" [x01; x02; x03] 3 blobDisk
    = (3, None, disk')
    ∧ disk' !! "/data/O/T/X" = Some [x01; x02; x03]
    ∧ dataURI.GetData parseFileURI "file:///data/O/T/X" disk' = (Some [x01; x02; x03], None).
Proof.
  destruct (StoreData_round_trip parseFileURI "file:///data/O/T/X"
              {| dataURI.Scheme := "file"; dataURI.Path := "/data/O/T/X" |}
              [x01; x02; x03] 3 blobDisk)
    as (disk' & published & Hrun & Hp & Hfile & _ & _ & Hget & Hclean).
  - reflexivity.
  - reflexivity.
  - by right.
  - exists disk'. rewrite (Hclean eq_refl) in Hfile, Hget. by split.
Defined.

(** X19.  [StoreData] with a declared length that is neither zero nor the
    number of bytes the reader delivers returns an error and leaves the
    published file as it was, but the bytes it wrote stay in the staging
    file [<path>.tmp]: the next [StoreData] for the URI, though it succeeds,
    publishes its own bytes followed by the bytes of the refused attempt
    beyond them. *)
Theorem StoreData_after_refused_store
    (url_Parse : string → option dataURI.URL) (uri : string) (u : dataURI.URL)
    (data1 : list byte) (dataLength1 : Z) (data2 : list byte)
    (disk : gmap string (list byte)) :
  url_Parse uri = Some u →
  dataURI.EqualFold (dataURI.Scheme u) "file" = true →
  dataLength1 ≠ 0 →
  dataLength1 ≠ len data1 →
  disk !! (dataURI.Path u +:+ ".tmp") = None →
  ∃ disk1 disk2,
    dataURI.StoreData url_Parse uri data1 dataLength1 disk
    = (0, Some (dataURI.IOError "Failed to write all the data to file."), disk1)
    ∧ disk1 !! dataURI.Path u = disk !! dataURI.Path u
    ∧ disk1 !! (dataURI.Path u +:+ ".tmp") = Some data1
    ∧ dataURI.StoreData url_Parse uri data2 (len data2) disk1 = (len data2, None, disk2)
    ∧ disk2 !! dataURI.Path u = Some (data2 ++ drop (length data2) data1)
    ∧ dataURI.GetData url_Parse uri disk2 = (Some (data2 ++ drop (length data2) data1), None).
Proof. intros. by eapply StoreData_after_refused_in_section. Qed.

Lemma StoreData_after_refused_store_witness :
  ∃ disk1 disk2,
    dataURI.StoreData parseFileURI "file:///data/O/T/X" [x01; x02; x03] 2 blobDisk
    = (0, Some (dataURI.IOError "Failed to write all the data to file."), disk1)
    ∧ disk1 !! "/data/O/T/X" = Some [x41; x42]
    ∧ disk1 !! "/data/O/T/X.tmp" = Some [x01; x02; x03]
    ∧ dataURI.StoreData parseFileURI "file:///data/O/T/X" [x09] 1 disk1 = (1, None, disk2)
    ∧ disk2 !! "/data/O/T/X" = Some [x09; x02; x03]
    ∧ dataURI.GetData parseFileURI "file:///data/O/T/X" disk2 = (Some [x09; x02; x03], None).
Proof.
  apply (StoreData_after_refused_store parseFileURI "file:///data/O/T/X"
           {| dataURI.Scheme := "file"; dataURI.Path := "/data/O/T/X" |}
           [x01; x02; x03] 2 [x09] blobDisk).
  - reflexivity.
  - reflexivity.
  - discriminate.
  - discriminate.
  - reflexivity.
Defined.

(** X20.  For a file of [S] bytes, [GetDataChunk] at an offset from 0 to [S]
    with a size that is not negative returns no error and reports in [n]
    the smaller of [size] and [S - offset]; the slice it returns has [size]
    bytes, the first [n] of which are the bytes of the file from the offset
    on and the rest zero; [eof] is true exactly when [S ≤ offset + size]. *)
Theorem GetDataChunk_within_file
    (url_Parse : string → option dataURI.URL) (uri : string) (u : dataURI.URL)
    (disk : gmap string (list byte)) (contents : list byte) (size offset : Z) :
  url_Parse uri = Some u →
  dataURI.EqualFold (dataURI.Scheme u) "file" = true →
  disk !! dataURI.Path u = Some contents →
  0 ≤ offset ≤ len contents →
  0 ≤ size →
  offset + size ≤ maxInt64 →
  ∃ n,
    n = Z.min size (len contents - offset)
    ∧ dataURI.GetDataChunk url_Parse uri size offset disk
      = Returns (Some (take (Z.to_nat n) (drop (Z.to_nat offset) contents)
                       ++ replicate (Z.to_nat (size - n)) x00),
                 bool_decide (len contents ≤ offset + size), n, None).
Proof. intros. by eapply GetDataChunk_within_in_section. Qed.

Lemma GetDataChunk_within_file_witness :
  dataURI.GetDataChunk parseFileURI "file:///data/O/T/X" 3 1 blobDisk
  = Returns (Some [x42; x00; x00], true, 1, None).
Proof.
  destruct (GetDataChunk_within_file parseFileURI "file:///data/O/T/X"
              {| dataURI.Scheme := "file"; dataURI.Path := "/data/O/T/X" |}
              blobDisk [x41; x42] 3 1) as (n & -> & Hrun).
  - reflexivity.
  - reflexivity.
  - reflexivity.
  - unfold len. simpl. lia.
  - lia.
  - vm_compute. discriminate.
  - exact Hrun.
Defined.

(** X21.  For a file URI, [DeleteStoredData] returns nil whether or not the
    file exists and removes the file at the path and nothing else; after it
    [GetData] and [GetDataChunk] answer with the error of a file that cannot
    be opened, [GetDataChunk] with [eof] set, and a second
    [DeleteStoredData] changes nothing. *)
Theorem dataURI_DeleteStoredData_spec
    (url_Parse : string → option dataURI.URL) (uri : string) (u : dataURI.URL)
    (disk : gmap string (list byte)) (size offset : Z) :
  url_Parse uri = Some u →
  dataURI.EqualFold (dataURI.Scheme u) "file" = true →
  0 ≤ size →
  ∃ disk',
    dataURI.DeleteStoredData url_Parse uri disk = (None, disk')
    ∧ disk' = delete (dataURI.Path u) disk
    ∧ dataURI.GetData url_Parse uri disk'
      = (None, Some (dataURI.OpenError "Failed to open file to read data."))
    ∧ dataURI.GetDataChunk url_Parse uri size offset disk'
      = Returns (None, true, 0, Some (dataURI.OpenError "Failed to open file to read data."))
    ∧ dataURI.DeleteStoredData url_Parse uri disk' = (None, disk').
Proof. intros. by eapply DeleteStoredData_in_section. Qed.

Lemma dataURI_DeleteStoredData_spec_witness :
  ∃ disk',
    dataURI.DeleteStoredData parseFileURI "file:///data/O/T/X" blobDisk = (None, disk')
    ∧ disk' = delete "/data/O/T/X" blobDisk
    ∧ dataURI.GetData parseFileURI "file:///data/O/T/X" disk'
      = (None, Some (dataURI.OpenError "Failed to open file to read data."))
    ∧ dataURI.GetDataChunk parseFileURI "file:///data/O/T/X" 4 0 disk'
      = Returns (None, true, 0, Some (dataURI.OpenError "Failed to open file to read data."))
    ∧ dataURI.DeleteStoredData parseFileURI "file:///data/O/T/X" disk' = (None, disk').
Proof.
  apply (dataURI_DeleteStoredData_spec parseFileURI "file:///data/O/T/X"
           {| dataURI.Scheme := "file"; dataURI.Path := "/data/O/T/X" |} blobDisk 4 0).
  - reflexivity.
  - reflexivity.
  - lia.
Defined.

(** A URI that does not parse, or whose scheme is not [file] in any
    spelling of upper and lower case, is refused by every operation of the
    file backend with the error "Invalid data URI", and no file is created,
    changed or removed. *)
Theorem invalid_data_URI
    (url_Parse : string → option dataURI.URL) (uri : string)
    (dataReader : Reader) (dataLength offset total size : Z)
    (isFirstChunk isLastChunk : bool) (disk : gmap string (list byte)) :
  (url_Parse uri = None
   ∨ ∃ u, url_Parse uri = Some u
          ∧ dataURI.lowerString (dataURI.Scheme u) ≠ "file") →
  dataURI.AppendData url_Parse uri dataReader dataLength offset total isFirstChunk
    isLastChunk disk = (Some (dataURI.Error "Invalid data URI"), disk)
  ∧ dataURI.StoreData url_Parse uri dataReader dataLength disk
    = (0, Some (dataURI.Error "Invalid data URI"), disk)
  ∧ dataURI.GetData url_Parse uri disk = (None, Some (dataURI.Error "Invalid data URI"))
  ∧ dataURI.GetDataChunk url_Parse uri size offset disk
    = Returns (None, false, 0, Some (dataURI.Error "Invalid data URI"))
  ∧ dataURI.DeleteStoredData url_Parse uri disk
    = (Some (dataURI.Error "Invalid data URI"), disk).
Proof.
  unfold dataURI.AppendData, dataURI.StoreData, dataURI.GetData, dataURI.GetDataChunk,
    dataURI.DeleteStoredData.
  intros [->|(u & -> & Hscheme)]; [done|].
  assert (dataURI.EqualFold (dataURI.Scheme u) "file" = false) as ->; [|done].
  unfold dataURI.EqualFold. by apply bool_decide_eq_false_2.
Qed.

Lemma invalid_data_URI_witness :
  dataURI.StoreData parseFileURI "http://host/data" [x01] 1 blobDisk
  = (0, Some (dataURI.Error "Invalid data URI"), blobDisk)
  ∧ dataURI.DeleteStoredData parseFileURI "http://host/data" blobDisk
    = (Some (dataURI.Error "Invalid data URI"), blobDisk).
Proof.
  destruct (invalid_data_URI parseFileURI "http://host/data" [x01] 1 0 1 1 true true blobDisk)
    as (_ & H1 & _ & _ & H2).
  - left. reflexivity.
  - by split.
Defined.

(** ** Chunked upload to a file *)

Lemma writeAt_nil contents offset : dataURI.writeAt contents offset [] = contents.
Proof. reflexivity. Qed.

Lemma writeAt_cons contents (pos : nat) data :
  data ≠ [] →
  dataURI.writeAt contents (Z.of_nat pos) data
  = (take pos contents ++ replicate (pos - length contents) x00)
    ++ data ++ drop (pos + length data) contents.
Proof.
  intros Hne. unfold dataURI.writeAt.
  rewrite (proj2 (Z.ltb_ge _ _)) by lia. rewrite Nat2Z.id.
  destruct data as [|x data]; [done|]. by rewrite <- app_assoc.
Qed.

Lemma writeAt_prefix_length (contents : list byte) (pos : nat) :
  length (take pos contents ++ replicate (pos - length contents) x00) = pos.
Proof. rewrite length_app, length_take, length_replicate. lia. Qed.

Lemma writeAt_lookup_in contents (pos : nat) data (j : nat) :
  (j < length data)%nat →
  dataURI.writeAt contents (Z.of_nat pos) data !! (pos + j)%nat = data !! j.
Proof.
  intros Hj. rewrite writeAt_cons by (intros ->; simpl in Hj; lia).
  rewrite lookup_app_r by (rewrite writeAt_prefix_length; lia).
  rewrite writeAt_prefix_length. replace (pos + j - pos)%nat with j by lia.
  by rewrite lookup_app_l.
Qed.

Lemma writeAt_lookup_before contents (pos : nat) data (k : nat) :
  (k < pos)%nat →
  (k < length contents)%nat →
  dataURI.writeAt contents (Z.of_nat pos) data !! k = contents !! k.
Proof.
  intros Hk Hlen. destruct (decide (data = [])) as [->|Hne]; [done|].
  rewrite writeAt_cons by done.
  rewrite lookup_app_l by (rewrite writeAt_prefix_length; lia).
  rewrite lookup_app_l by (rewrite length_take; lia).
  by rewrite lookup_take_lt.
Qed.

Lemma writeAt_lookup_after contents (pos : nat) data (k : nat) :
  (pos + length data ≤ k)%nat →
  dataURI.writeAt contents (Z.of_nat pos) data !! k = contents !! k.
Proof.
  intros Hk. destruct (decide (data = [])) as [->|Hne]; [done|].
  rewrite writeAt_cons by done.
  rewrite lookup_app_r by (rewrite writeAt_prefix_length; lia).
  rewrite writeAt_prefix_length.
  rewrite lookup_app_r by lia.
  rewrite lookup_drop. f_equal. lia.
Qed.

Lemma writeAt_length contents (pos : nat) data :
  (length (dataURI.writeAt contents (Z.of_nat pos) data)
   ≤ length contents `max` (pos + length data))%nat.
Proof.
  destruct (decide (data = [])) as [->|Hne]; [rewrite writeAt_nil; lia|].
  rewrite writeAt_cons by done.
  rewrite length_app, writeAt_prefix_length, length_app, length_drop. lia.
Qed.

Section FileUpload.

Variable url_Parse : string → option dataURI.URL.
Variables (uri : string) (u : dataURI.URL).
Hypothesis uri_parses : url_Parse uri = Some u.
Hypothesis uri_is_file : dataURI.EqualFold (dataURI.Scheme u) "file" = true.

Variable cs : list (list byte).

Lemma chunkOffset_start i : chunkOffset cs i = Z.of_nat (chunkStart cs i).
Proof. reflexivity. Qed.

Lemma start_S i c : cs !! i = Some c → chunkStart cs (S i) = (chunkStart cs i + length c)%nat.
Proof.
  intros Hi. unfold chunkStart. rewrite (take_S_r _ _ _ Hi).
  rewrite concat_app, length_app. simpl. by rewrite app_nil_r.
Qed.

Lemma start_le_total i : (chunkStart cs i ≤ length (concat cs))%nat.
Proof.
  unfold chunkStart. rewrite <- (take_drop i cs) at 2. rewrite concat_app, length_app. lia.
Qed.

Lemma start_mono i i' c :
  cs !! i = Some c → (i < i')%nat → (chunkStart cs i + length c ≤ chunkStart cs i')%nat.
Proof.
  intros Hi Hlt. rewrite <- (start_S _ _ Hi).
  unfold chunkStart. replace i' with (S i + (i' - S i))%nat by lia.
  rewrite <- take_take_drop, concat_app, length_app. lia.
Qed.

Lemma chunk_end_le_total i c :
  cs !! i = Some c → (chunkStart cs i + length c ≤ length (concat cs))%nat.
Proof. intros Hi. rewrite <- (start_S _ _ Hi). apply start_le_total. Qed.

Lemma concat_lookup_chunk k b :
  concat cs !! k = Some b →
  ∃ i c j, cs !! i = Some c ∧ c !! j = Some b ∧ k = (chunkStart cs i + j)%nat.
Proof.
  unfold chunkStart. clear. revert k.
  induction cs as [|c0 l IH]; intros k Hk; [done|].
  cbn [concat] in Hk. destruct (decide (k < length c0)%nat) as [Hlt|Hge].
  - rewrite lookup_app_l in Hk by done. exists 0%nat, c0, k. by split.
  - rewrite lookup_app_r in Hk by lia.
    destruct (IH _ Hk) as (i & c & j & Hi & Hj & Hk').
    exists (S i), c, j. split; [done|]. split; [done|].
    cbn [take concat]. rewrite length_app. lia.
Qed.

Lemma staged_write R t i c :
  staged cs R t →
  cs !! i = Some c →
  staged cs (R ++ [i]) (dataURI.writeAt t (chunkOffset cs i) c).
Proof.
  intros [Hlen Hcov] Hi. rewrite chunkOffset_start. split.
  - pose proof (writeAt_length t (chunkStart cs i) c). pose proof (chunk_end_le_total i c Hi). lia.
  - intros i' c' j b Hin Hi' Hj.
    assert ((j < length c')%nat) as Hjlen by by eapply lookup_lt_Some.
    destruct (decide (i' = i)) as [->|Hne].
    + simplify_eq. by rewrite writeAt_lookup_in.
    + apply elem_of_app in Hin as [Hin|Hin]; [|apply list_elem_of_singleton in Hin; done].
      pose proof (Hcov i' c' j b Hin Hi' Hj) as Ht.
      destruct (decide (i' < i)%nat) as [Hlt|Hge].
      * pose proof (start_mono i' i c' Hi' Hlt).
        rewrite writeAt_lookup_before; [done|lia|]. by eapply lookup_lt_Some.
      * pose proof (start_mono i i' c Hi ltac:(lia)).
        rewrite writeAt_lookup_after; [done|lia].
Qed.

Lemma staged_all R t :
  staged cs R t →
  (∀ i, (i < length cs)%nat → i ∈ R) →
  t = concat cs.
Proof.
  intros [Hlen Hcov] Hall. apply list_eq. intros k.
  destruct (concat cs !! k) as [b|] eqn:Hk.
  - destruct (concat_lookup_chunk k b Hk) as (i & c & j & Hi & Hj & ->).
    apply (Hcov i c j b); [|done..]. apply Hall. by eapply lookup_lt_Some.
  - apply lookup_ge_None. apply lookup_ge_None in Hk. lia.
Qed.

Lemma AppendData_chunk total first last i c disk :
  cs !! i = Some c →
  dataURI.AppendData url_Parse uri (cReader (chunkCallOf cs first last i))
    (cLength (chunkCallOf cs first last i)) (cOffset (chunkCallOf cs first last i)) total
    (cFirst (chunkCallOf cs first last i)) (cLast (chunkCallOf cs first last i)) disk
  = (None,
     let t := dataURI.writeAt (default [] (disk !! (dataURI.Path u +:+ ".tmp")))
                (chunkOffset cs i) c in
     if last
     then <[dataURI.Path u := t]> (delete (dataURI.Path u +:+ ".tmp") disk)
     else <[dataURI.Path u +:+ ".tmp" := t]> disk).
Proof.
  intros Hi. unfold dataURI.AppendData. rewrite uri_parses, uri_is_file. cbn [negb].
  unfold chunkCallOf. cbn [cReader cLength cOffset cFirst cLast].
  rewrite (list_lookup_total_correct _ _ _ Hi). rewrite Z.eqb_refl. cbn [negb].
  destruct last; [|done].
  unfold dataURI.Rename. rewrite lookup_insert_eq. by rewrite delete_insert_eq.
Qed.

Lemma appendDataCalls_upload total order : ∀ first disk R,
  order ≠ [] →
  Forall (λ i, (i < length cs)%nat) order →
  staged cs R (default [] (disk !! (dataURI.Path u +:+ ".tmp"))) →
  ∃ disk' t,
    appendDataCalls url_Parse uri total (upload cs first order) disk
    = (replicate (length order) None, disk')
    ∧ disk' !! dataURI.Path u = Some t
    ∧ disk' !! (dataURI.Path u +:+ ".tmp") = None
    ∧ (∀ p, p ≠ dataURI.Path u → p ≠ dataURI.Path u +:+ ".tmp" → disk' !! p = disk !! p)
    ∧ staged cs (R ++ order) t.
Proof.
  induction order as [|i order IH]; intros first disk R Hne Hlt Hst; [done|].
  apply Forall_cons in Hlt as [Hi Hlt].
  apply lookup_lt_is_Some in Hi as [c Hi].
  destruct order as [|i' order].
  - cbn [upload appendDataCalls]. rewrite (AppendData_chunk total first true i c disk Hi).
    cbv zeta. eexists _, _. split; [done|].
    split; [apply lookup_insert_eq|].
    split.
    { rewrite lookup_insert_ne by apply tmp_path_differs. apply lookup_delete_eq. }
    split.
    { intros p Hp Htmp. rewrite lookup_insert_ne by done. by rewrite lookup_delete_ne. }
    by apply staged_write.
  - change (upload cs first (i :: i' :: order))
      with (chunkCallOf cs first false i :: upload cs false (i' :: order)).
    cbn [appendDataCalls]. rewrite (AppendData_chunk total first false i c disk Hi).
    cbv zeta.
    destruct (IH false
                (<[dataURI.Path u +:+ ".tmp" :=
                     dataURI.writeAt (default [] (disk !! (dataURI.Path u +:+ ".tmp")))
                       (chunkOffset cs i) c]> disk) (R ++ [i]))
      as (disk' & t & Hrun & Hfile & Htmp & Hframe & Hst'); [done|done| |].
    { rewrite lookup_insert_eq. cbn [default from_option id]. by apply staged_write. }
    rewrite Hrun. exists disk', t. split; [done|]. split; [done|]. split; [done|].
    split.
    { intros p Hp Hp'. rewrite Hframe by done. by rewrite lookup_insert_ne. }
    by rewrite <- app_assoc in Hst'.
Qed.

Lemma AppendData_any_order_in_section order first disk :
  order ≠ [] →
  Forall (λ i, (i < length cs)%nat) order →
  (∀ i, (i < length cs)%nat → i ∈ order) →
  disk !! (dataURI.Path u +:+ ".tmp") = None →
  ∃ disk',
    appendDataCalls url_Parse uri (len (concat cs)) (upload cs first order) disk
    = (replicate (length order) None, disk')
    ∧ disk' !! dataURI.Path u = Some (concat cs)
    ∧ disk' !! (dataURI.Path u +:+ ".tmp") = None
    ∧ (∀ p, p ≠ dataURI.Path u → p ≠ dataURI.Path u +:+ ".tmp" → disk' !! p = disk !! p).
Proof.
  intros Hne Hlt Hall Hnone.
  destruct (appendDataCalls_upload (len (concat cs)) order first disk [] Hne Hlt)
    as (disk' & t & Hrun & Hfile & Htmp & Hframe & Hst).
  { rewrite Hnone. split; [simpl; lia|]. intros i c j b Hin. by apply elem_of_nil in Hin. }
  exists disk'. split; [done|]. split; [|done].
  by rewrite Hfile, (staged_all _ _ Hst Hall).
Qed.

End FileUpload.

(** X22.  Chunked upload to a file URI.  Let an object be cut into chunks,
    and let [AppendData] be called for the chunks in any order in which
    every chunk occurs at least once, each call with the offset and length
    of its chunk and the final call flagged as last chunk, on a host without
    a staging file for the URI.  Then every call returns nil and the file at
    the path is the object; the staging file is gone and no other file is
    touched.  Neither the order of the chunks nor the first-chunk flag
    matters, and there is no limit on the number of chunks that arrive
    ahead of their turn. *)
Theorem AppendData_any_order
    (url_Parse : string → option dataURI.URL) (uri : string) (u : dataURI.URL)
    (cs : list (list byte)) (order : list nat) (first : bool)
    (disk : gmap string (list byte)) :
  url_Parse uri = Some u →
  dataURI.EqualFold (dataURI.Scheme u) "file" = true →
  order ≠ [] →
  Forall (λ i, (i < length cs)%nat) order →
  (∀ i, (i < length cs)%nat → i ∈ order) →
  disk !! (dataURI.Path u +:+ ".tmp") = None →
  ∃ disk',
    appendDataCalls url_Parse uri (len (concat cs)) (upload cs first order) disk
    = (replicate (length order) None, disk')
    ∧ disk' !! dataURI.Path u = Some (concat cs)
    ∧ disk' !! (dataURI.Path u +:+ ".tmp") = None
    ∧ (∀ p, p ≠ dataURI.Path u → p ≠ dataURI.Path u +:+ ".tmp" → disk' !! p = disk !! p).
Proof. intros. by eapply AppendData_any_order_in_section. Qed.

(** The upload scenario of the spec on the file backend, with the last
    chunk sent first. *)
Lemma AppendData_any_order_witness :
  ∃ disk',
    appendDataCalls parseFileURI "file:///data/O/T/X" 12
      (upload exampleChunks false [2; 0; 1]%nat) blobDisk
    = ([None; None; None], disk')
    ∧ disk' !! "/data/O/T/X"
      = Some [x41; x42; x43; x44; x45; x46; x47; x48; x49; x4a; x4b; x4c]
    ∧ disk' !! "/data/O/T/X.tmp" = None
    ∧ (∀ p, p ≠ "/data/O/T/X" → p ≠ "/data/O/T/X.tmp" → disk' !! p = blobDisk !! p).
Proof.
  apply (AppendData_any_order parseFileURI "file:///data/O/T/X"
           {| dataURI.Scheme := "file"; dataURI.Path := "/data/O/T/X" |}
           exampleChunks [2; 0; 1]%nat false blobDisk).
  - reflexivity.
  - reflexivity.
  - discriminate.
  - repeat constructor.
  - intros i Hi. simpl in Hi. rewrite !elem_of_cons.
    destruct i as [|[|[|i]]]; [tauto..|lia].
  - reflexivity.
Defined.

(** * Properties of the dummy authentication *)

Lemma Split_nonempty s sep : security.Split s sep ≠ [].
Proof.
  destruct s as [|c s]; [done|]. cbn [security.Split].
  destruct (Ascii.eqb c sep); [done|]. by destruct (security.Split s sep).
Qed.

Lemma Split_length s sep :
  length (security.Split s sep) = S (security.Count s sep).
Proof.
  induction s as [|c s IH]; [done|]. cbn [security.Split security.Count].
  destruct (Ascii.eqb c sep); [by rewrite <- IH|].
  pose proof (Split_nonempty s sep).
  destruct (security.Split s sep); [done|]. by rewrite <- IH.
Qed.

Lemma Split_no_separator s sep : security.Count s sep = 0%nat → security.Split s sep = [s].
Proof.
  induction s as [|c s IH]; [done|]. cbn [security.Split security.Count].
  destruct (Ascii.eqb c sep); [done|]. intros Hs. by rewrite IH.
Qed.

Lemma append_nil_l (s : string) : "" +:+ s = s.
Proof. reflexivity. Qed.

Lemma append_cons_l c (a b : string) :
  String.String c a +:+ b = String.String c (a +:+ b).
Proof. reflexivity. Qed.

Lemma Split_app a b sep :
  security.Count a sep = 0%nat →
  security.Split (a +:+ String.String sep b) sep = a :: security.Split b sep.
Proof.
  induction a as [|c a IH].
  - intros _. rewrite append_nil_l. cbn [security.Split]. by rewrite Ascii.eqb_refl.
  - cbn [security.Count]. destruct (Ascii.eqb c sep) eqn:Hc; [done|].
    intros Ha. rewrite append_cons_l. cbn [security.Split]. rewrite Hc. by rewrite IH.
Qed.

Lemma Count_app a b sep :
  security.Count (a +:+ b) sep = (security.Count a sep + security.Count b sep)%nat.
Proof.
  induction a as [|c a IH]; [done|]. rewrite append_cons_l. cbn [security.Count].
  destruct (Ascii.eqb c sep); by rewrite IH.
Qed.

Lemma Join_Split s sep :
  security.Join (security.Split s sep) (String.String sep "") = s.
Proof.
  induction s as [|c s IH]; [done|]. cbn [security.Split].
  destruct (Ascii.eqb c sep) eqn:Hc.
  - apply Ascii.eqb_eq in Hc as ->.
    pose proof (Split_nonempty s sep).
    destruct (security.Split s sep) as [|p ps] eqn:Hs; [done|].
    cbn [security.Join] in *. by rewrite IH.
  - pose proof (Split_nonempty s sep).
    destruct (security.Split s sep) as [|p ps] eqn:Hs; [done|].
    destruct ps as [|q ps]; cbn [security.Join] in *; by rewrite <- IH.
Qed.

Lemma existsb_elem_of (user : string) (users : list string) :
  existsb (λ x, bool_decide (x = user)) users = bool_decide (user ∈ users).
Proof.
  induction users as [|x users IH]; [done|]. cbn [existsb]. rewrite IH.
  destruct (decide (x = user)) as [->|Hne].
  - rewrite (bool_decide_eq_true_2 (user = user)) by done. cbn [orb].
    symmetry. apply bool_decide_eq_true_2, elem_of_cons. by left.
  - rewrite (bool_decide_eq_false_2 (x = user)) by done. cbn [orb].
    apply bool_decide_ext. rewrite elem_of_cons. intuition congruence.
Qed.

Section Authenticate.

Variables AuthFailed AuthEdgeNode AuthAdmin AuthUser AuthSyncAdmin : Z.
Variable HTTPCSSURL : string.

Lemma Authenticate_edge_node_key auth org destType destID secret :
  security.Count org security.slash = 0%nat →
  security.Count destType security.slash = 0%nat →
  security.Count destID security.slash = 0%nat →
  security.Authenticate AuthFailed AuthEdgeNode AuthAdmin AuthUser AuthSyncAdmin auth
    {| security.BasicAuth := Some (org +:+ "/" +:+ destType +:+ "/" +:+ destID, secret) |}
  = (AuthEdgeNode, org, destType +:+ "/" +:+ destID).
Proof.
  intros Ho Ht Hi. unfold security.Authenticate. cbn [security.BasicAuth].
  change (org +:+ "/" +:+ destType +:+ "/" +:+ destID)
    with (org +:+ String.String security.slash
                    (destType +:+ String.String security.slash destID)).
  rewrite !Split_app by done. rewrite (Split_no_separator destID) by done.
  reflexivity.
Qed.

Lemma Authenticate_not_edge_node auth key secret :
  security.Count key security.slash ≠ 2%nat →
  security.Authenticate AuthFailed AuthEdgeNode AuthAdmin AuthUser AuthSyncAdmin auth
    {| security.BasicAuth := Some (key, secret) |}
  = let parts := security.Split key security.at_sign in
    if negb (length parts =? 2)%nat && negb (length parts =? 3)%nat
    then (AuthFailed, "", "")
    else
      let user :=
        if (length parts =? 2)%nat then parts !!! 0%nat
        else parts !!! 0%nat +:+ "@" +:+ parts !!! 1%nat in
      if bool_decide (user ∈ security.regularUsers auth)
      then (AuthUser, parts !!! (length parts - 1)%nat, user)
      else
        if bool_decide (user ∈ security.syncAdmins auth)
        then (AuthSyncAdmin, "", user)
        else (AuthAdmin, parts !!! (length parts - 1)%nat, user).
Proof.
  intros Hs. unfold security.Authenticate. cbn [security.BasicAuth].
  rewrite Split_length. rewrite (proj2 (Nat.eqb_neq _ _)) by lia.
  by rewrite !existsb_elem_of.
Qed.

Lemma Authenticate_user_key auth user org secret :
  security.Count org security.at_sign = 0%nat →
  (security.Count user security.at_sign ≤ 1)%nat →
  security.Count (user +:+ "@" +:+ org) security.slash ≠ 2%nat →
  security.Authenticate AuthFailed AuthEdgeNode AuthAdmin AuthUser AuthSyncAdmin auth
    {| security.BasicAuth := Some (user +:+ "@" +:+ org, secret) |}
  = if bool_decide (user ∈ security.regularUsers auth) then (AuthUser, org, user)
    else if bool_decide (user ∈ security.syncAdmins auth) then (AuthSyncAdmin, "", user)
    else (AuthAdmin, org, user).
Proof.
  intros Ho Hu Hs. rewrite Authenticate_not_edge_node by done. cbv zeta.
  pose proof (Join_Split user security.at_sign) as Hjoin.
  pose proof (Split_length user security.at_sign) as Hlen.
  assert (security.Split (user +:+ "@" +:+ org) security.at_sign
          = security.Split user security.at_sign ++ [org]) as ->.
  { clear -Ho. change (user +:+ "@" +:+ org)
      with (user +:+ String.String security.at_sign org).
    induction user as [|c user IH].
    - rewrite append_nil_l. cbn [security.Split app].
      change (Ascii.eqb security.at_sign security.at_sign) with true.
      by rewrite Split_no_separator.
    - rewrite append_cons_l. cbn [security.Split]. destruct (Ascii.eqb c security.at_sign).
      + by rewrite IH.
      + rewrite IH. pose proof (Split_nonempty user security.at_sign).
        by destruct (security.Split user security.at_sign). }
  destruct (security.Split user security.at_sign) as [|p [|q [|r ps]]];
    cbn [length] in Hlen; try lia.
  - cbn [security.Join] in Hjoin. subst p. reflexivity.
  - cbn [security.Join] in Hjoin. subst user. reflexivity.
Qed.

Lemma Authenticate_failed_iff_in_section auth request :
  AuthFailed ≠ AuthEdgeNode → AuthFailed ≠ AuthAdmin → AuthFailed ≠ AuthUser →
  AuthFailed ≠ AuthSyncAdmin →
  (security.Authenticate AuthFailed AuthEdgeNode AuthAdmin AuthUser AuthSyncAdmin auth
     request).1.1 = AuthFailed ↔
  security.BasicAuth request = None
  ∨ ∃ key secret,
      security.BasicAuth request = Some (key, secret)
      ∧ security.Count key security.slash ≠ 2%nat
      ∧ security.Count key security.at_sign ≠ 1%nat
      ∧ security.Count key security.at_sign ≠ 2%nat.
Proof.
  intros H1 H2 H3 H4. destruct request as [[[key secret]|]].
  - cbn [security.BasicAuth].
    destruct (decide (security.Count key security.slash = 2%nat)) as [Hs|Hs].
    + unfold security.Authenticate. cbn [security.BasicAuth].
      rewrite Split_length, Hs. cbn [Nat.eqb fst]. split; [congruence|].
      intros [?|(? & ? & [= <- <-] & ? & _)]; done.
    + rewrite Authenticate_not_edge_node by done. cbv zeta. rewrite Split_length.
      destruct (decide (security.Count key security.at_sign = 1%nat)) as [Ha|Ha].
      { rewrite Ha. cbn [Nat.eqb negb andb]. split.
        - repeat case_match; cbn [fst]; congruence.
        - intros [?|(? & ? & [= <- <-] & _ & ? & _)]; done. }
      destruct (decide (security.Count key security.at_sign = 2%nat)) as [Hb|Hb].
      { rewrite Hb. cbn [Nat.eqb negb andb]. split.
        - repeat case_match; cbn [fst]; congruence.
        - intros [?|(? & ? & [= <- <-] & _ & _ & ?)]; done. }
      rewrite !(proj2 (Nat.eqb_neq _ _)) by lia. cbn [negb andb fst].
      split; [|done]. intros _. right. by exists key, secret.
  - cbn. split; [by left|done].
Qed.

Lemma KeyandSecretForURL_in_section auth cfg url :
  security.Count (security.OrgID cfg) security.slash = 0%nat →
  security.Count (security.DestinationType cfg) security.slash = 0%nat →
  security.Count (security.DestinationID cfg) security.slash = 0%nat →
  (String.prefix HTTPCSSURL url = true →
   security.Authenticate AuthFailed AuthEdgeNode AuthAdmin AuthUser AuthSyncAdmin auth
     {| security.BasicAuth := Some (security.KeyandSecretForURL HTTPCSSURL cfg url) |}
   = (AuthEdgeNode, security.OrgID cfg,
      security.DestinationType cfg +:+ "/" +:+ security.DestinationID cfg))
  ∧ (String.prefix HTTPCSSURL url = false →
     security.KeyandSecretForURL HTTPCSSURL cfg url = ("", "")
     ∧ security.Authenticate AuthFailed AuthEdgeNode AuthAdmin AuthUser AuthSyncAdmin auth
         {| security.BasicAuth := Some (security.KeyandSecretForURL HTTPCSSURL cfg url) |}
       = (AuthFailed, "", "")).
Proof.
  intros Ho Ht Hi. unfold security.KeyandSecretForURL. split.
  - intros ->. by apply Authenticate_edge_node_key.
  - by intros ->.
Qed.

Lemma Start_without_users_in_section auth authFile request :
  authFile = None ∧ security.syncAdmins auth = [] ∨ authFile = Some None →
  security.Authenticate AuthFailed AuthEdgeNode AuthAdmin AuthUser AuthSyncAdmin
      (security.Start authFile auth) request = (AuthFailed, "", "")
  ∨ (∃ org identity, security.Authenticate AuthFailed AuthEdgeNode AuthAdmin AuthUser AuthSyncAdmin
      (security.Start authFile auth) request
                     = (AuthEdgeNode, org, identity))
  ∨ (∃ org user, security.Authenticate AuthFailed AuthEdgeNode AuthAdmin AuthUser AuthSyncAdmin
      (security.Start authFile auth) request
                 = (AuthAdmin, org, user)).
Proof.
  intros Hfile.
  assert (security.regularUsers (security.Start authFile auth) = []
          ∧ security.syncAdmins (security.Start authFile auth) = []) as [Hr Hs].
  { destruct Hfile as [[-> Hs]| ->]; by cbn. }
  destruct request as [[[key secret]|]]; [|by left].
  destruct (decide (security.Count key security.slash = 2%nat)) as [Hc|Hc].
  - right. left. unfold security.Authenticate. cbn [security.BasicAuth].
    rewrite Split_length, Hc. cbn [Nat.eqb]. by eexists _, _.
  - rewrite Authenticate_not_edge_node by done. cbv zeta. rewrite Hr, Hs.
    destruct (negb _ && negb _); [by left|].
    right. right. rewrite !bool_decide_eq_false_2 by apply not_elem_of_nil.
    by eexists _, _.
Qed.

End Authenticate.

(** X23.  An app key of the form [orgID/destType/destID], none of the three
    parts containing a slash, authenticates as an edge node of the
    organization [orgID] with the identity [destType/destID], whatever the
    secret and whoever is listed as a user.  The key that
    [KeyandSecretForURL] returns for a URL that starts with the CSS URL is
    such a key for the configured organization, destination type and
    destination id; for any other URL it returns an empty key, which fails
    to authenticate. *)
Theorem Authenticate_edge_node
    (AuthFailed AuthEdgeNode AuthAdmin AuthUser AuthSyncAdmin : Z) (HTTPCSSURL : string)
    (auth : security.DummyAuthenticate) (org destType destID secret : string)
    (cfg : security.Configuration) (url : string) :
  (security.Count org security.slash = 0%nat →
   security.Count destType security.slash = 0%nat →
   security.Count destID security.slash = 0%nat →
   security.Authenticate AuthFailed AuthEdgeNode AuthAdmin AuthUser AuthSyncAdmin auth
     {| security.BasicAuth := Some (org +:+ "/" +:+ destType +:+ "/" +:+ destID, secret) |}
   = (AuthEdgeNode, org, destType +:+ "/" +:+ destID))
  ∧ (security.Count (security.OrgID cfg) security.slash = 0%nat →
     security.Count (security.DestinationType cfg) security.slash = 0%nat →
     security.Count (security.DestinationID cfg) security.slash = 0%nat →
     (String.prefix HTTPCSSURL url = true →
      security.Authenticate AuthFailed AuthEdgeNode AuthAdmin AuthUser AuthSyncAdmin auth
        {| security.BasicAuth := Some (security.KeyandSecretForURL HTTPCSSURL cfg url) |}
      = (AuthEdgeNode, security.OrgID cfg,
         security.DestinationType cfg +:+ "/" +:+ security.DestinationID cfg))
     ∧ (String.prefix HTTPCSSURL url = false →
        security.KeyandSecretForURL HTTPCSSURL cfg url = ("", "")
        ∧ security.Authenticate AuthFailed AuthEdgeNode AuthAdmin AuthUser AuthSyncAdmin auth
            {| security.BasicAuth := Some (security.KeyandSecretForURL HTTPCSSURL cfg url) |}
          = (AuthFailed, "", ""))).
Proof.
  split.
  - apply Authenticate_edge_node_key.
  - apply KeyandSecretForURL_in_section.
Qed.

Lemma Authenticate_edge_node_witness :
  security.Authenticate 0 1 2 3 4 exampleAuth
    {| security.BasicAuth := Some ("myorg/edge/node1", "secret") |}
  = (1, "myorg", "edge/node1")
  ∧ security.Authenticate 0 1 2 3 4 exampleAuth
      {| security.BasicAuth :=
           Some (security.KeyandSecretForURL "https://css" exampleConfiguration
                   "https://css/api/v1") |}
    = (1, "myorg", "edge/node1").
Proof.
  destruct (Authenticate_edge_node 0 1 2 3 4 "https://css" exampleAuth "myorg" "edge" "node1"
              "secret" exampleConfiguration "https://css/api/v1") as [Hkey Hurl].
  split.
  - apply Hkey; reflexivity.
  - apply Hurl; reflexivity.
Defined.

(** X24.  An app key of the form [user@orgID], where [orgID] has no "@" and
    [user] has at most one (a user id or an e-mail address), and which
    does not have exactly two slashes, authenticates: as a regular user of
    [orgID] when [user] is listed as regular user; else as sync admin, with
    an empty organization, when it is listed as sync admin; else as admin of
    [orgID].  The secret is not looked at. *)
Theorem Authenticate_user
    (AuthFailed AuthEdgeNode AuthAdmin AuthUser AuthSyncAdmin : Z)
    (auth : security.DummyAuthenticate) (user org secret : string) :
  security.Count org security.at_sign = 0%nat →
  (security.Count user security.at_sign ≤ 1)%nat →
  security.Count (user +:+ "@" +:+ org) security.slash ≠ 2%nat →
  security.Authenticate AuthFailed AuthEdgeNode AuthAdmin AuthUser AuthSyncAdmin auth
    {| security.BasicAuth := Some (user +:+ "@" +:+ org, secret) |}
  = if bool_decide (user ∈ security.regularUsers auth) then (AuthUser, org, user)
    else if bool_decide (user ∈ security.syncAdmins auth) then (AuthSyncAdmin, "", user)
    else (AuthAdmin, org, user).
Proof. apply Authenticate_user_key. Qed.

Lemma Authenticate_user_witness :
  security.Authenticate 0 1 2 3 4 exampleAuth
    {| security.BasicAuth := Some ("ann@example.com@myorg", "") |}
  = (3, "myorg", "ann@example.com")
  ∧ security.Authenticate 0 1 2 3 4 exampleAuth
      {| security.BasicAuth := Some ("root@myorg", "") |}
    = (4, "", "root")
  ∧ security.Authenticate 0 1 2 3 4 exampleAuth
      {| security.BasicAuth := Some ("bob@myorg", "") |}
    = (2, "myorg", "bob").
Proof.
  split; [|split].
  - apply (Authenticate_user 0 1 2 3 4 exampleAuth "ann@example.com" "myorg" "");
      [reflexivity|vm_compute; lia|vm_compute; lia].
  - apply (Authenticate_user 0 1 2 3 4 exampleAuth "root" "myorg" "");
      [reflexivity|vm_compute; lia|vm_compute; lia].
  - apply (Authenticate_user 0 1 2 3 4 exampleAuth "bob" "myorg" "");
      [reflexivity|vm_compute; lia|vm_compute; lia].
Defined.

(** X25.  With a result code for failure that differs from the other four,
    [Authenticate] fails exactly when the request has no basic
    authentication, or its app key has neither exactly two slashes nor one
    or two "@". *)
Theorem Authenticate_failed_iff
    (AuthFailed AuthEdgeNode AuthAdmin AuthUser AuthSyncAdmin : Z)
    (auth : security.DummyAuthenticate) (request : security.Request) :
  AuthFailed ≠ AuthEdgeNode → AuthFailed ≠ AuthAdmin → AuthFailed ≠ AuthUser →
  AuthFailed ≠ AuthSyncAdmin →
  (security.Authenticate AuthFailed AuthEdgeNode AuthAdmin AuthUser AuthSyncAdmin auth
     request).1.1 = AuthFailed ↔
  security.BasicAuth request = None
  ∨ ∃ key secret,
      security.BasicAuth request = Some (key, secret)
      ∧ security.Count key security.slash ≠ 2%nat
      ∧ security.Count key security.at_sign ≠ 1%nat
      ∧ security.Count key security.at_sign ≠ 2%nat.
Proof. apply Authenticate_failed_iff_in_section. Qed.

Lemma Authenticate_failed_iff_witness :
  (security.Authenticate 0 1 2 3 4 exampleAuth
     {| security.BasicAuth := Some ("nobody", "secret") |}).1.1 = 0.
Proof.
  apply (Authenticate_failed_iff 0 1 2 3 4 exampleAuth
           {| security.BasicAuth := Some ("nobody", "secret") |});
    [discriminate..|].
  right. exists "nobody", "secret". split; [reflexivity|]. vm_compute. repeat split; lia.
Defined.

(** X26.  When the file of users cannot be opened and no sync admins were
    set before, or when the file cannot be decoded, [Start] leaves both
    lists of users empty: every request then fails, is an edge node, or is
    an admin of the organization its key names, and none is a regular user
    or a sync admin. *)
Theorem Start_without_users
    (AuthFailed AuthEdgeNode AuthAdmin AuthUser AuthSyncAdmin : Z)
    (auth : security.DummyAuthenticate) (authFile : option (option security.authInfo))
    (request : security.Request) :
  authFile = None ∧ security.syncAdmins auth = [] ∨ authFile = Some None →
  security.Authenticate AuthFailed AuthEdgeNode AuthAdmin AuthUser AuthSyncAdmin
    (security.Start authFile auth) request = (AuthFailed, "", "")
  ∨ (∃ org identity,
       security.Authenticate AuthFailed AuthEdgeNode AuthAdmin AuthUser AuthSyncAdmin
         (security.Start authFile auth) request = (AuthEdgeNode, org, identity))
  ∨ (∃ org user,
       security.Authenticate AuthFailed AuthEdgeNode AuthAdmin AuthUser AuthSyncAdmin
         (security.Start authFile auth) request = (AuthAdmin, org, user)).
Proof. apply Start_without_users_in_section. Qed.

Lemma Start_without_users_witness :
  security.Authenticate 0 1 2 3 4 (security.Start (Some None) exampleAuth)
    {| security.BasicAuth := Some ("ann@example.com@myorg", "") |} = (0, "", "")
  ∨ (∃ org identity,
       security.Authenticate 0 1 2 3 4 (security.Start (Some None) exampleAuth)
         {| security.BasicAuth := Some ("ann@example.com@myorg", "") |}
       = (1, org, identity))
  ∨ (∃ org user,
       security.Authenticate 0 1 2 3 4 (security.Start (Some None) exampleAuth)
         {| security.BasicAuth := Some ("ann@example.com@myorg", "") |}
       = (2, org, user)).
Proof.
  apply (Start_without_users 0 1 2 3 4 exampleAuth (Some None)).
  by right.
Defined.

(** ** RetrieveObjects *)

Lemma retrieveObjectsPass_done orgID destType destID doc (l : list object) :
  ∀ metaDatas cur,
    NoDup ((λ r, getObjectCollectionID (MetaData_ r)) <$> l) →
    (∀ r, r ∈ l → objects cur !! getObjectCollectionID (MetaData_ r) = Some r
                  ∧ DestOrgID (MetaData_ r) = orgID) →
    destinations cur !! createDestinationCollectionID orgID destType destID = Some doc →
    ∃ cur',
      retrieveObjectsPass orgID destType destID l metaDatas cur
      = (PassDone (metaDatas
                   ++ (MetaData_ <$> filter (λ r, wantedBy destType destID r && sendable r
                                                  = true) l)), cur')
      ∧ (∀ k, (∀ r, r ∈ l → getObjectCollectionID (MetaData_ r) ≠ k) →
              objects cur' !! k = objects cur !! k)
      ∧ (∀ r, r ∈ l →
           ∃ o', objects cur' !! getObjectCollectionID (MetaData_ r) = Some o'
                 ∧ MetaData_ o' = MetaData_ r ∧ Status_ o' = Status_ r
                 ∧ RemainingConsumers o' = RemainingConsumers r
                 ∧ RemainingReceivers o' = RemainingReceivers r
                 ∧ Destinations o'
                   = if wantedBy destType destID r
                     then addDestination (doDestination doc) r else Destinations r).
Proof.
  induction l as [|r l IH]; intros metaDatas cur Hdup Hin Hdest.
  - exists cur. cbn [retrieveObjectsPass]. rewrite filter_nil. cbn [fmap list_fmap].
    rewrite app_nil_r. split; [done|]. split; [done|].
    intros r Hr. by apply elem_of_nil in Hr.
  - cbn [fmap list_fmap] in Hdup. apply NoDup_cons in Hdup as [Hfresh Hdup].
    destruct (Hin r) as [Hr Horg]; [by left|].
    cbn [retrieveObjectsPass]. fold (wantedBy destType destID r). fold (sendable r).
    rewrite filter_cons.
    destruct (wantedBy destType destID r) eqn:Hwant.
    + unfold RetrieveDestination, fetchOne. rewrite Hdest.
      assert (createObjectCollectionID orgID (ObjectType (MetaData_ r))
                (ObjectID (MetaData_ r)) = getObjectCollectionID (MetaData_ r)) as Hkey.
      { unfold getObjectCollectionID. by rewrite Horg. }
      rewrite Hkey.
      set (status := if sendable r then Delivering else Pending).
      assert ((let '(metaDatas0, status0) :=
                 if sendable r then (metaDatas ++ [MetaData_ r], Delivering)
                 else (metaDatas, Pending) in
               match
                 updateObjects (getObjectCollectionID (MetaData_ r))
                   (λ o, LastUpdate o =? LastUpdate r)
                   (λ t o, setLastUpdate t
                             (setDestinations
                                (Destinations r
                                 ++ [{| Destination_ := doDestination doc;
                                        Status := status0; Message := "" |}]) o)) cur
               with
               | (Some ErrNotFound, store) => (PassRetry, store)
               | (Some _, store) => (PassError, store)
               | (None, store) =>
                 retrieveObjectsPass orgID destType destID l metaDatas0 store
               end)
              = retrieveObjectsPass orgID destType destID l
                  (metaDatas ++ (if sendable r then [MetaData_ r] else []))
                  (with_serverTime (currentDate cur)
                     (with_objects
                        (<[getObjectCollectionID (MetaData_ r) :=
                             setLastUpdate (currentDate cur)
                               (setDestinations (addDestination (doDestination doc) r) r)]>
                           (objects cur)) cur))) as ->.
      { unfold addDestination, status.
        destruct (sendable r); cbv zeta; cbn [fst snd];
          erewrite updateObjects_Some by (done || apply Z.eqb_refl);
          by rewrite ?app_nil_r. }
      edestruct (IH (metaDatas ++ (if sendable r then [MetaData_ r] else []))
                   (with_serverTime (currentDate cur)
                      (with_objects
                         (<[getObjectCollectionID (MetaData_ r) :=
                              setLastUpdate (currentDate cur)
                                (setDestinations (addDestination (doDestination doc) r) r)]>
                            (objects cur)) cur)))
        as (cur' & Hrun & Hframe & Hupd); [done| |done|].
      { intros r' Hr'. destruct (Hin r') as [Hr'' Horg']; [by right|]. split; [|done].
        cbn [objects with_serverTime with_objects]. rewrite lookup_insert_ne; [done|].
        intros Heq. apply Hfresh. rewrite Heq. apply list_elem_of_fmap. by exists r'. }
      exists cur'. split.
      { rewrite Hrun. f_equal. f_equal. rewrite <- app_assoc. f_equal.
        cbn [andb]. destruct (sendable r).
        - by rewrite decide_True by done.
        - by rewrite decide_False by done. }
      split.
      { intros k Hk. rewrite Hframe.
        - cbn [objects with_serverTime with_objects]. rewrite lookup_insert_ne; [done|].
          apply Hk. by left.
        - intros r' Hr'. apply Hk. by right. }
      intros r' Hr'. apply elem_of_cons in Hr' as [->|Hr'].
      * rewrite Hframe.
        -- cbn [objects with_serverTime with_objects]. rewrite lookup_insert_eq.
           eexists. split; [done|]. by rewrite Hwant.
        -- intros r' Hr' Heq. apply Hfresh. rewrite <- Heq.
           apply list_elem_of_fmap. by exists r'.
      * by apply Hupd.
    + rewrite decide_False by (cbn [andb]; done).
      destruct (IH metaDatas cur) as (cur' & Hrun & Hframe & Hupd); [done| |done|].
      { intros r' Hr'. apply Hin. by right. }
      exists cur'. split; [done|]. split.
      { intros k Hk. apply Hframe. intros r' Hr'. apply Hk. by right. }
      intros r' Hr'. apply elem_of_cons in Hr' as [->|Hr'].
      * rewrite Hframe.
        -- exists r. by rewrite Hwant.
        -- intros r0 Hr0 Heq. apply Hfresh. rewrite <- Heq.
           apply list_elem_of_fmap. by exists r0.
      * by apply Hupd.
Qed.

Lemma retrieveObjectsPass_no_destination orgID destType destID (l : list object) :
  ∀ metaDatas cur,
    destinations cur !! createDestinationCollectionID orgID destType destID = None →
    retrieveObjectsPass orgID destType destID l metaDatas cur
    = (PassDone (metaDatas
                 ++ (MetaData_ <$> filter (λ r, wantedBy destType destID r && sendable r
                                                = true) l)), cur).
Proof.
  induction l as [|r l IH]; intros metaDatas cur Hdest.
  - cbn [retrieveObjectsPass]. rewrite filter_nil. cbn [fmap list_fmap].
    by rewrite app_nil_r.
  - cbn [retrieveObjectsPass]. fold (wantedBy destType destID r). fold (sendable r).
    rewrite filter_cons.
    destruct (wantedBy destType destID r) eqn:Hwant.
    + unfold RetrieveDestination, fetchOne. rewrite Hdest. cbn [andb].
      destruct (sendable r).
      * rewrite decide_True by done. rewrite IH by done.
        cbn [fmap list_fmap]. by rewrite <- app_assoc.
      * rewrite decide_False by done. by rewrite IH.
    + rewrite decide_False by (cbn [andb]; done). by rewrite IH.
Qed.

Lemma Is_string_bool (doc : string → option value) field s t :
  doc field = Some (VString s) →
  bool_decide (doc field = Some (VString t)) = bool_decide (s = t).
Proof.
  intros ->. apply bool_decide_ext. split; [by intros [= ->]|by intros ->].
Qed.

Lemma fetched_for_query orgID kd :
  matches (docField objectField kd)
    (M [Is "metadata.destination-org-id" (VString orgID);
        Or [M [Is "status" (VString ReadyToSend)];
            M [Is "status" (VString NotReadyToSend)]]])
  = fetchedFor orgID kd.2.
Proof.
  cbn [matches existsb forallb]. rewrite !andb_true_r, orb_false_r.
  unfold fetchedFor.
  rewrite (Is_string_bool _ "metadata.destination-org-id" (DestOrgID (MetaData_ kd.2)))
    by reflexivity.
  by rewrite !(Is_string_bool _ "status" (Status_ kd.2)) by reflexivity.
Qed.

Lemma RetrieveObjects_fetched orgID store :
  keyed store →
  let l := fetchAllOf objectField
             (M [Is "metadata.destination-org-id" (VString orgID);
                 Or [M [Is "status" (VString ReadyToSend)];
                     M [Is "status" (VString NotReadyToSend)]]]) (objects store) in
  NoDup ((λ r, getObjectCollectionID (MetaData_ r)) <$> l)
  ∧ (∀ r, r ∈ l ↔ objects store !! getObjectCollectionID (MetaData_ r) = Some r
                  ∧ fetchedFor orgID r = true).
Proof.
  intros Hkeyed l. split.
  - subst l. unfold fetchAllOf. rewrite <- list_fmap_compose.
    rewrite (list_fmap_ext _ fst).
    + apply (sublist_NoDup _ (map_to_list (objects store)).*1);
        [apply NoDup_fst_map_to_list|].
      apply fmap_sublist, sublist_filter.
    + intros i [k o] Hi. cbn. symmetry. apply Hkeyed.
      apply list_elem_of_lookup_2 in Hi. apply list_elem_of_filter in Hi as [_ Hi].
      by apply elem_of_map_to_list.
  - intros r. subst l. rewrite fetchAllOf_elem. split.
    + intros (k & Hk & Hm). rewrite <- (Hkeyed k r Hk). split; [done|].
      by rewrite fetched_for_query in Hm.
    + intros [Hr Hf]. eexists. split; [exact Hr|]. by rewrite fetched_for_query.
Qed.

(** X27.  On a store whose objects are stored under the key of their meta
    data, [RetrieveObjects] for a destination returns, without an error, the
    meta data of exactly the objects of the organization that are
    ReadyToSend, not inactive, and whose meta data names this destination
    type and id or leaves them empty.  When the destination is registered,
    every object of the organization that is ReadyToSend or NotReadyToSend
    and passes that filter gets the destination appended to its destinations
    list, with status Delivering if it is returned and Pending otherwise;
    the other fields of these objects, and all other objects, stay as they
    were.  An object that already lists the destination gets it a second
    time.  When the destination is not registered the same meta data are
    returned and nothing is stored. *)
Theorem RetrieveObjects_spec
    (orgID destType destID : string) (store : MongoStorage) :
  keyed store →
  ∃ metaDatas store',
    RetrieveObjects orgID destType destID store = (Some metaDatas, None, store')
    ∧ (∀ m, m ∈ metaDatas ↔
            ∃ k o, objects store !! k = Some o ∧ MetaData_ o = m
                   ∧ fetchedFor orgID o = true ∧ wantedBy destType destID o = true
                   ∧ sendable o = true)
    ∧ (destinations store !! createDestinationCollectionID orgID destType destID = None →
       store' = store)
    ∧ (∀ doc, destinations store !! createDestinationCollectionID orgID destType destID
              = Some doc →
         (∀ k, objects store !! k = None → objects store' !! k = None)
         ∧ ∀ k o, objects store !! k = Some o →
             ∃ o', objects store' !! k = Some o'
                   ∧ MetaData_ o' = MetaData_ o ∧ Status_ o' = Status_ o
                   ∧ RemainingConsumers o' = RemainingConsumers o
                   ∧ RemainingReceivers o' = RemainingReceivers o
                   ∧ Destinations o'
                     = if fetchedFor orgID o && wantedBy destType destID o
                       then addDestination (doDestination doc) o
                       else Destinations o).
Proof.
  intros Hkeyed. unfold RetrieveObjects, maxUpdateTries. cbn [retrieveObjectsLoop].
  destruct (RetrieveObjects_fetched orgID store Hkeyed) as [Hdup Hl].
  cbv zeta in Hdup, Hl.
  set (l := fetchAllOf objectField _ (objects store)) in *.
  assert (∀ m, m ∈ MetaData_ <$> filter (λ r, wantedBy destType destID r && sendable r
                                              = true) l ↔
               ∃ k o, objects store !! k = Some o ∧ MetaData_ o = m
                      ∧ fetchedFor orgID o = true ∧ wantedBy destType destID o = true
                      ∧ sendable o = true) as Hmeta.
  { intros m. rewrite list_elem_of_fmap. split.
    - intros (r & -> & Hr). apply list_elem_of_filter in Hr as [Hc Hr].
      apply Hl in Hr as [Hr Hf]. apply andb_true_iff in Hc as [Hw Hs].
      by eexists _, r.
    - intros (k & o & Ho & <- & Hf & Hw & Hs). exists o. split; [done|].
      apply list_elem_of_filter. split; [by rewrite Hw, Hs|].
      apply Hl. by rewrite <- (Hkeyed k o Ho). }
  destruct (destinations store !! createDestinationCollectionID orgID destType destID)
    as [doc|] eqn:Hdest.
  - destruct (retrieveObjectsPass_done orgID destType destID doc l [] store Hdup)
      as (store' & Hrun & Hframe & Hupd); [|done|].
    { intros r Hr. apply Hl in Hr as [Hr Hf]. split; [done|].
      apply andb_true_iff in Hf as [Hf _]. by apply bool_decide_eq_true in Hf. }
    rewrite Hrun. cbn [app]. eexists _, store'. split; [done|].
    split; [exact Hmeta|]. split; [done|].
    intros doc' [= <-]. split.
    + intros k Hk. rewrite Hframe; [done|]. intros r Hr <-.
      apply Hl in Hr as [Hr _]. congruence.
    + intros k o Ho. pose proof (Hkeyed k o Ho) as ->.
      destruct (fetchedFor orgID o) eqn:Hf.
      * destruct (Hupd o) as (o' & Ho' & H1 & H2 & H3 & H4 & H5); [by apply Hl|].
        exists o'. by rewrite andb_true_l.
      * exists o. rewrite Hframe; [by rewrite andb_false_l|].
        intros r Hr Heq. apply Hl in Hr as [Hr Hf']. rewrite Heq in Hr.
        assert (r = o) as -> by congruence. congruence.
  - rewrite retrieveObjectsPass_no_destination by done. cbn [app].
    eexists _, store. split; [done|]. split; [exact Hmeta|]. split; [done|]. done.
Qed.

Lemma RetrieveObjects_spec_witness :
  ∃ metaDatas store',
    RetrieveObjects "O" "T" "D1" autoDeleteStore = (Some metaDatas, None, store')
    ∧ (autoDeleteMetaData ∈ metaDatas ↔
       ∃ k o, objects autoDeleteStore !! k = Some o ∧ MetaData_ o = autoDeleteMetaData
              ∧ fetchedFor "O" o = true ∧ wantedBy "T" "D1" o = true ∧ sendable o = true)
    ∧ store' = autoDeleteStore.
Proof.
  destruct (RetrieveObjects_spec "O" "T" "D1" autoDeleteStore)
    as (metaDatas & store' & Hrun & Hm & Hnone & _).
  - intros k o Ho. unfold autoDeleteStore in Ho. cbn [objects] in Ho.
    apply lookup_singleton_Some in Ho as [<- <-]. reflexivity.
  - exists metaDatas, store'. split; [exact Hrun|]. split; [apply Hm|].
    apply Hnone. reflexivity.
Defined.

(** * Properties of webhooks and organizations *)

Import collections.

Lemma updateHooks_found id hooks db d :
  webhooks db !! id = Some d →
  updateHooks id (whLastUpdate d) hooks db
  = (None,
     with_mongo (with_serverTime (currentDate (mongo db)) (mongo db))
       (with_webhooks
          (<[id := {| whID := whID d; Hooks := hooks;
                      whLastUpdate := currentDate (mongo db) |}]> (webhooks db)) db)).
Proof.
  intros Hd. unfold updateHooks, update. by rewrite Hd, Z.eqb_refl.
Qed.

Lemma hook_listed url (hooks : list string) :
  existsb (λ hook, bool_decide (url = hook)) hooks = bool_decide (url ∈ hooks).
Proof.
  induction hooks as [|x hooks IH]; [done|]. cbn [existsb]. rewrite IH.
  destruct (decide (url = x)) as [->|Hne].
  - rewrite (bool_decide_eq_true_2 (x = x)) by done. cbn [orb].
    symmetry. apply bool_decide_eq_true_2, elem_of_cons. by left.
  - rewrite (bool_decide_eq_false_2 (url = x)) by done. cbn [orb].
    apply bool_decide_ext. rewrite elem_of_cons. intuition congruence.
Qed.

Lemma AddWebhook_absent orgID objectType url db :
  webhooks db !! (orgID +:+ ":" +:+ objectType) = None →
  AddWebhook orgID objectType url db
  = (None,
     with_webhooks
       (<[orgID +:+ ":" +:+ objectType :=
            {| whID := orgID +:+ ":" +:+ objectType; Hooks := [url]; whLastUpdate := 0 |}]>
          (webhooks db)) db).
Proof.
  intros Hd. unfold AddWebhook, maxUpdateTries. cbn [addWebhookLoop].
  unfold fetchOne, insert_. by rewrite Hd.
Qed.

Lemma AddWebhook_listed orgID objectType url db d :
  webhooks db !! (orgID +:+ ":" +:+ objectType) = Some d →
  url ∈ Hooks d →
  AddWebhook orgID objectType url db = (None, db).
Proof.
  intros Hd Hin. unfold AddWebhook, maxUpdateTries. cbn [addWebhookLoop].
  unfold fetchOne. rewrite Hd, hook_listed. by rewrite bool_decide_eq_true_2.
Qed.

Lemma AddWebhook_new orgID objectType url db d :
  webhooks db !! (orgID +:+ ":" +:+ objectType) = Some d →
  url ∉ Hooks d →
  AddWebhook orgID objectType url db
  = (None,
     with_mongo (with_serverTime (currentDate (mongo db)) (mongo db))
       (with_webhooks
          (<[orgID +:+ ":" +:+ objectType :=
               {| whID := whID d; Hooks := Hooks d ++ [url];
                  whLastUpdate := currentDate (mongo db) |}]> (webhooks db)) db)).
Proof.
  intros Hd Hin. unfold AddWebhook, maxUpdateTries. cbn [addWebhookLoop].
  unfold fetchOne. rewrite Hd, hook_listed. rewrite bool_decide_eq_false_2 by done.
  cbn [Hooks whLastUpdate]. by rewrite (updateHooks_found _ _ _ d Hd).
Qed.

(** X28.  [AddWebhook] returns nil and afterwards the webhooks of the object
    type are: the URL alone when there was no webhook document; the list as
    it was when it had the URL, compared byte by byte, already; and
    otherwise the list with the URL appended at the end.  The list has no
    duplicates afterwards if it had none before, [RetrieveWebhooks] returns
    it, and a second [AddWebhook] of the same URL changes nothing.  The
    objects, destinations and notifications are not touched. *)
Theorem AddWebhook_spec (orgID objectType url : string) (db : Database) :
  ∃ db' hooks',
    AddWebhook orgID objectType url db = (None, db')
    ∧ hooks'
      = match webhooks db !! (orgID +:+ ":" +:+ objectType) with
        | None => [url]
        | Some d => if bool_decide (url ∈ Hooks d) then Hooks d else Hooks d ++ [url]
        end
    ∧ Hooks <$> webhooks db' !! (orgID +:+ ":" +:+ objectType) = Some hooks'
    ∧ RetrieveWebhooks orgID objectType db' = (Some hooks', None)
    ∧ (∀ d, webhooks db !! (orgID +:+ ":" +:+ objectType) = Some d →
            NoDup (Hooks d) → NoDup hooks')
    ∧ AddWebhook orgID objectType url db' = (None, db')
    ∧ objects (mongo db') = objects (mongo db)
    ∧ destinations (mongo db') = destinations (mongo db)
    ∧ notifications (mongo db') = notifications (mongo db).
Proof.
  destruct (webhooks db !! (orgID +:+ ":" +:+ objectType)) as [d|] eqn:Hd.
  - destruct (decide (url ∈ Hooks d)) as [Hin|Hin].
    + rewrite (AddWebhook_listed _ _ _ _ d Hd Hin). rewrite bool_decide_eq_true_2 by done.
      eexists _, _. split; [done|]. split; [done|]. rewrite Hd.
      split; [done|]. split.
      { unfold RetrieveWebhooks, fetchOne. rewrite Hd.
        destruct (Hooks d); [by apply elem_of_nil in Hin|done]. }
      split; [by intros ? [= <-]|].
      split; [by apply (AddWebhook_listed _ _ _ _ d)|done].
    + rewrite (AddWebhook_new _ _ _ _ d Hd Hin). rewrite bool_decide_eq_false_2 by done.
      eexists _, _. split; [done|]. split; [done|].
      cbn [webhooks mongo with_mongo with_webhooks]. rewrite lookup_insert_eq.
      split; [done|]. split.
      { unfold RetrieveWebhooks, fetchOne.
        cbn [webhooks mongo with_mongo with_webhooks]. rewrite lookup_insert_eq.
        cbn [Hooks]. rewrite length_app. cbn [length].
        by rewrite (proj2 (Nat.eqb_neq _ _)) by lia. }
      split.
      { intros ? [= <-] Hdup. apply NoDup_app. split; [done|].
        split; [|apply NoDup_singleton].
        intros x Hx Hx'. apply list_elem_of_singleton in Hx' as ->. done. }
      split; [|done].
      eapply AddWebhook_listed.
      * cbn [webhooks mongo with_mongo with_webhooks]. apply lookup_insert_eq.
      * cbn [Hooks]. apply elem_of_app. right. by apply list_elem_of_singleton.
  - rewrite (AddWebhook_absent _ _ _ _ Hd).
    eexists _, _. split; [done|]. split; [done|].
    cbn [webhooks mongo with_webhooks]. rewrite lookup_insert_eq.
    split; [done|]. split.
    { unfold RetrieveWebhooks, fetchOne. cbn [webhooks with_webhooks].
      by rewrite lookup_insert_eq. }
    split; [by intros ? [=]|]. split; [|done].
    eapply AddWebhook_listed.
    * cbn [webhooks with_webhooks]. apply lookup_insert_eq.
    * cbn [Hooks]. by apply list_elem_of_singleton.
Qed.







(** ** Deleting an organization *)

Lemma Is_org_field {D} (field : D → string → option value) (kd : string * D) name s t :
  name ≠ "_id" →
  field kd.2 name = Some (VString s) →
  matches (docField field kd) (M [Is name (VString t)]) = bool_decide (s = t).
Proof.
  intros Hname Hs. cbn [matches forallb]. rewrite andb_true_r.
  unfold docField. rewrite (bool_decide_eq_false_2 (name = "_id")) by done.
  by apply Is_string_bool.
Qed.

(** X30.  [DeleteOrganization] returns nil and removes the messaging group
    of the organization and every destination, notification and object
    document of the organization; the documents of other organizations stay
    as they were.  The payloads, the open file handles and the webhooks are
    not touched: those of the organization's objects remain. *)
Theorem DeleteOrganization_spec (orgID : string) (db : Database) :
  ∃ db',
    DeleteOrganization orgID db = (None, db')
    ∧ messagingGroups db' = delete orgID (messagingGroups db)
    ∧ (∀ k o, objects (mongo db') !! k = Some o ↔
              objects (mongo db) !! k = Some o ∧ DestOrgID (MetaData_ o) ≠ orgID)
    ∧ (∀ k d, destinations (mongo db') !! k = Some d ↔
              destinations (mongo db) !! k = Some d
              ∧ dDestOrgID (doDestination d) ≠ orgID)
    ∧ (∀ k n, notifications (mongo db') !! k = Some n ↔
              notifications (mongo db) !! k = Some n
              ∧ nDestOrgID (Notification_ n) ≠ orgID)
    ∧ gridfs (mongo db') = gridfs (mongo db)
    ∧ openFiles (mongo db') = openFiles (mongo db)
    ∧ webhooks db' = webhooks db.
Proof.
  eexists. split; [reflexivity|].
  cbn [mongo webhooks messagingGroups with_mongo with_messagingGroups objects destinations
       notifications gridfs openFiles with_objects with_notifications with_destinations].
  split; [apply removeAll_id|].
  split.
  { intros k o. rewrite removeAll_lookup.
    rewrite (Is_org_field objectField (k, o) _ (DestOrgID (MetaData_ o))) by done.
    by rewrite bool_decide_eq_false. }
  split.
  { intros k d. rewrite removeAll_lookup.
    rewrite (Is_org_field destinationField (k, d) _ (dDestOrgID (doDestination d)))
      by done.
    by rewrite bool_decide_eq_false. }
  split; [|done].
  intros k n. rewrite removeAll_lookup.
  rewrite (Is_org_field notificationField (k, n) _ (nDestOrgID (Notification_ n)))
    by done.
  by rewrite bool_decide_eq_false.
Qed.

